(** * dash-tablist: the tab-panel custom element

    A shallow embedding of [src/elements/dash-tab-panel/dash-tab-panel.js].
    The element's methods are written in a small state-and-exception monad
    over the fragment of the browser the code talks to: the element's
    subtree, the attribute store of the elements in it, the listener list
    of the element, input focus, the console and the global bindings the
    script reads. *)

From stdpp Require Import gmap strings list fin_maps pretty.
From Stdlib Require Import ZArith Lia.

Open Scope Z_scope.

(** ** The browser fragment *)

(** Elements are objects: they are passed around by reference and every
    holder of a reference sees the writes of the others. *)
Abbreviation NodeRef := nat.

(** The content attributes of an element ([getAttribute]/[setAttribute])
    and the one IDL property the code writes, [tabIndex]. The property
    reflects the content attribute [tabindex]: an assignment to it writes
    the attribute as well (see [set_tabIndex]). *)
Record Element := mkElement {
  attributes : gmap string string;
  tabIndex : Z;
}.

(** The subtree of an element: its reference and its children, in order. *)
#[warnings="-register-all"]
Inductive Node := Nd (ref : NodeRef) (childNodes : list Node).

Definition ref (n : Node) : NodeRef := match n with Nd r _ => r end.
Definition childNodes (n : Node) : list Node := match n with Nd _ k => k end.

(** The two methods registered as listeners. *)
Inductive Listener := OnKeyDown | OnClick.

Global Instance Listener_eq_dec : EqDecision Listener.
Proof. solve_decision. Defined.

(** What a thrown value can be in this file. *)
Inductive Error :=
| ReferenceError (name : string)   (* an identifier that is bound nowhere *)
| TypeError (msg : string)         (* a member access on [undefined] *)
| Error_ (message : string).       (* [new Error(message)] *)

Record State := mkState {
  this : Node;                          (* the <dash-tablist> and its subtree *)
  elements : gmap NodeRef Element;      (* the element behind each reference *)
  activeElement : option NodeRef;       (* the focused element *)
  listeners : list (string * Listener); (* event listener list of [this] *)
  globals : gmap string string;         (* bindings of the global object, as
                                           they print in a template literal *)
  console : list string;                (* [console.warn] output, oldest first *)
  canceled : bool;                      (* canceled flag of the event in dispatch *)
}.

Definition with_this (t : Node) (s : State) : State :=
  mkState t (elements s) (activeElement s) (listeners s) (globals s)
          (console s) (canceled s).
Definition with_elements (m : gmap NodeRef Element) (s : State) : State :=
  mkState (this s) m (activeElement s) (listeners s) (globals s)
          (console s) (canceled s).
Definition with_activeElement (a : option NodeRef) (s : State) : State :=
  mkState (this s) (elements s) a (listeners s) (globals s)
          (console s) (canceled s).
Definition with_listeners (l : list (string * Listener)) (s : State) : State :=
  mkState (this s) (elements s) (activeElement s) l (globals s)
          (console s) (canceled s).
Definition with_console (c : list string) (s : State) : State :=
  mkState (this s) (elements s) (activeElement s) (listeners s) (globals s)
          c (canceled s).
Definition with_canceled (b : bool) (s : State) : State :=
  mkState (this s) (elements s) (activeElement s) (listeners s) (globals s)
          (console s) b.

(** An input event, as far as the handlers read it. *)
Record Event := mkEvent {
  target : NodeRef;
  keyCode : Z;
  altKey : bool;
  cancelable : bool;
}.

(** ** Completions and the monad *)

Inductive Completion (A : Type) :=
| Normal (a : A)
| Throw (e : Error).
Arguments Normal {A} a.
Arguments Throw {A} e.

(** A method runs on a state; what it wrote before it threw stays written. *)
Definition M (A : Type) : Type := State → State * Completion A.

Global Instance M_ret : MRet M := λ A a s, (s, Normal a).
Global Instance M_bind : MBind M := λ A B f m s,
  match m s with
  | (s', Normal a) => f a s'
  | (s', Throw e) => (s', Throw e)
  end.

Definition gets {A} (f : State → A) : M A := λ s, (s, Normal (f s)).
Definition modify (f : State → State) : M unit := λ s, (f s, Normal tt).
Definition throw {A} (e : Error) : M A := λ s, (s, Throw e).

(** [Array.prototype.forEach] with an effectful callback. *)
Fixpoint forEach {A} (l : list A) (f : A → M unit) : M unit :=
  match l with
  | [] => mret tt
  | x :: l' => f x ;; forEach l' f
  end.

(** ** Trees: document order and [appendChild] *)

(** The descendants of a node in document (pre-)order, the node excluded. *)
Fixpoint descendants (n : Node) : list NodeRef :=
  match n with
  | Nd _ kids => flat_map (λ k, ref k :: descendants k) kids
  end.

(** All references of a subtree, its root first. *)
Definition subtree (n : Node) : list NodeRef := ref n :: descendants n.

(** [detach r n] takes the first node referenced [r] out of the descendants
    of [n], with its subtree: what is left of [n], and what was taken. *)
Fixpoint detach (r : NodeRef) (n : Node) : Node * option Node :=
  match n with
  | Nd h kids =>
      let fix go (ks : list Node) : list Node * option Node :=
        match ks with
        | [] => ([], None)
        | k :: rest =>
            if decide (ref k = r) then (rest, Some k)
            else match detach r k with
                 | (k', Some sub) => (k' :: rest, Some sub)
                 | (_, None) =>
                     let '(rest', sub) := go rest in (k :: rest', sub)
                 end
        end in
      let '(kids', sub) := go kids in (Nd h kids', sub)
  end.

(** The children loop of [detach], on its own. *)
Definition detach_kids (r : NodeRef) : list Node → list Node * option Node :=
  fix go ks :=
    match ks with
    | [] => ([], None)
    | k :: rest =>
        if decide (ref k = r) then (rest, Some k)
        else match detach r k with
             | (k', Some sub) => (k' :: rest, Some sub)
             | (_, None) =>
                 let '(rest', sub) := go rest in (k :: rest', sub)
             end
    end.

(** [parent.appendChild(child)] for a [child] that is below [parent]: the
    child is moved to the last child position. The callers below only pass
    descendants of [this]; a reference that is not below [parent] is left
    where it is. *)
Definition append_child (parent : Node) (child : NodeRef) : Node :=
  match detach child parent with
  | (Nd h kids, Some sub) => Nd h (kids ++ [sub])
  | (_, None) => parent
  end.

(** ** Reading the state *)

(** [el.getAttribute(name)]: [None] is [null]. *)
Definition attr (s : State) (el : NodeRef) (name : string) : option string :=
  e ← elements s !! el; attributes e !! name.

(** [el.id]: the id attribute, the empty string when there is none. *)
Definition elem_id (s : State) (el : NodeRef) : string :=
  default "" (attr s el "id").

(** [this.querySelectorAll('[role=r]')] as an array. *)
Definition query_role (r : string) (s : State) : list NodeRef :=
  filter (λ el, attr s el "role" = Some r) (descendants (this s)).

(** A string in a condition. *)
Definition truthy (v : option string) : bool :=
  match v with
  | Some v => bool_decide (v ≠ "")
  | None => false
  end.

(** [Array.prototype.find] and [findIndex] ([-1] when nothing matches). *)
Definition find {A} (P : A → Prop) `{∀ x, Decision (P x)} (l : list A)
  : option A := snd <$> list_find P l.
Definition findIndex {A} (P : A → Prop) `{∀ x, Decision (P x)} (l : list A)
  : Z := from_option (λ p, Z.of_nat (fst p)) (-1) (list_find P l).

(** [a % b] on integers: the sign of the dividend; [None] is NaN. A zero
    result of a negative dividend is -0, which indexes like 0. *)
Definition js_rem (a b : Z) : option Z :=
  if decide (b = 0) then None else Some (Z.rem a b).

(** [arr[i]] for a number [i]: [None] is [undefined]. *)
Definition index {A} (arr : list A) (i : option Z) : option A :=
  match i with
  | Some i => if decide (0 ≤ i) then arr !! Z.to_nat i else None
  | None => None
  end.

(** ** Writing the state *)

Definition getAttribute (el : NodeRef) (name : string) : M (option string) :=
  gets (λ s, attr s el name).

Definition set_attr (name value : string) (e : Element) : Element :=
  mkElement (<[name := value]> (attributes e)) (tabIndex e).
(** [el.tabIndex = i] sets the content attribute [tabindex] to the decimal
    digits of [i]. *)
Definition set_tabIndex (i : Z) (e : Element) : Element :=
  mkElement (<["tabindex" := pretty i]> (attributes e)) i.

(** A write to the element behind a reference. *)
Definition update (el : NodeRef) (f : Element → Element) (s : State) : State :=
  with_elements (alter f el (elements s)) s.

Definition setAttribute (el : NodeRef) (name value : string) : M unit :=
  modify (update el (set_attr name value)).

Definition assign_tabIndex (el : NodeRef) (i : Z) : M unit :=
  modify (update el (set_tabIndex i)).

Definition focus (el : NodeRef) : M unit :=
  modify (with_activeElement (Some el)).

Definition appendChild (child : NodeRef) : M unit :=
  modify (λ s, with_this (append_child (this s) child) s).

(** A listener that is already in the list is not added again. *)
Definition add_listener (type : string) (l : Listener) (s : State) : State :=
  if decide ((type, l) ∈ listeners s) then s
  else with_listeners (listeners s ++ [(type, l)]) s.

Definition addEventListener (type : string) (l : Listener) : M unit :=
  modify (add_listener type l).

Definition removeEventListener (type : string) (l : Listener) : M unit :=
  modify (λ s, with_listeners
                 (filter (λ x, x ≠ (type, l)) (listeners s)) s).

(** [event.preventDefault()] *)
Definition prevent (event : Event) (s : State) : State :=
  if cancelable event then with_canceled true s else s.

Definition preventDefault (event : Event) : M unit :=
  modify (prevent event).

Definition console_warn (msg : string) : M unit :=
  modify (λ s, with_console (console s ++ [msg]) s).

(** Reading an identifier that no scope of the file declares: it is looked
    up on the global object, and unbound there it is a ReferenceError. *)
Definition free_identifier (name : string) : M string :=
  λ s, match globals s !! name with
       | Some v => (s, Normal v)
       | None => (s, Throw (ReferenceError name))
       end.

(** A member access [o.m]: [o] must not be [undefined]. *)
Definition member (o : option NodeRef) (m : string) : M NodeRef :=
  match o with
  | Some el => mret el
  | None => throw (TypeError ("Cannot read properties of undefined (reading '"
                              +:+ m +:+ "')"))
  end.

(** ** The element: [class TabList extends HTMLElement] *)

Module KEYCODE.
Definition DOWN : Z := 40.
Definition LEFT : Z := 37.
Definition RIGHT : Z := 39.
Definition UP : Z := 38.
Definition HOME : Z := 36.
Definition END : Z := 35.
End KEYCODE.

(** [tab.getAttribute('aria-selected') === 'true'] *)
Definition aria_selected (s : State) (tab : NodeRef) : Prop :=
  attr s tab "aria-selected" = Some "true".

Global Instance aria_selected_dec s tab : Decision (aria_selected s tab).
Proof. unfold aria_selected. apply _. Defined.

Definition _allPanels : M (list NodeRef) := gets (query_role "tabpanel").

Definition _allTabs : M (list NodeRef) := gets (query_role "tab").

(** [panel.id === panelId], with [panelId] possibly [null]. *)
Definition _panelForTab (tab : option NodeRef) : M (option NodeRef) :=
  tab ← member tab "getAttribute";
  panelId ← getAttribute tab "aria-controls";
  panels ← _allPanels;
  gets (λ s, find (λ panel, Some (elem_id s panel) = panelId) panels).

Definition _prevTab : M (option NodeRef) :=
  tabs ← _allTabs;
  newIdx ← gets (λ s, findIndex (aria_selected s) tabs - 1);
  mret (index tabs (js_rem (newIdx + Z.of_nat (length tabs))
                           (Z.of_nat (length tabs)))).

Definition _nextTab : M (option NodeRef) :=
  tabs ← _allTabs;
  newIdx ← gets (λ s, findIndex (aria_selected s) tabs + 1);
  mret (index tabs (js_rem newIdx (Z.of_nat (length tabs)))).

Definition reset : M unit :=
  tabs ← _allTabs;
  panels ← _allPanels;
  forEach tabs (λ tab,
    assign_tabIndex tab (-1);;
    setAttribute tab "aria-selected" "false");;
  forEach panels (λ panel,
    setAttribute panel "aria-hidden" "true").

Definition disconnectedCallback : M unit :=
  removeEventListener "keydown" OnKeyDown;;
  removeEventListener "click" OnClick.

(** [newTab] is whatever the caller computed: an element, or [undefined]
    when it indexed past the tabs. The message of the error names
    [newPanelId], which nothing declares. *)
Definition _selectTab (newTab : option NodeRef) : M unit :=
  reset;;
  newPanel ← _panelForTab newTab;
  match newPanel with
  | None =>
      newPanelId ← free_identifier "newPanelId";
      throw (Error_ ("No panel with id " +:+ newPanelId))
  | Some newPanel =>
      setAttribute newPanel "aria-hidden" "false";;
      newTab ← member newTab "setAttribute";
      setAttribute newTab "aria-selected" "true";;
      assign_tabIndex newTab 0;;
      focus newTab
  end.

Definition _onKeyDown (event : Event) : M unit :=
  preventDefault event;;
  role ← getAttribute (target event) "role";
  if decide (role ≠ Some "tab") then mret tt else
  if altKey event then mret tt else
  if decide (keyCode event = KEYCODE.LEFT ∨ keyCode event = KEYCODE.UP) then
    newTab ← _prevTab;
    _selectTab newTab
  else if decide (keyCode event = KEYCODE.RIGHT
                  ∨ keyCode event = KEYCODE.DOWN) then
    newTab ← _nextTab;
    _selectTab newTab
  else if decide (keyCode event = KEYCODE.HOME) then
    tabs ← _allTabs;
    _selectTab (index tabs (Some 0))
  else if decide (keyCode event = KEYCODE.END) then
    tabs ← _allTabs;
    _selectTab (index tabs (Some (Z.of_nat (length tabs) - 1)))
  else mret tt.

(** [getAttribute] takes one argument; the second one is dropped. *)
Definition _onClick (event : Event) : M unit :=
  role ← getAttribute (target event) "role";
  if negb (truthy role) then mret tt else
  _selectTab (Some (target event)).

(** The warning of the labelling loop names [panelId], which is declared in
    [_panelForTab] only and is a free identifier here. *)
Definition connectedCallback : M unit :=
  addEventListener "keydown" OnKeyDown;;
  addEventListener "click" OnClick;;
  host ← gets (λ s, ref (this s));
  setAttribute host "role" "tablist";;
  tabs ← _allTabs;
  panels ← _allPanels;
  if decide (length tabs = 0%nat) then mret tt else
  forEach tabs appendChild;;
  forEach panels appendChild;;
  forEach tabs (λ tab,
    tab_id ← gets (λ s, elem_id s tab);
    if truthy (Some tab_id) then
      panel ← _panelForTab (Some tab);
      panel ← member panel "setAttribute";
      setAttribute panel "aria-labelledby" tab_id
    else
      panelId ← free_identifier "panelId";
      console_warn ("The tab that controls panel #" +:+ panelId
                    +:+ " has no id, " +:+ "but needs one for ARIA."));;
  selectedTab ← gets (λ s,
    match find (aria_selected s) tabs with
    | Some tab => Some tab
    | None => index tabs (Some 0)
    end);
  _selectTab selectedTab.

(** ** The effects of the methods in closed form

    What [reset] and a successful [_selectTab] do to the state, written as
    functions; the lemmas below show that the methods compute them. *)

Definition update_all (l : list NodeRef) (f : Element → Element) (s : State)
  : State := foldl (λ s el, update el f s) s l.

Definition deselected (e : Element) : Element :=
  set_attr "aria-selected" "false" (set_tabIndex (-1) e).
Definition hidden (e : Element) : Element := set_attr "aria-hidden" "true" e.
Definition shown (e : Element) : Element := set_attr "aria-hidden" "false" e.
Definition selected (e : Element) : Element :=
  set_tabIndex 0 (set_attr "aria-selected" "true" e).

Definition reset_state (s : State) : State :=
  update_all (query_role "tabpanel" s) hidden
    (update_all (query_role "tab" s) deselected s).

Definition select_state (newTab newPanel : NodeRef) (s : State) : State :=
  with_activeElement (Some newTab)
    (update newTab selected (update newPanel shown (reset_state s))).

(** What [reset] and a successful [_selectTab] do to one element. *)
Definition reset_at (s : State) (el : NodeRef) (e : Element) : Element :=
  (if decide (el ∈ query_role "tabpanel" s) then hidden else id)
    ((if decide (el ∈ query_role "tab" s) then deselected else id) e).

Definition select_at (newTab newPanel : NodeRef) (s : State) (el : NodeRef)
    (e : Element) : Element :=
  (if decide (el = newTab) then selected else id)
    ((if decide (el = newPanel) then shown else id) (reset_at s el e)).

(** The panel a tab controls, read off the state. *)
Definition panel_for (s : State) (tab : NodeRef) : option NodeRef :=
  find (λ panel, Some (elem_id s panel) = attr s tab "aria-controls")
       (query_role "tabpanel" s).

(** [aria-hidden] is the string false. *)
Definition aria_shown (s : State) (panel : NodeRef) : Prop :=
  attr s panel "aria-hidden" = Some "false".

Global Instance aria_shown_dec s panel : Decision (aria_shown s panel).
Proof. unfold aria_shown. apply _. Defined.

(** Every element occurs once in the subtree of the host. *)
Definition well_formed (s : State) : Prop := NoDup (subtree (this s)).

Global Instance well_formed_dec s : Decision (well_formed s).
Proof. unfold well_formed. apply _. Defined.

(** The error of a selection whose panel is missing: the message reads
    [newPanelId], so what is thrown depends on the global object. *)
Definition missing_panel_error (s : State) : Error :=
  match globals s !! "newPanelId" with
  | Some v => Error_ ("No panel with id " +:+ v)
  | None => ReferenceError "newPanelId"
  end.

(** ** The selection invariant *)

Definition selected_tabs (s : State) : list NodeRef :=
  filter (aria_selected s) (query_role "tab" s).
Definition shown_panels (s : State) : list NodeRef :=
  filter (aria_shown s) (query_role "tabpanel" s).

(** Exactly one tab is selected, exactly one panel is shown, and the id of
    that panel is what the tab's [aria-controls] says. *)
Definition exactly_one_selected (s : State) : Prop :=
  ∃ tab panel,
    selected_tabs s = [tab] ∧ shown_panels s = [panel] ∧
    attr s tab "aria-controls" = Some (elem_id s panel).

(** Every tab's [aria-controls] is the id of some panel. *)
Definition controls_resolve (s : State) : Prop :=
  ∀ tab, tab ∈ query_role "tab" s →
    ∃ panel, panel ∈ query_role "tabpanel" s ∧
             attr s tab "aria-controls" = Some (elem_id s panel).

(** ** The steps of [connectedCallback] in closed form *)

(** The state after the listeners are registered and the role is set. *)
Definition attached_host (s : State) : State :=
  update (ref (this s)) (set_attr "role" "tablist")
    (add_listener "click" OnClick (add_listener "keydown" OnKeyDown s)).

(** The state after [l.forEach(el => this.appendChild(el))]. *)
Definition moved (l : list NodeRef) (s : State) : State :=
  foldl (λ s child, with_this (append_child (this s) child) s) s l.

(** The callback of the labelling loop. *)
Definition label (tab : NodeRef) : M unit :=
  tab_id ← gets (λ s, elem_id s tab);
  if truthy (Some tab_id) then
    panel ← _panelForTab (Some tab);
    panel ← member panel "setAttribute";
    setAttribute panel "aria-labelledby" tab_id
  else
    panelId ← free_identifier "panelId";
    console_warn ("The tab that controls panel #" +:+ panelId
                  +:+ " has no id, " +:+ "but needs one for ARIA.").

(** The value of [selectedTab]. *)
Definition initial_tab (tabs : list NodeRef) (s : State) : option NodeRef :=
  match find (aria_selected s) tabs with
  | Some tab => Some tab
  | None => index tabs (Some 0)
  end.

(** The initial selection in the specification's words: the first tab in
    document order that the markup marks selected, and the first tab when
    it marks none. *)
Definition first_marked_or_first (s : State) : option NodeRef :=
  match selected_tabs s with
  | tab :: _ => Some tab
  | [] => head (query_role "tab" s)
  end.

(** [s'] is [s] with the descendants of the host rearranged and with other
    [aria-labelledby] values: the same elements below the same host, and
    every other attribute of theirs as it was. *)
Definition rearranged (s s' : State) : Prop :=
  ref (this s') = ref (this s) ∧
  descendants (this s') ≡ₚ descendants (this s) ∧
  ∀ el n, el ∈ descendants (this s) → n ≠ "aria-labelledby" →
          attr s' el n = attr s el n.

(** ** The transitions of the selection state machine

    The names are the specification's; the bodies are the statements of
    [_onClick], of the cases of [_onKeyDown] and of [connectedCallback]. *)
Inductive Transition :=
| selectExplicit (tab : NodeRef)
| selectPrevious
| selectNext
| selectFirst
| selectLast
| attach.

Definition transition (t : Transition) : M unit :=
  match t with
  | selectExplicit tab => _selectTab (Some tab)
  | selectPrevious => newTab ← _prevTab; _selectTab newTab
  | selectNext => newTab ← _nextTab; _selectTab newTab
  | selectFirst => tabs ← _allTabs; _selectTab (index tabs (Some 0))
  | selectLast =>
      tabs ← _allTabs;
      _selectTab (index tabs (Some (Z.of_nat (length tabs) - 1)))
  | attach => connectedCallback
  end.

(** The key-to-transition table of the specification. *)
Definition key_transition (key : Z) : option Transition :=
  if decide (key = KEYCODE.LEFT ∨ key = KEYCODE.UP) then Some selectPrevious
  else if decide (key = KEYCODE.RIGHT ∨ key = KEYCODE.DOWN)
       then Some selectNext
  else if decide (key = KEYCODE.HOME) then Some selectFirst
  else if decide (key = KEYCODE.END) then Some selectLast
  else None.

(** ** Example documents *)

(** An element as the parser leaves it, and an entry of the store. *)
Definition element (attrs : list (string * string)) : Element :=
  mkElement (list_to_map attrs) (-1).
Definition stored (r : NodeRef) (e : Element) : NodeRef * Element := (r, e).

Definition tab_element (id controls : string) : Element :=
  element [("role", "tab"); ("id", id); ("aria-controls", controls)].
Definition panel_element (id : string) : Element :=
  element [("role", "tabpanel"); ("id", id)].

(** A freshly parsed page: nothing focused, no listeners, no globals. *)
Definition page (host : Node) (store : list (NodeRef * Element)) : State :=
  mkState host (list_to_map store) None [] ∅ [] false.

(** A click on an element, and a key pressed on one. *)
Definition click (el : NodeRef) : Event := mkEvent el 0 false true.
Definition keydown (el : NodeRef) (key : Z) : Event :=
  mkEvent el key false true.

(** Three tabs, each right above its panel, none marked selected. *)
Definition three_tabs : State :=
  page (Nd 0 [Nd 1 []; Nd 2 []; Nd 3 []; Nd 4 []; Nd 5 []; Nd 6 []])
       [stored 0 (element []);
        stored 1 (tab_element "t1" "p1"); stored 2 (panel_element "p1");
        stored 3 (tab_element "t2" "p2"); stored 4 (panel_element "p2");
        stored 5 (tab_element "t3" "p3"); stored 6 (panel_element "p3")].

(** The same page once the element is connected, and after End was
    pressed on its first tab. *)
Definition three_tabs_attached : State := fst (connectedCallback three_tabs).
Definition three_tabs_at_end : State :=
  fst (_onKeyDown (keydown 1 KEYCODE.END) three_tabs_attached).

(** Two tabs, the first one selected, the second one naming a panel that
    is not there. *)
Definition dangling_tab : State :=
  page (Nd 0 [Nd 1 []; Nd 3 []; Nd 2 []; Nd 4 []])
       [stored 0 (element [("role", "tablist")]);
        stored 1 (mkElement (list_to_map [("role", "tab"); ("id", "t1");
                    ("aria-controls", "p1"); ("aria-selected", "true");
                    ("tabindex", "0")]) 0);
        stored 2 (element [("role", "tabpanel"); ("id", "p1");
                           ("aria-hidden", "false")]);
        stored 3 (mkElement (list_to_map [("role", "tab"); ("id", "t2");
                    ("aria-controls", "missing-id");
                    ("aria-selected", "false"); ("tabindex", "-1")]) (-1));
        stored 4 (element [("role", "tabpanel"); ("id", "p2");
                           ("aria-hidden", "true")])].

(** One tab and two panels that carry the id the tab names, and the same
    page with the two panels in the other order. *)
Definition twin_panels : State :=
  page (Nd 0 [Nd 1 []; Nd 2 []; Nd 3 []])
       [stored 0 (element [("role", "tablist")]);
        stored 1 (tab_element "t" "p");
        stored 2 (panel_element "p"); stored 3 (panel_element "p")].
Definition twin_panels_swapped : State :=
  with_this (Nd 0 [Nd 1 []; Nd 3 []; Nd 2 []]) twin_panels.

(** The connected three tabs with the panels in reverse order. *)
Definition three_tabs_shuffled : State :=
  with_this (Nd 0 [Nd 1 []; Nd 3 []; Nd 5 []; Nd 6 []; Nd 4 []; Nd 2 []])
            three_tabs_attached.

(** Three tabs of which the markup marks the second and the third. *)
Definition two_marked : State :=
  page (Nd 0 [Nd 1 []; Nd 2 []; Nd 3 []; Nd 4 []; Nd 5 []; Nd 6 []])
       [stored 0 (element []);
        stored 1 (tab_element "t1" "p1"); stored 2 (panel_element "p1");
        stored 3 (element [("role", "tab"); ("id", "t2");
                           ("aria-controls", "p2"); ("aria-selected", "true")]);
        stored 4 (panel_element "p2");
        stored 5 (element [("role", "tab"); ("id", "t3");
                           ("aria-controls", "p3"); ("aria-selected", "true")]);
        stored 6 (panel_element "p3")].

(** A container without tabs: a heading and a lone panel. *)
Definition no_tabs : State :=
  page (Nd 0 [Nd 1 []; Nd 2 []])
       [stored 0 (element []);
        stored 1 (element [("id", "heading")]);
        stored 2 (panel_element "p1")].

(** Two tabs of which the first has no id. *)
Definition missing_id : State :=
  page (Nd 0 [Nd 1 []; Nd 2 []; Nd 3 []; Nd 4 []])
       [stored 0 (element []);
        stored 1 (element [("role", "tab"); ("aria-controls", "p1")]);
        stored 2 (panel_element "p1");
        stored 3 (tab_element "t2" "p2"); stored 4 (panel_element "p2")].

(** Progressive-enhancement markup with wrappers: each tab and its panel
    sit inside a section, and the second tab sits inside the first panel. *)
Definition nested_markup : State :=
  page (Nd 0 [Nd 10 [Nd 1 [Nd 20 []]; Nd 2 [Nd 21 []; Nd 3 []]];
              Nd 11 [Nd 4 []]])
       [stored 0 (element []); stored 10 (element []);
        stored 11 (element []); stored 20 (element []);
        stored 21 (element []);
        stored 1 (tab_element "t1" "p1"); stored 2 (panel_element "p1");
        stored 3 (tab_element "t2" "p2"); stored 4 (panel_element "p2")].

(** ** What the properties below speak of *)

(** [s'] is [s] after rounds of the labelling loop: the elements differ in
    [aria-labelledby] only, and the console may have grown. *)
Definition relabelled (s s' : State) : Prop :=
  this s' = this s ∧ listeners s' = listeners s ∧
  globals s' = globals s ∧ canceled s' = canceled s ∧
  activeElement s' = activeElement s ∧
  ∀ el, tabIndex <$> elements s' !! el = tabIndex <$> elements s !! el ∧
        ∀ n, n ≠ "aria-labelledby" → attr s' el n = attr s el n.

(** The state in which the labelling loop of [connectedCallback] starts. *)
Definition regrouped (s : State) : State :=
  moved (query_role "tabpanel" (attached_host s))
    (moved (query_role "tab" (attached_host s)) (attached_host s)).

(** [tab] has an id and controls [panel]: the labelling loop writes the id
    of [tab] on [panel]. *)
Definition labels (s : State) (panel tab : NodeRef) : Prop :=
  elem_id s tab ≠ "" ∧ panel_for s tab = Some panel.

Global Instance labels_dec s panel tab : Decision (labels s panel tab).
Proof. unfold labels. apply _. Defined.

(** A round of the labelling loop on [tab] completes: the tab has an id
    and a panel, or it has no id and the page binds [panelId]. *)
Definition labelable (s : State) (tab : NodeRef) : Prop :=
  if decide (elem_id s tab = "") then is_Some (globals s !! "panelId")
  else is_Some (panel_for s tab).

(** The method behind a registered listener. *)
Definition handler (l : Listener) : Event → M unit :=
  match l with
  | OnKeyDown => _onKeyDown
  | OnClick => _onClick
  end.

(** A tab without [aria-controls], a tab whose [aria-controls] is empty, a
    panel with an id and a panel without one. *)
Definition bare_tabs : State :=
  page (Nd 0 [Nd 1 []; Nd 2 []; Nd 3 []; Nd 4 []])
       [stored 0 (element []);
        stored 1 (element [("role", "tab"); ("id", "t1")]);
        stored 2 (tab_element "t2" "");
        stored 3 (panel_element "p");
        stored 4 (element [("role", "tabpanel")])].

(** * Properties *)

(** ** Moving a node keeps the elements of the subtree *)

Section Trees.

(** Induction on a tree whose hypothesis covers all children. *)
Lemma Node_forall_ind (P : Node → Prop) :
  (∀ r kids, Forall P kids → P (Nd r kids)) → ∀ n, P n.
Proof.
  intros step. fix IH 1. intros [r kids]. apply step.
  induction kids as [|k kids IHkids]; constructor; [apply IH | exact IHkids].
Qed.

Lemma detach_unfold r h kids :
  detach r (Nd h kids) =
  let '(kids', sub) := detach_kids r kids in (Nd h kids', sub).
Proof. reflexivity. Qed.

Lemma descendants_cons h k kids :
  descendants (Nd h (k :: kids)) = subtree k ++ descendants (Nd h kids).
Proof. reflexivity. Qed.

Lemma descendants_app h ks1 ks2 :
  descendants (Nd h (ks1 ++ ks2)) =
  descendants (Nd h ks1) ++ descendants (Nd h ks2).
Proof. simpl. apply flat_map_app. Qed.

Lemma detach_ref r n n' sub : detach r n = (n', sub) → ref n' = ref n.
Proof.
  destruct n as [h kids]. rewrite detach_unfold.
  destruct (detach_kids r kids) as [kids' o]. by intros [= <- _].
Qed.

(** What [detach] takes out and what it leaves make up what was there. *)
Lemma detach_Permutation r n :
  ∀ n' sub, detach r n = (n', Some sub) →
    descendants n ≡ₚ descendants n' ++ subtree sub.
Proof.
  induction n as [h kids IH] using Node_forall_ind.
  intros n' sub. rewrite detach_unfold.
  destruct (detach_kids r kids) as [kids' o] eqn:Hk.
  intros [= <- ->]. revert kids' Hk.
  induction IH as [|k rest Hhead _ IHrest]; intros kids' Hk;
    simpl in Hk; [done|].
  destruct (decide (ref k = r)) as [_|_].
  { injection Hk as <- <-. rewrite descendants_cons.
    apply Permutation_app_comm. }
  destruct (detach r k) as [k' [sub'|]] eqn:Hd.
  - injection Hk as <- <-. rewrite !descendants_cons. unfold subtree at 1 2.
    rewrite (detach_ref _ _ _ _ Hd), (Hhead _ _ eq_refl).
    simpl. apply perm_skip.
    rewrite <- !(assoc_L (++)). apply Permutation_app_head.
    apply Permutation_app_comm.
  - destruct (detach_kids r rest) as [rest' o] eqn:Hr.
    injection Hk as <- ->. rewrite !descendants_cons.
    rewrite (IHrest _ eq_refl). by rewrite (assoc_L (++)).
Qed.

Lemma append_child_ref n r : ref (append_child n r) = ref n.
Proof.
  unfold append_child. destruct (detach r n) as [[h kids] [sub|]] eqn:Hd;
    [|done]. by apply detach_ref in Hd.
Qed.

Lemma append_child_Permutation n r :
  descendants (append_child n r) ≡ₚ descendants n.
Proof.
  unfold append_child. destruct (detach r n) as [[h kids] [sub|]] eqn:Hd;
    [|done].
  rewrite (detach_Permutation _ _ _ _ Hd), descendants_app.
  simpl. by rewrite (right_id_L [] (++)).
Qed.

End Trees.

(** ** Running the monad *)

Section Running.

Lemma bind_run {A B} (m : M A) (f : A → M B) s :
  (m ≫= f) s = match m s with
               | (s', Normal a) => f a s'
               | (s', Throw e) => (s', Throw e)
               end.
Proof. reflexivity. Qed.

Lemma bind_gets {A B} (g : State → A) (f : A → M B) s :
  (gets g ≫= f) s = f (g s) s.
Proof. reflexivity. Qed.

Lemma bind_modify {B} (g : State → State) (f : unit → M B) s :
  (modify g ≫= f) s = f tt (g s).
Proof. reflexivity. Qed.

Lemma forEach_ext {A} (f g : A → M unit) l s :
  (∀ x s, f x s = g x s) → forEach l f s = forEach l g s.
Proof.
  intros Hfg. revert s. induction l as [|x l IH]; intros s; [done|].
  simpl. rewrite !bind_run, Hfg. destruct (g x s) as [s' [[]|e]]; auto.
Qed.

Lemma forEach_modify {A} (g : A → State → State) l s :
  forEach l (λ x, modify (g x)) s = (foldl (λ s x, g x s) s l, Normal tt).
Proof.
  revert s. induction l as [|x l IH]; intros s; [done|].
  simpl. rewrite bind_run. simpl. apply IH.
Qed.

(** A property of the state that every call of the callback keeps holds
    when the loop ends, however it ends. *)
Lemma forEach_invariant {A} (I : State → Prop) (f : A → M unit) l s s' c :
  (∀ x t t' c', x ∈ l → I t → f x t = (t', c') → I t') →
  I s → forEach l f s = (s', c) → I s'.
Proof.
  revert s. induction l as [|x l IH]; intros s Hf Hs Hrun.
  - by injection Hrun as <- _.
  - simpl in Hrun. rewrite bind_run in Hrun.
    destruct (f x s) as [t [[]|e]] eqn:Hx.
    + eapply IH; [|by eapply Hf; [left|..]|done].
      intros ?????; apply Hf. by right.
    + injection Hrun as <- _. eapply Hf; [left|..]; done.
Qed.

(** A loop whose every round completes, completes. *)
Lemma forEach_completes {A} (I : State → Prop) (f : A → M unit) l s :
  (∀ x t, x ∈ l → I t → ∃ t', f x t = (t', Normal tt) ∧ I t') →
  I s → ∃ s', forEach l f s = (s', Normal tt) ∧ I s'.
Proof.
  revert s. induction l as [|x l IH]; intros s Hf Hs.
  - by exists s.
  - destruct (Hf x s) as (t & Hx & Ht); [by left|done|].
    destruct (IH t) as (s' & Hrun & Hs'); [|done|].
    { intros ????; apply Hf; [by right|done]. }
    exists s'. simpl. by rewrite bind_run, Hx.
Qed.

(** A loop one of whose rounds throws whenever it is reached, throws. *)
Lemma forEach_throws {A} (I : State → Prop) (f : A → M unit) l x s :
  x ∈ l →
  (∀ y t t' c, I t → f y t = (t', c) → I t') →
  (∀ t, I t → ∃ t' e, f x t = (t', Throw e)) →
  I s → ∃ s' e, forEach l f s = (s', Throw e) ∧ I s'.
Proof.
  intros Hx Hstep Hthrow. revert s.
  induction l as [|y l IH]; intros s Hs; [by apply elem_of_nil in Hx|].
  simpl. rewrite bind_run. destruct (f y s) as [t [[]|e]] eqn:Hy.
  - apply elem_of_cons in Hx as [->|Hx].
    + destruct (Hthrow s Hs) as (t' & e & Hrun). congruence.
    + apply IH; eauto.
  - exists t, e. eauto.
Qed.

End Running.

(** ** The effect of [reset] and [_selectTab], element by element *)

Section Effects.
Implicit Types (s : State) (el : NodeRef) (f : Element → Element).

Lemma update_all_elements l f s :
  update_all l f s =
  with_elements (foldl (λ m el, alter f el m) (elements s) l) s.
Proof.
  unfold update_all. revert s. induction l as [|x l IH]; intros s.
  - by destruct s.
  - simpl. by rewrite IH.
Qed.

Lemma lookup_alter_all f (m : gmap NodeRef Element) l k :
  (∀ e, f (f e) = f e) →
  foldl (λ m el, alter f el m) m l !! k =
  if decide (k ∈ l) then f <$> m !! k else m !! k.
Proof.
  intros Hf. revert m. induction l as [|x l IH]; intros m; [done|].
  simpl. rewrite IH, lookup_alter.
  destruct (decide (x = k)) as [->|Hne].
  - rewrite (decide_True (P := k ∈ k :: l)) by left.
    destruct (m !! k) as [e|]; simpl; [|by case_decide].
    rewrite Hf. by case_decide.
  - destruct (decide (k ∈ l)) as [Hin|Hin].
    + by rewrite decide_True by by right.
    + rewrite decide_False; [done|]. by intros [->|?]%elem_of_cons.
Qed.

Lemma set_attr_set_attr n v w e :
  set_attr n v (set_attr n w e) = set_attr n v e.
Proof. unfold set_attr. simpl. by rewrite insert_insert_eq. Qed.

Lemma deselected_idemp e : deselected (deselected e) = deselected e.
Proof.
  unfold deselected, set_attr, set_tabIndex. simpl. f_equal.
  apply map_eq. intros n.
  destruct (decide (n = "aria-selected")), (decide (n = "tabindex"));
    by simplify_map_eq.
Qed.

Lemma hidden_idemp e : hidden (hidden e) = hidden e.
Proof. apply set_attr_set_attr. Qed.

Lemma elements_reset s el :
  elements (reset_state s) !! el = reset_at s el <$> elements s !! el.
Proof.
  unfold reset_state, reset_at. rewrite !update_all_elements. simpl.
  rewrite !lookup_alter_all by auto using deselected_idemp, hidden_idemp.
  destruct (elements s !! el); by repeat case_decide.
Qed.

Lemma elements_select t p s el :
  elements (select_state t p s) !! el =
  select_at t p s el <$> elements s !! el.
Proof.
  unfold select_state, select_at. simpl. rewrite !lookup_alter.
  repeat case_decide; simplify_eq; rewrite !elements_reset;
    by destruct (elements s !! _).
Qed.

(** [reset] writes the store and nothing else. *)
Lemma reset_state_store s :
  reset_state s = with_elements (elements (reset_state s)) s.
Proof. unfold reset_state. by rewrite !update_all_elements. Qed.

Lemma this_reset s : this (reset_state s) = this s.
Proof. unfold reset_state. by rewrite !update_all_elements. Qed.

Lemma this_select t p s : this (select_state t p s) = this s.
Proof. unfold select_state. simpl. apply this_reset. Qed.

(** Neither method writes an attribute other than the two ARIA states and
    [tabindex]. *)
Lemma attributes_reset_at s el e n :
  n ≠ "aria-selected" → n ≠ "aria-hidden" → n ≠ "tabindex" →
  attributes (reset_at s el e) !! n = attributes e !! n.
Proof.
  intros. unfold reset_at, hidden, deselected.
  repeat case_decide; simpl; by rewrite ?lookup_insert_ne.
Qed.

Lemma attributes_select_at t p s el e n :
  n ≠ "aria-selected" → n ≠ "aria-hidden" → n ≠ "tabindex" →
  attributes (select_at t p s el e) !! n = attributes e !! n.
Proof.
  intros. unfold select_at, selected, shown.
  repeat case_decide; simpl;
    rewrite ?lookup_insert_ne by done; by apply attributes_reset_at.
Qed.

Lemma attr_reset s el n :
  n ≠ "aria-selected" → n ≠ "aria-hidden" → n ≠ "tabindex" →
  attr (reset_state s) el n = attr s el n.
Proof.
  intros. unfold attr. rewrite elements_reset.
  destruct (elements s !! el); simpl; [|done].
  by apply attributes_reset_at.
Qed.

Lemma attr_select t p s el n :
  n ≠ "aria-selected" → n ≠ "aria-hidden" → n ≠ "tabindex" →
  attr (select_state t p s) el n = attr s el n.
Proof.
  intros. unfold attr. rewrite elements_select.
  destruct (elements s !! el); simpl; [|done].
  by apply attributes_select_at.
Qed.

(** What [reset] writes, element by element: [aria-selected] and
    [tabindex] on the tabs, [aria-hidden] on the panels. *)
Lemma attr_reset_frame s el n :
  ¬ (el ∈ query_role "tab" s ∧ (n = "aria-selected" ∨ n = "tabindex")) →
  ¬ (el ∈ query_role "tabpanel" s ∧ n = "aria-hidden") →
  attr (reset_state s) el n = attr s el n.
Proof.
  intros Htab Hpanel. unfold attr. rewrite elements_reset.
  destruct (elements s !! el) as [e|]; simpl; [|done].
  unfold reset_at, hidden, deselected, set_attr, set_tabIndex.
  repeat case_decide; simpl; rewrite ?lookup_insert_ne; try done;
    intros <-; tauto.
Qed.

(** So the tabs and the panels, and the pairing, are what they were. *)
Lemma query_role_ext r s s' :
  this s' = this s → (∀ el, attr s' el "role" = attr s el "role") →
  query_role r s' = query_role r s.
Proof.
  intros Hthis Hrole. unfold query_role. rewrite Hthis.
  apply list_filter_iff. intros el. by rewrite Hrole.
Qed.

Lemma panel_for_ext s s' tab :
  this s' = this s →
  (∀ el n, n ≠ "aria-selected" → n ≠ "aria-hidden" → n ≠ "tabindex" →
           n ≠ "aria-labelledby" → attr s' el n = attr s el n) →
  panel_for s' tab = panel_for s tab.
Proof.
  intros Hthis Hattr. unfold panel_for, find.
  rewrite (query_role_ext _ s s') by auto. f_equal.
  apply list_find_ext. intros panel. unfold elem_id.
  by rewrite !Hattr.
Qed.

Lemma query_role_reset r s : query_role r (reset_state s) = query_role r s.
Proof.
  apply query_role_ext; [apply this_reset|].
  intros. by apply attr_reset.
Qed.

Lemma query_role_select r t p s :
  query_role r (select_state t p s) = query_role r s.
Proof.
  apply query_role_ext; [apply this_select|].
  intros. by apply attr_select.
Qed.

Lemma panel_for_reset s tab : panel_for (reset_state s) tab = panel_for s tab.
Proof.
  apply panel_for_ext; [apply this_reset|]. intros. by apply attr_reset.
Qed.

Lemma panel_for_select t p s tab :
  panel_for (select_state t p s) tab = panel_for s tab.
Proof.
  apply panel_for_ext; [apply this_select|]. intros. by apply attr_select.
Qed.

End Effects.

(** ** What the methods compute *)

Section Methods.
Implicit Types (s : State) (tab panel : NodeRef).

Lemma reset_run s : reset s = (reset_state s, Normal tt).
Proof.
  unfold reset, reset_state, _allTabs, _allPanels.
  rewrite !bind_gets, bind_run.
  rewrite (forEach_ext _ (λ tab, modify (update tab deselected)))
    by (by intros x [? m ? ? ? ? ?]; cbv [assign_tabIndex setAttribute
          modify mbind M_bind update with_elements deselected]; simpl;
        rewrite alter_alter_eq).
  rewrite forEach_modify. apply forEach_modify.
Qed.

Lemma _panelForTab_run s tab :
  _panelForTab (Some tab) s = (s, Normal (panel_for s tab)).
Proof. reflexivity. Qed.

Lemma globals_reset s : globals (reset_state s) = globals s.
Proof. unfold reset_state. by rewrite !update_all_elements. Qed.

Lemma _selectTab_found s tab panel :
  panel_for s tab = Some panel →
  _selectTab (Some tab) s = (select_state tab panel s, Normal tt).
Proof.
  intros Hp. unfold _selectTab. rewrite bind_run, reset_run.
  rewrite bind_run, _panelForTab_run, panel_for_reset, Hp.
  unfold select_state, selected. cbv [mbind M_bind setAttribute
    assign_tabIndex focus modify member mret M_ret update with_elements
    with_activeElement]. simpl. by rewrite alter_alter_eq.
Qed.

Lemma _selectTab_missing s tab :
  panel_for s tab = None →
  _selectTab (Some tab) s = (reset_state s, Throw (missing_panel_error s)).
Proof.
  intros Hp. unfold _selectTab. rewrite bind_run, reset_run.
  rewrite bind_run, _panelForTab_run, panel_for_reset, Hp.
  unfold missing_panel_error. rewrite <- (globals_reset s).
  cbv [mbind M_bind free_identifier throw].
  by destruct (globals (reset_state s) !! "newPanelId").
Qed.

Lemma _selectTab_undefined s :
  ∃ msg, _selectTab None s = (reset_state s, Throw (TypeError msg)).
Proof.
  eexists. unfold _selectTab. rewrite bind_run, reset_run. reflexivity.
Qed.

End Methods.

(** ** The invariant after a selection *)

Section Invariant.
Implicit Types (s : State) (tab panel : NodeRef).

Lemma filter_ext_elem_of {A} (P Q : A → Prop)
    `{!∀ x, Decision (P x), !∀ x, Decision (Q x)} (l : list A) :
  (∀ x, x ∈ l → P x ↔ Q x) → filter P l = filter Q l.
Proof.
  induction l as [|a l IH]; intros HPQ; [done|].
  rewrite !filter_cons, IH by (intros; apply HPQ; by right).
  destruct (decide (P a)), (decide (Q a)); try done;
    exfalso; specialize (HPQ a); rewrite elem_of_cons in HPQ; tauto.
Qed.

Lemma filter_eq_singleton (x : NodeRef) l :
  NoDup l → x ∈ l → filter (λ y, y = x) l = [x].
Proof.
  induction 1 as [|a l Hnotin Hnd IH]; [by intros ?%elem_of_nil|].
  rewrite filter_cons. intros [->|Hin]%elem_of_cons.
  - rewrite decide_True by done. f_equal.
    rewrite (filter_ext_elem_of _ (λ _, False)); [|naive_solver].
    clear. induction l as [|b l IH]; [done|].
    rewrite filter_cons. by destruct (decide False).
  - rewrite decide_False by naive_solver. auto.
Qed.

Lemma query_role_elem_of r s el :
  el ∈ query_role r s ↔ el ∈ descendants (this s) ∧ attr s el "role" = Some r.
Proof. unfold query_role. rewrite list_elem_of_filter. tauto. Qed.

Lemma query_role_NoDup r s : well_formed s → NoDup (query_role r s).
Proof.
  unfold well_formed, subtree. intros [_ Hnd]%NoDup_cons.
  by apply NoDup_filter.
Qed.

(** An element with a role is an element of the store. *)
Lemma query_role_element r s el :
  el ∈ query_role r s → ∃ e, elements s !! el = Some e.
Proof.
  intros [_ Hrole]%query_role_elem_of. unfold attr in Hrole.
  destruct (elements s !! el); [eauto | done].
Qed.

Lemma find_Some_elem_of {A} (P : A → Prop) `{!∀ x, Decision (P x)} l x :
  find P l = Some x → x ∈ l ∧ P x.
Proof.
  unfold find. intros ([i y] & Hfind & ->)%fmap_Some.
  apply list_find_Some in Hfind as (Hl & HP & _).
  split; [by eapply list_elem_of_lookup_2 | done].
Qed.

Lemma panel_for_Some s tab panel :
  panel_for s tab = Some panel →
  panel ∈ query_role "tabpanel" s ∧
  attr s tab "aria-controls" = Some (elem_id s panel).
Proof. intros [? ?]%find_Some_elem_of. auto. Qed.

Lemma selected_tabs_select s tab panel :
  well_formed s → tab ∈ query_role "tab" s →
  selected_tabs (select_state tab panel s) = [tab].
Proof.
  intros Hwf Htab. unfold selected_tabs. rewrite query_role_select.
  rewrite <- (filter_eq_singleton tab (query_role "tab" s))
    by auto using query_role_NoDup.
  apply filter_ext_elem_of. intros el Hel.
  destruct (query_role_element _ _ _ Hel) as [e He].
  unfold aria_selected, attr. rewrite elements_select, He. simpl.
  unfold select_at, reset_at.
  rewrite (decide_True (P := el ∈ query_role "tab" s)) by done.
  unfold selected, shown, hidden, deselected.
  repeat case_decide; simpl; simplify_map_eq; naive_solver.
Qed.

Lemma shown_panels_select s tab panel :
  well_formed s → panel ∈ query_role "tabpanel" s →
  shown_panels (select_state tab panel s) = [panel].
Proof.
  intros Hwf Hpanel. unfold shown_panels. rewrite query_role_select.
  rewrite <- (filter_eq_singleton panel (query_role "tabpanel" s))
    by auto using query_role_NoDup.
  apply filter_ext_elem_of. intros el Hel.
  destruct (query_role_element _ _ _ Hel) as [e He].
  unfold aria_shown, attr. rewrite elements_select, He. simpl.
  unfold select_at, reset_at.
  rewrite (decide_True (P := el ∈ query_role "tabpanel" s)) by done.
  unfold selected, shown, hidden, deselected.
  repeat case_decide; simpl; simplify_map_eq; naive_solver.
Qed.

Lemma select_state_invariant s tab panel :
  well_formed s → tab ∈ query_role "tab" s →
  panel_for s tab = Some panel →
  exactly_one_selected (select_state tab panel s).
Proof.
  intros Hwf Htab [Hpanel Hctl]%panel_for_Some. exists tab, panel.
  split_and!; [by apply selected_tabs_select|by apply shown_panels_select|].
  unfold elem_id. by rewrite !attr_select.
Qed.

Lemma _selectTab_invariant s s' tab :
  well_formed s → tab ∈ query_role "tab" s →
  _selectTab (Some tab) s = (s', Normal tt) →
  exactly_one_selected s'.
Proof.
  intros Hwf Htab. destruct (panel_for s tab) as [panel|] eqn:Hp.
  - rewrite (_selectTab_found _ _ _ Hp). intros [= <-].
    by apply select_state_invariant.
  - by rewrite (_selectTab_missing _ _ Hp).
Qed.

End Invariant.

(** ** Attaching *)

Section Attach.
Implicit Types (s : State) (tab panel : NodeRef).

Lemma this_add_listener type l s : this (add_listener type l s) = this s.
Proof. unfold add_listener. by case_decide. Qed.

Lemma add_listener_elem_of type l s :
  (type, l) ∈ listeners (add_listener type l s).
Proof.
  unfold add_listener. case_decide; [done|]. simpl.
  apply elem_of_app. right. by left.
Qed.

Lemma add_listener_mono type l s x :
  x ∈ listeners s → x ∈ listeners (add_listener type l s).
Proof.
  intros Hx. unfold add_listener. case_decide; [done|]. simpl.
  apply elem_of_app. by left.
Qed.

Lemma elements_add_listener type l s :
  elements (add_listener type l s) = elements s.
Proof. unfold add_listener. by case_decide. Qed.

Lemma connectedCallback_run s :
  connectedCallback s =
  let s0 := attached_host s in
  let tabs := query_role "tab" s0 in
  let panels := query_role "tabpanel" s0 in
  if decide (length tabs = 0%nat) then (s0, Normal tt)
  else (forEach tabs label;;
        selectedTab ← gets (initial_tab tabs);
        _selectTab selectedTab) (moved panels (moved tabs s0)).
Proof.
  unfold connectedCallback, addEventListener, setAttribute, _allTabs,
    _allPanels.
  rewrite !bind_modify, bind_gets, bind_modify, !bind_gets.
  rewrite !this_add_listener. fold (attached_host s).
  case_decide; [done|].
  unfold appendChild. rewrite bind_run, forEach_modify.
  rewrite bind_run, forEach_modify. reflexivity.
Qed.

Lemma rearranged_refl s : rearranged s s.
Proof. by split_and!. Qed.

Lemma rearranged_trans s1 s2 s3 :
  rearranged s1 s2 → rearranged s2 s3 → rearranged s1 s3.
Proof.
  intros (Href1 & Hperm1 & Hattr1) (Href2 & Hperm2 & Hattr2). split_and!.
  - congruence.
  - by rewrite Hperm2.
  - intros el n Hel Hn. rewrite Hattr2 by (by rewrite ?Hperm1).
    by apply Hattr1.
Qed.

Lemma rearranged_attached_host s :
  well_formed s → rearranged s (attached_host s).
Proof.
  unfold well_formed, subtree. intros [Hhost _]%NoDup_cons.
  unfold attached_host. split_and!; simpl.
  - by rewrite !this_add_listener.
  - by rewrite !this_add_listener.
  - intros el n Hel _. unfold attr. simpl.
    rewrite lookup_alter_ne, !elements_add_listener; [done|].
    intros ?; by subst.
Qed.

Lemma rearranged_moved l s : rearranged s (moved l s).
Proof.
  unfold moved. revert s. induction l as [|child l IH]; intros s.
  - apply rearranged_refl.
  - simpl. eapply rearranged_trans; [|apply IH].
    split_and!; simpl; auto using append_child_ref,
      append_child_Permutation.
Qed.

Lemma rearranged_query_role r s s' :
  rearranged s s' → query_role r s' ≡ₚ query_role r s.
Proof.
  intros (_ & Hperm & Hattr). unfold query_role. rewrite Hperm.
  erewrite filter_ext_elem_of; [done|].
  intros el Hel. by rewrite Hattr.
Qed.

Lemma rearranged_well_formed s s' :
  rearranged s s' → well_formed s → well_formed s'.
Proof.
  intros (Href & Hperm & _). unfold well_formed, subtree.
  by rewrite Href, Hperm.
Qed.

(** One round of the labelling loop, however it ends. *)
Lemma label_rearranged tab s s' c :
  label tab s = (s', c) → rearranged s s'.
Proof.
  unfold label. rewrite bind_gets.
  destruct (truthy (Some (elem_id s tab))).
  - rewrite bind_run, _panelForTab_run.
    destruct (panel_for s tab) as [panel|]; simpl.
    + intros [= <- _]. split_and!; [done..|].
      intros el n _ Hn. unfold attr. simpl. rewrite lookup_alter.
      case_decide; [subst|done].
      destruct (elements s !! el); simpl; [|done].
      by rewrite lookup_insert_ne.
    + intros [= <- _]. apply rearranged_refl.
  - unfold free_identifier, console_warn. rewrite bind_run.
    destruct (globals s !! "panelId"); intros [= <- _];
      by split_and!.
Qed.

Lemma labelling_rearranged tabs s s' c :
  forEach tabs label s = (s', c) → rearranged s s'.
Proof.
  apply (forEach_invariant (rearranged s)); [|apply rearranged_refl].
  intros tab t t' c' _ Ht Hrun.
  eauto using rearranged_trans, label_rearranged.
Qed.

Lemma index_elem_of {A} (l : list A) i x : index l i = Some x → x ∈ l.
Proof.
  destruct i as [i|]; [|done]. simpl. case_decide; [|done].
  apply list_elem_of_lookup_2.
Qed.

Lemma initial_tab_elem_of tabs s tab :
  initial_tab tabs s = Some tab → tab ∈ tabs.
Proof.
  unfold initial_tab. destruct (find _ _) as [t|] eqn:Hfind.
  - intros [= <-]. by apply find_Some_elem_of in Hfind as [? _].
  - apply index_elem_of.
Qed.

(** The state in which [connectedCallback] makes its selection. *)
Lemma connectedCallback_selects s s' c :
  well_formed s → query_role "tab" s ≠ [] →
  connectedCallback s = (s', c) →
  (∃ e, c = Throw e ∧ rearranged s s') ∨
  ∃ s2, rearranged s s2 ∧
        _selectTab (initial_tab (query_role "tab" (attached_host s)) s2) s2
        = (s', c).
Proof.
  intros Hwf Htabs. rewrite connectedCallback_run. cbv zeta.
  pose proof (rearranged_attached_host s Hwf) as Hhost.
  set (s0 := attached_host s) in *.
  case_decide as Hlen.
  { apply length_zero_iff_nil in Hlen.
    pose proof (rearranged_query_role "tab" _ _ Hhost) as Hperm.
    rewrite Hlen in Hperm. by apply Permutation_nil_l in Hperm. }
  set (s1 := moved _ (moved _ s0)).
  assert (rearranged s s1) as Hs1.
  { eapply rearranged_trans; [exact Hhost|].
    eapply rearranged_trans; apply rearranged_moved. }
  rewrite bind_run.
  destruct (forEach _ label s1) as [s2 [[]|e]] eqn:Hloop;
    apply labelling_rearranged in Hloop.
  - rewrite bind_gets. intros Hsel. right. exists s2.
    eauto using rearranged_trans.
  - intros [= <- <-]. left. eauto using rearranged_trans.
Qed.

Lemma connectedCallback_invariant s s' :
  well_formed s → query_role "tab" s ≠ [] →
  connectedCallback s = (s', Normal tt) → exactly_one_selected s'.
Proof.
  intros Hwf Htabs Hrun.
  destruct (connectedCallback_selects _ _ _ Hwf Htabs Hrun)
    as [(e & [=] & _)|(s2 & Hs2 & Hsel)].
  destruct (initial_tab _ s2) as [tab|] eqn:Htab.
  - apply initial_tab_elem_of in Htab.
    eapply _selectTab_invariant; [| |exact Hsel].
    + eauto using rearranged_well_formed.
    + rewrite (rearranged_query_role _ _ _ Hs2).
      by rewrite <- (rearranged_query_role _ _ _
                      (rearranged_attached_host s Hwf)).
  - destruct (_selectTab_undefined s2) as [msg Hthrow]. congruence.
Qed.

Lemma panel_for_is_Some s tab panel :
  panel ∈ query_role "tabpanel" s →
  attr s tab "aria-controls" = Some (elem_id s panel) →
  is_Some (panel_for s tab).
Proof.
  intros Hin Hctl. unfold panel_for, find.
  destruct (list_find_elem_of
              (λ panel, Some (elem_id s panel) = attr s tab "aria-controls")
              _ panel Hin) as [[i p] ->]; [done|by eexists].
Qed.

(** Rearranging keeps every tab paired. *)
Lemma controls_resolve_rearranged s s' tab :
  rearranged s s' → controls_resolve s → tab ∈ query_role "tab" s →
  is_Some (panel_for s' tab).
Proof.
  intros Hs' Hres Htab. destruct (Hres tab Htab) as (panel & Hpanel & Hctl).
  destruct Hs' as (Href & Hperm & Hattr).
  pose proof Htab as [Htab' _]%query_role_elem_of.
  pose proof Hpanel as [Hpanel' _]%query_role_elem_of.
  apply (panel_for_is_Some _ _ panel).
  - by rewrite (rearranged_query_role _ s s').
  - unfold elem_id. by rewrite !Hattr.
Qed.

Lemma initial_tab_is_Some tabs s : tabs ≠ [] → is_Some (initial_tab tabs s).
Proof.
  intros Htabs. unfold initial_tab. destruct (find _ _); [by eexists|].
  destruct tabs; [done|by eexists].
Qed.

(** With an id on every tab and a panel for every tab, attaching
    completes. *)
Lemma connectedCallback_completes s :
  well_formed s → query_role "tab" s ≠ [] → controls_resolve s →
  (∀ tab, tab ∈ query_role "tab" s → elem_id s tab ≠ "") →
  ∃ s', connectedCallback s = (s', Normal tt).
Proof.
  intros Hwf Htabs Hres Hids. rewrite connectedCallback_run. cbv zeta.
  pose proof (rearranged_attached_host s Hwf) as Hhost.
  pose proof (rearranged_query_role "tab" _ _ Hhost) as Hperm.
  set (s0 := attached_host s) in *.
  case_decide as Hlen.
  { apply length_zero_iff_nil in Hlen.
    rewrite Hlen in Hperm. by apply Permutation_nil_l in Hperm. }
  set (s1 := moved _ (moved _ s0)).
  assert (rearranged s s1) as Hs1.
  { eapply rearranged_trans; [exact Hhost|].
    eapply rearranged_trans; apply rearranged_moved. }
  destruct (forEach_completes (rearranged s) label
              (query_role "tab" s0) s1) as (s2 & Hloop & Hs2); [|done|].
  { intros tab t Htab Ht. rewrite Hperm in Htab.
    pose proof Htab as [Htab' _]%query_role_elem_of.
    destruct (controls_resolve_rearranged _ _ _ Ht Hres Htab)
      as [panel Hpanel].
    destruct (label tab t) as [t' c] eqn:Hrun. exists t'.
    pose proof (label_rearranged _ _ _ _ Hrun) as Ht'.
    split; [|eauto using rearranged_trans]. f_equal.
    revert Hrun. unfold label. rewrite bind_gets.
    destruct Ht as (_ & _ & Hattr). unfold elem_id at 1.
    rewrite Hattr by done. fold (elem_id s tab). simpl.
    rewrite bool_decide_true by auto.
    rewrite bind_run, _panelForTab_run, Hpanel. by intros [= _ <-]. }
  rewrite bind_run, Hloop, bind_gets.
  destruct (initial_tab_is_Some (query_role "tab" s0) s2) as [tab Htab].
  { intros Hnil. by rewrite Hnil in Hlen. }
  rewrite Htab. apply initial_tab_elem_of in Htab. rewrite Hperm in Htab.
  destruct (controls_resolve_rearranged _ _ _ Hs2 Hres Htab)
    as [panel Hpanel].
  rewrite (_selectTab_found _ _ _ Hpanel). by eexists.
Qed.

(** [find] is the head of [filter]. *)
Lemma find_head_filter {A} (P : A → Prop) `{!∀ x, Decision (P x)} l :
  find P l = head (filter P l).
Proof.
  unfold find. induction l as [|x l IH]; [done|].
  rewrite filter_cons. cbn [list_find]. destruct (decide (P x)); [done|].
  rewrite <- IH. by destruct (list_find P l) as [[i y]|].
Qed.

Lemma find_ext_elem_of {A} (P Q : A → Prop)
    `{!∀ x, Decision (P x), !∀ x, Decision (Q x)} (l : list A) :
  (∀ x, x ∈ l → P x ↔ Q x) → find P l = find Q l.
Proof.
  intros HPQ. by rewrite !find_head_filter, (filter_ext_elem_of P Q).
Qed.

Lemma index_0_head {A} (l : list A) : index l (Some 0) = head l.
Proof. by destruct l. Qed.

(** The source's expression and the specification's description of the
    initial selection agree. *)
Lemma initial_tab_first_marked s :
  initial_tab (query_role "tab" s) s = first_marked_or_first s.
Proof.
  unfold initial_tab, first_marked_or_first, selected_tabs.
  rewrite find_head_filter, index_0_head.
  by destruct (filter _ _).
Qed.

Lemma query_role_attached_host r s :
  well_formed s → query_role r (attached_host s) = query_role r s.
Proof.
  intros (Href & _ & Hattr)%rearranged_attached_host.
  unfold query_role. unfold attached_host at 2. simpl.
  rewrite !this_add_listener.
  apply filter_ext_elem_of. intros el Hel. by rewrite Hattr.
Qed.


(** Without a global [panelId], a round of the labelling loop leaves the
    console and the globals alone. *)
Lemma label_quiet tab s s' c :
  globals s !! "panelId" = None → label tab s = (s', c) →
  globals s' = globals s ∧ console s' = console s.
Proof.
  intros Hglobal. unfold label. rewrite bind_gets.
  destruct (truthy (Some (elem_id s tab))).
  - rewrite bind_run, _panelForTab_run.
    destruct (panel_for s tab) as [panel|]; simpl; by intros [= <- _].
  - unfold free_identifier. rewrite bind_run, Hglobal. by intros [= <- _].
Qed.

(** A tab without an id stops the labelling loop, and with it
    [connectedCallback], unless the page happens to bind [panelId]
    globally: nothing is logged and nothing is selected. *)
Lemma connectedCallback_missing_id s tab :
  well_formed s → tab ∈ query_role "tab" s → elem_id s tab = "" →
  globals s !! "panelId" = None →
  ∃ s' e, connectedCallback s = (s', Throw e) ∧
          console s' = console s ∧ rearranged s s'.
Proof.
  intros Hwf Htab Hid Hglobal. rewrite connectedCallback_run. cbv zeta.
  pose proof (rearranged_attached_host s Hwf) as Hhost.
  rewrite (query_role_attached_host "tab" _ Hwf).
  set (s0 := attached_host s) in *.
  case_decide as Hlen.
  { apply length_zero_iff_nil in Hlen. rewrite Hlen in Htab.
    by apply elem_of_nil in Htab. }
  set (s1 := moved _ (moved _ s0)).
  assert (rearranged s s1) as Hs1.
  { eapply rearranged_trans; [exact Hhost|].
    eapply rearranged_trans; apply rearranged_moved. }
  assert (globals s1 = globals s ∧ console s1 = console s) as [Hg1 Hc1].
  { assert (∀ l t, globals (moved l t) = globals t
                   ∧ console (moved l t) = console t) as Hmoved.
    { unfold moved. induction l as [|x l IH]; intros t; [done|].
      simpl. by rewrite !(proj1 (IH _)), !(proj2 (IH _)). }
    unfold s1. rewrite !(proj1 (Hmoved _ _)), !(proj2 (Hmoved _ _)).
    unfold s0, attached_host, add_listener. simpl. by repeat case_decide. }
  destruct (forEach_throws
              (λ t, rearranged s t ∧ globals t = globals s
                    ∧ console t = console s)
              label (query_role "tab" s) tab s1)
    as (s2 & e & Hloop & Hs2 & _ & Hc2); [done| | |done|].
  - intros y t t' c (Ht & Hg & Hc) Hrun.
    destruct (label_quiet y t t' c) as [Hg' Hc']; [by rewrite Hg|done|].
    split_and!; [|congruence..].
    eauto using rearranged_trans, label_rearranged.
  - intros t ((_ & _ & Hattr) & Hg & _). exists t.
    exists (ReferenceError "panelId").
    pose proof Htab as [Htab' _]%query_role_elem_of.
    unfold label. rewrite bind_gets. unfold elem_id at 1.
    rewrite Hattr by done. fold (elem_id s tab). rewrite Hid. simpl.
    unfold free_identifier. by rewrite bind_run, Hg, Hglobal.
  - exists s2, e. by rewrite bind_run, Hloop.
Qed.

End Attach.

(** ** Keyboard navigation *)

Section Navigation.
Implicit Types (s : State) (tab panel : NodeRef).

Lemma findIndex_bounds {A} (P : A → Prop) `{!∀ x, Decision (P x)} l :
  -1 ≤ findIndex P l < Z.of_nat (length l).
Proof.
  unfold findIndex. destruct (list_find P l) as [[i x]|] eqn:Hfind; simpl.
  - apply list_find_Some in Hfind as (Hi%lookup_lt_Some & _). lia.
  - lia.
Qed.

Lemma index_in_range {A} (l : list A) i :
  0 ≤ i < Z.of_nat (length l) → is_Some (index l (Some i)).
Proof.
  intros Hi. simpl. rewrite decide_True by lia.
  apply lookup_lt_is_Some. lia.
Qed.

Lemma _prevTab_run s :
  _prevTab s =
  let tabs := query_role "tab" s in
  (s, Normal (index tabs (js_rem (findIndex (aria_selected s) tabs - 1
                                  + Z.of_nat (length tabs))
                                 (Z.of_nat (length tabs))))).
Proof. reflexivity. Qed.

Lemma _nextTab_run s :
  _nextTab s =
  let tabs := query_role "tab" s in
  (s, Normal (index tabs (js_rem (findIndex (aria_selected s) tabs + 1)
                                 (Z.of_nat (length tabs))))).
Proof. reflexivity. Qed.

(** With a tab in the container, both neighbours are tabs. *)
Lemma _prevTab_is_Some s :
  query_role "tab" s ≠ [] →
  ∃ tab, _prevTab s = (s, Normal (Some tab)) ∧ tab ∈ query_role "tab" s.
Proof.
  intros Htabs. rewrite _prevTab_run. cbv zeta.
  pose proof (findIndex_bounds (aria_selected s) (query_role "tab" s)).
  assert (0 < Z.of_nat (length (query_role "tab" s))).
  { destruct (query_role "tab" s); [done|simpl; lia]. }
  unfold js_rem. rewrite decide_False by lia.
  destruct (index_in_range (query_role "tab" s)
    (Z.rem (findIndex (aria_selected s) (query_role "tab" s) - 1
            + Z.of_nat (length (query_role "tab" s)))
           (Z.of_nat (length (query_role "tab" s))))) as [tab Htab].
  { destruct (decide (findIndex (aria_selected s) (query_role "tab" s) - 1
                      + Z.of_nat (length (query_role "tab" s)) = -1))
      as [Heq|Hne].
    - rewrite Heq.
      replace (Z.of_nat (length (query_role "tab" s))) with 1 in * by lia.
      rewrite Z.rem_1_r. lia.
    - apply Z.rem_bound_pos; lia. }
  exists tab. rewrite Htab. eauto using index_elem_of.
Qed.

Lemma _nextTab_is_Some s :
  query_role "tab" s ≠ [] →
  ∃ tab, _nextTab s = (s, Normal (Some tab)) ∧ tab ∈ query_role "tab" s.
Proof.
  intros Htabs. rewrite _nextTab_run. cbv zeta.
  pose proof (findIndex_bounds (aria_selected s) (query_role "tab" s)).
  assert (0 < Z.of_nat (length (query_role "tab" s))).
  { destruct (query_role "tab" s); [done|simpl; lia]. }
  unfold js_rem. rewrite decide_False by lia.
  destruct (index_in_range (query_role "tab" s)
    (Z.rem (findIndex (aria_selected s) (query_role "tab" s) + 1)
           (Z.of_nat (length (query_role "tab" s))))) as [tab Htab].
  { apply Z.rem_bound_pos; lia. }
  exists tab. rewrite Htab. eauto using index_elem_of.
Qed.

(** Selecting a tab that has a panel. *)
Lemma _selectTab_paired s tab :
  well_formed s → controls_resolve s → tab ∈ query_role "tab" s →
  ∃ s', _selectTab (Some tab) s = (s', Normal tt) ∧
        exactly_one_selected s' ∧ selected_tabs s' = [tab].
Proof.
  intros Hwf Hres Htab.
  destruct (controls_resolve_rearranged s s tab) as [panel Hpanel];
    auto using rearranged_refl.
  exists (select_state tab panel s).
  split_and!; auto using _selectTab_found, select_state_invariant,
    selected_tabs_select.
Qed.

End Navigation.

(** ** The handlers as adapters *)

Section Handlers.
Implicit Types (s : State) (event : Event).

Lemma attr_prevent event s el n : attr (prevent event s) el n = attr s el n.
Proof. unfold prevent. by destruct (cancelable event). Qed.

(** [_onKeyDown] first cancels the event, whatever it is, and then runs
    the transition of the key when the target is a tab and Alt is up. *)
Lemma _onKeyDown_run event s :
  _onKeyDown event s =
  if decide (attr s (target event) "role" = Some "tab"
             ∧ altKey event = false)
  then match key_transition (keyCode event) with
       | Some t => transition t (prevent event s)
       | None => (prevent event s, Normal tt)
       end
  else (prevent event s, Normal tt).
Proof.
  unfold _onKeyDown, preventDefault, getAttribute.
  rewrite bind_modify, bind_gets, attr_prevent. unfold key_transition.
  destruct (decide (attr s (target event) "role" = Some "tab")) as [Hr|Hr].
  - rewrite (decide_False (P := _ ≠ _)) by tauto. destruct (altKey event).
    + by rewrite (decide_False (P := _ ∧ _)) by (by intros [_ ?]).
    + rewrite (decide_True (P := _ ∧ _)) by done.
      by repeat destruct (decide _).
  - rewrite (decide_True (P := _ ≠ _)) by done.
    by rewrite (decide_False (P := _ ∧ _)) by tauto.
Qed.

(** [_onClick] selects its target whenever the target has a role that is
    not the empty string. *)
Lemma _onClick_run event s :
  _onClick event s =
  if truthy (attr s (target event) "role")
  then transition (selectExplicit (target event)) s
  else (s, Normal tt).
Proof.
  unfold _onClick, getAttribute. rewrite bind_gets.
  by destruct (truthy _).
Qed.

Lemma _selectTab_canceled newTab s s' c :
  _selectTab newTab s = (s', c) → canceled s' = canceled s.
Proof.
  assert (canceled (reset_state s) = canceled s) as Hreset
    by by rewrite reset_state_store.
  destruct newTab as [tab|].
  - destruct (panel_for s tab) as [panel|] eqn:Hpanel.
    + rewrite (_selectTab_found _ _ _ Hpanel). by intros [= <- _].
    + rewrite (_selectTab_missing _ _ Hpanel). by intros [= <- _].
  - destruct (_selectTab_undefined s) as [msg ->]. by intros [= <- _].
Qed.

(** Every cancelable key event in the container is canceled, whatever the
    key and whatever the target. *)
Lemma _onKeyDown_cancels event s s' c :
  cancelable event = true → _onKeyDown event s = (s', c) →
  canceled s' = true.
Proof.
  intros Hcancel. rewrite _onKeyDown_run.
  assert (canceled (prevent event s) = true) as Hprevent
    by (unfold prevent; by rewrite Hcancel).
  case_decide; [|by intros [= <- _]].
  destruct (key_transition (keyCode event)) as [t|] eqn:Hkey;
    [|by intros [= <- _]].
  destruct t; cbn [transition]; unfold _allTabs;
    rewrite ?bind_gets, ?bind_run, ?_prevTab_run, ?_nextTab_run; cbv zeta;
    try (intros Hrun; apply _selectTab_canceled in Hrun; congruence).
  unfold key_transition in Hkey. by repeat case_decide.
Qed.

(** A key that is not a navigation key, or an event that is not for a tab,
    changes nothing but the canceled flag. *)
Lemma _onKeyDown_ignored event s :
  attr s (target event) "role" ≠ Some "tab" ∨ altKey event = true
  ∨ key_transition (keyCode event) = None →
  _onKeyDown event s = (prevent event s, Normal tt).
Proof.
  intros Hignored. rewrite _onKeyDown_run. case_decide as Hrole; [|done].
  destruct Hrole as [Hrole Halt].
  destruct Hignored as [?|[?|Hkey]]; [done|congruence|by rewrite Hkey].
Qed.

End Handlers.

(** ** Pairing *)

Section Pairing.
Implicit Types (s : State) (tab panel : NodeRef).

Lemma find_None_Forall {A} (P : A → Prop) `{!∀ x, Decision (P x)} l :
  find P l = None ↔ Forall (λ x, ¬ P x) l.
Proof. unfold find. rewrite fmap_None. apply list_find_None. Qed.

Lemma panel_for_None s tab :
  panel_for s tab = None ↔
  ∀ panel, panel ∈ query_role "tabpanel" s →
           attr s tab "aria-controls" ≠ Some (elem_id s panel).
Proof.
  unfold panel_for. rewrite find_None_Forall, Forall_forall. naive_solver.
Qed.

(** What [reset] leaves on a tab and on a panel. *)
Lemma reset_state_tab s tab :
  tab ∈ query_role "tab" s →
  attr (reset_state s) tab "aria-selected" = Some "false" ∧
  tabIndex <$> elements (reset_state s) !! tab = Some (-1).
Proof.
  intros Htab. destruct (query_role_element _ _ _ Htab) as [e He].
  unfold attr. rewrite elements_reset, He. simpl.
  unfold reset_at. rewrite (decide_True (P := tab ∈ query_role "tab" s)) by done.
  unfold hidden, deselected. by case_decide; simpl; simplify_map_eq.
Qed.

Lemma selected_tabs_reset s : selected_tabs (reset_state s) = [].
Proof.
  unfold selected_tabs. rewrite query_role_reset.
  rewrite (filter_ext_elem_of _ (λ _, False)).
  - induction (query_role "tab" s) as [|t l IH]; [done|].
    rewrite filter_cons. by destruct (decide False).
  - intros tab Htab. unfold aria_selected.
    by rewrite (proj1 (reset_state_tab _ _ Htab)).
Qed.

Lemma reset_state_tabindex s tab :
  tab ∈ query_role "tab" s →
  attr (reset_state s) tab "tabindex" = Some "-1".
Proof.
  intros Htab. destruct (query_role_element _ _ _ Htab) as [e He].
  unfold attr. rewrite elements_reset, He. simpl.
  unfold reset_at. rewrite (decide_True (P := tab ∈ query_role "tab" s)) by done.
  unfold hidden, deselected. by case_decide; simpl; simplify_map_eq.
Qed.

Lemma reset_state_panel s panel :
  panel ∈ query_role "tabpanel" s →
  attr (reset_state s) panel "aria-hidden" = Some "true".
Proof.
  intros Hpanel. destruct (query_role_element _ _ _ Hpanel) as [e He].
  unfold attr. rewrite elements_reset, He. simpl.
  unfold reset_at.
  rewrite (decide_True (P := panel ∈ query_role "tabpanel" s)) by done.
  unfold hidden. simpl. by simplify_map_eq.
Qed.

(** [find] does not depend on the order of a list in which at most one
    element passes the test. *)
Lemma find_Permutation_unique {A} (P : A → Prop) `{!∀ x, Decision (P x)}
    (l l' : list A) :
  l' ≡ₚ l → (∀ x y, x ∈ l → y ∈ l → P x → P y → x = y) →
  find P l' = find P l.
Proof.
  intros Hperm Huniq. destruct (find P l) as [x|] eqn:Hl.
  - apply find_Some_elem_of in Hl as [Hx HPx].
    destruct (find P l') as [y|] eqn:Hl'.
    + apply find_Some_elem_of in Hl' as [Hy HPy]. rewrite Hperm in Hy.
      f_equal. by apply Huniq.
    + apply find_None_Forall in Hl'. rewrite Forall_forall in Hl'.
      destruct (Hl' x); [by rewrite Hperm|done].
  - apply find_None_Forall in Hl. apply find_None_Forall.
    by rewrite Hperm.
Qed.

(** The test of [_panelForTab] only reads the store. *)
Lemma list_find_ext_find s s' tab l :
  (∀ el n, attr s' el n = attr s el n) →
  find (λ panel, Some (elem_id s' panel) = attr s tab "aria-controls") l
  = find (λ panel, Some (elem_id s panel) = attr s tab "aria-controls") l.
Proof.
  intros Hattr. unfold find. f_equal. apply list_find_ext.
  intros panel. unfold elem_id. by rewrite Hattr.
Qed.

Lemma shown_panels_reset s : shown_panels (reset_state s) = [].
Proof.
  unfold shown_panels. rewrite query_role_reset.
  rewrite (filter_ext_elem_of _ (λ _, False)).
  - induction (query_role "tabpanel" s) as [|p l IH]; [done|].
    rewrite filter_cons. by destruct (decide False).
  - intros panel Hpanel. unfold aria_shown.
    by rewrite (reset_state_panel _ _ Hpanel).
Qed.

End Pairing.

(** ** Selecting again *)

Section Idempotence.
Implicit Types (s : State) (tab panel el : NodeRef) (e : Element).

Lemma State_eq s1 s2 :
  this s1 = this s2 → elements s1 = elements s2 →
  activeElement s1 = activeElement s2 → listeners s1 = listeners s2 →
  globals s1 = globals s2 → console s1 = console s2 →
  canceled s1 = canceled s2 → s1 = s2.
Proof. destruct s1, s2. simpl. congruence. Qed.

Lemma Element_eq e1 e2 :
  attributes e1 = attributes e2 → tabIndex e1 = tabIndex e2 → e1 = e2.
Proof. destruct e1, e2. simpl. congruence. Qed.

Lemma select_at_idemp tab panel s el e :
  select_at tab panel (select_state tab panel s) el
    (select_at tab panel s el e)
  = select_at tab panel s el e.
Proof.
  unfold select_at, reset_at. rewrite !query_role_select.
  unfold selected, shown, hidden, deselected, set_attr, set_tabIndex.
  repeat case_decide; apply Element_eq; simpl; try done;
    apply map_eq; intros k;
    (destruct (decide (k = "aria-selected")) as [->|];
      [by simplify_map_eq|]);
    (destruct (decide (k = "tabindex")) as [->|];
      [by simplify_map_eq|]);
    (destruct (decide (k = "aria-hidden")) as [->|];
      by simplify_map_eq).
Qed.

Lemma select_state_idemp tab panel s :
  select_state tab panel (select_state tab panel s) = select_state tab panel s.
Proof.
  apply State_eq.
  - by rewrite !this_select.
  - apply map_eq. intros el. rewrite elements_select.
    rewrite (elements_select tab panel s).
    destruct (elements s !! el) as [e|]; simpl; [|done].
    by rewrite select_at_idemp.
  - done.
  - unfold select_state at 1. simpl. by rewrite reset_state_store.
  - unfold select_state at 1. simpl. by rewrite reset_state_store.
  - unfold select_state at 1. simpl. by rewrite reset_state_store.
  - unfold select_state at 1. simpl. by rewrite reset_state_store.
Qed.

End Idempotence.

(** ** The scenarios of the specification, run *)

Section Scenarios.

(** A: attaching selects the first tab and shows its panel; the tabs are
    moved in front of the panels. *)
Example scenario_A :
  snd (connectedCallback three_tabs) = Normal tt ∧
  descendants (this three_tabs_attached) = [1; 3; 5; 2; 4; 6]%nat ∧
  selected_tabs three_tabs_attached = [1%nat] ∧
  shown_panels three_tabs_attached = [2%nat] ∧
  attr three_tabs_attached 4%nat "aria-hidden" = Some "true" ∧
  attr three_tabs_attached 6%nat "aria-hidden" = Some "true" ∧
  attr three_tabs_attached 2%nat "aria-labelledby" = Some "t1" ∧
  activeElement three_tabs_attached = Some 1%nat.
Proof. vm_compute. by split_and!. Qed.

(** B and C: the right arrow on the first tab selects the second, the left
    arrow wraps to the third. *)
Example scenario_B :
  let s := fst (_onKeyDown (keydown 1 KEYCODE.RIGHT) three_tabs_attached) in
  selected_tabs s = [3%nat] ∧ shown_panels s = [4%nat].
Proof. vm_compute. by split_and!. Qed.

Example scenario_C :
  let s := fst (_onKeyDown (keydown 1 KEYCODE.LEFT) three_tabs_attached) in
  selected_tabs s = [5%nat] ∧ shown_panels s = [6%nat].
Proof. vm_compute. by split_and!. Qed.

(** D: a click on the third tab selects it. *)
Example scenario_D :
  let s := fst (_onClick (click 5) three_tabs_attached) in
  selected_tabs s = [5%nat] ∧ shown_panels s = [6%nat].
Proof. vm_compute. by split_and!. Qed.

(** E: End on the first tab selects the third, Home on the third selects
    the first. *)
Example scenario_E :
  selected_tabs three_tabs_at_end = [5%nat] ∧
  selected_tabs (fst (_onKeyDown (keydown 5 KEYCODE.HOME) three_tabs_at_end))
  = [1%nat].
Proof. vm_compute. by split_and!. Qed.

(** Tabs and panels are pulled out of their wrappers, each with what it
    contains, tabs first. *)
Example reordering_nested :
  this (fst (connectedCallback nested_markup))
  = Nd 0 [Nd 10 []; Nd 11 []; Nd 1 [Nd 20 []]; Nd 3 [];
          Nd 2 [Nd 21 []]; Nd 4 []] ∧
  snd (connectedCallback nested_markup) = Normal tt ∧
  selected_tabs (fst (connectedCallback nested_markup)) = [1%nat] ∧
  shown_panels (fst (connectedCallback nested_markup)) = [2%nat].
Proof. vm_compute. by split_and!. Qed.

(** Detaching takes both listeners off again. *)
Example detached :
  listeners three_tabs_attached = [("keydown", OnKeyDown); ("click", OnClick)] ∧
  listeners (fst (disconnectedCallback three_tabs_attached)) = [].
Proof. vm_compute. by split_and!. Qed.

End Scenarios.

(** * The claims *)

(** C1. In a container with at least one tab and a panel for every tab's
    [aria-controls] (and, as in any document, with every element at one
    place of the tree), every transition other than the attach-time one
    completes, and after any completed transition (explicit selection of a
    tab, previous, next, first, last, or the selection made at attach)
    exactly one tab has [aria-selected="true"], exactly one panel has
    [aria-hidden="false"], and the id of that panel is the selected tab's
    [aria-controls]. *)
Theorem C1_exactly_one_selected (t : Transition) (s s' : State)
    (c : Completion unit) :
  well_formed s →
  query_role "tab" s ≠ [] →
  controls_resolve s →
  (∀ tab, t = selectExplicit tab → tab ∈ query_role "tab" s) →
  transition t s = (s', c) →
  (t ≠ attach → c = Normal tt) ∧ (c = Normal tt → exactly_one_selected s').
Proof.
  intros Hwf Htabs Hres Hexplicit.
  assert (∀ newTab, is_Some newTab →
            (∀ tab, newTab = Some tab → tab ∈ query_role "tab" s) →
            _selectTab newTab s = (s', c) →
            c = Normal tt ∧ exactly_one_selected s') as Hselect.
  { intros newTab [tab ->] Htab Hrun.
    destruct (_selectTab_paired s tab) as (s1 & Hrun1 & Hinv & _); auto.
    rewrite Hrun1 in Hrun. by injection Hrun as <- <-. }
  assert (0 < Z.of_nat (length (query_role "tab" s))) as Hlen.
  { destruct (query_role "tab" s); [done|simpl; lia]. }
  destruct t; cbn [transition].
  - intros Hrun. apply Hselect in Hrun; [tauto|by eexists|].
    intros ? [= <-]. by apply Hexplicit.
  - destruct (_prevTab_is_Some s Htabs) as (tab & Hprev & Htab).
    rewrite bind_run, Hprev. intros Hrun.
    apply Hselect in Hrun; [tauto|by eexists|by intros ? [= <-]].
  - destruct (_nextTab_is_Some s Htabs) as (tab & Hnext & Htab).
    rewrite bind_run, Hnext. intros Hrun.
    apply Hselect in Hrun; [tauto|by eexists|by intros ? [= <-]].
  - unfold _allTabs. rewrite bind_gets. intros Hrun.
    apply Hselect in Hrun; [tauto|apply index_in_range; lia|].
    intros tab. apply index_elem_of.
  - unfold _allTabs. rewrite bind_gets. intros Hrun.
    apply Hselect in Hrun; [tauto|apply index_in_range; lia|].
    intros tab. apply index_elem_of.
  - intros Hrun. split; [done|]. intros ->.
    by eapply connectedCallback_invariant.
Qed.

Lemma C1_exactly_one_selected_witness :
  fst (transition attach three_tabs) = three_tabs_attached ∧
  exactly_one_selected three_tabs_attached.
Proof.
  split; [reflexivity|].
  refine (proj2 (C1_exactly_one_selected attach three_tabs three_tabs_attached
                   (Normal tt) _ _ _ _ _) eq_refl).
  - apply (bool_decide_unpack _). vm_compute. exact I.
  - vm_compute. discriminate.
  - intros tab Htab. vm_compute in Htab.
    repeat (apply elem_of_cons in Htab as [->|Htab]);
      [exists 2%nat|exists 4%nat|exists 6%nat|by apply elem_of_nil in Htab];
      (split; [vm_compute; set_solver|vm_compute; reflexivity]).
  - discriminate.
  - vm_compute. reflexivity.
Defined.

(** C2, as the code has it. Selecting a tab whose [aria-controls] is the id
    of no panel throws, and it throws after [reset] has run: the state left
    behind is the state [reset] leaves, with every tab deselected and out
    of the tab order ([tabIndex] -1, which the [tabindex] attribute
    reflects) and every panel hidden, and with every other attribute as it
    was: [reset] writes [aria-selected] and [tabindex] on the tabs,
    [aria-hidden] on the panels, and nothing else. What is thrown is a
    ReferenceError for [newPanelId], or the intended Error on a page that
    binds that name globally. *)
Theorem C2_reset_then_throw (s : State) (tab : NodeRef) :
  (∀ panel, panel ∈ query_role "tabpanel" s →
            attr s tab "aria-controls" ≠ Some (elem_id s panel)) →
  _selectTab (Some tab) s = (fst (reset s), Throw (missing_panel_error s)) ∧
  (∀ t, t ∈ query_role "tab" s →
        attr (fst (reset s)) t "aria-selected" = Some "false" ∧
        tabIndex <$> elements (fst (reset s)) !! t = Some (-1) ∧
        attr (fst (reset s)) t "tabindex" = Some "-1") ∧
  (∀ p, p ∈ query_role "tabpanel" s →
        attr (fst (reset s)) p "aria-hidden" = Some "true") ∧
  (∀ el n,
     ¬ (el ∈ query_role "tab" s ∧ (n = "aria-selected" ∨ n = "tabindex")) →
     ¬ (el ∈ query_role "tabpanel" s ∧ n = "aria-hidden") →
     attr (fst (reset s)) el n = attr s el n).
Proof.
  intros Hmissing%panel_for_None. rewrite reset_run. simpl.
  split_and!; auto using _selectTab_missing, reset_state_panel,
    attr_reset_frame.
  intros t Ht. destruct (reset_state_tab s t Ht) as [Hsel Hidx].
  auto using reset_state_tabindex.
Qed.

Lemma C2_reset_then_throw_witness :
  _selectTab (Some 3%nat) dangling_tab
  = (fst (reset dangling_tab), Throw (ReferenceError "newPanelId")) ∧
  attr (fst (reset dangling_tab)) 1%nat "aria-selected" = Some "false" ∧
  attr (fst (reset dangling_tab)) 1%nat "tabindex" = Some "-1".
Proof.
  assert (∀ panel, panel ∈ query_role "tabpanel" dangling_tab →
            attr dangling_tab 3%nat "aria-controls"
            ≠ Some (elem_id dangling_tab panel)) as Hmissing.
  { intros panel Hpanel. vm_compute in Hpanel.
    repeat (apply elem_of_cons in Hpanel as [->|Hpanel]);
      [vm_compute; discriminate..|by apply elem_of_nil in Hpanel]. }
  destruct (C2_reset_then_throw dangling_tab 3%nat Hmissing)
    as (Hrun & Htabs & _).
  split; [exact Hrun|].
  destruct (Htabs 1%nat) as (Hsel & _ & Hidx); [|by split].
  vm_compute. by left.
Defined.

(** C2 as stated fails: the first tab of [dangling_tab] is selected before
    the second one, which names a missing panel, is selected, and it is
    not selected after the error. *)
Lemma C2_not_atomic :
  ¬ ∃ s' e, _selectTab (Some 3%nat) dangling_tab = (s', Throw e) ∧
            elements s' = elements dangling_tab.
Proof.
  intros (s' & e & Hrun & Hsame).
  assert (attr s' 1%nat "aria-selected" = Some "false") as Hafter.
  { apply (f_equal fst) in Hrun. simpl in Hrun. subst s'.
    vm_compute. reflexivity. }
  unfold attr in Hafter. rewrite Hsame in Hafter.
  vm_compute in Hafter. discriminate.
Qed.

(** C3, as the code has it. With [n ≥ 1] tabs: when the selected tab is the
    one at index 0, [_prevTab] is the tab at index [n - 1], and if that tab
    names a panel, selectPrevious completes and leaves it the one selected
    tab, with its panel the one shown panel and the focus on it; when the
    selected tab is the one at index [n - 1], [_nextTab] is the tab at
    index 0 and selectNext does the same for that tab. If the tab wrapped
    to names no panel, the transition throws once [reset] has run, and no
    tab is selected then. *)
Theorem C3_wrap_around (s : State) (tabs : list NodeRef) (n : nat) :
  well_formed s →
  tabs = query_role "tab" s →
  n = length tabs →
  (1 ≤ n)%nat →
  (findIndex (aria_selected s) tabs = 0 →
   ∃ last, tabs !! (n - 1)%nat = Some last ∧
           _prevTab s = (s, Normal (Some last)) ∧
           (∀ panel, panel_for s last = Some panel →
              ∃ s', transition selectPrevious s = (s', Normal tt) ∧
                    selected_tabs s' = [last] ∧ shown_panels s' = [panel] ∧
                    activeElement s' = Some last) ∧
           (panel_for s last = None →
              transition selectPrevious s
              = (fst (reset s), Throw (missing_panel_error s)) ∧
              selected_tabs (fst (reset s)) = [])) ∧
  (findIndex (aria_selected s) tabs = Z.of_nat n - 1 →
   ∃ first, tabs !! 0%nat = Some first ∧
            _nextTab s = (s, Normal (Some first)) ∧
            (∀ panel, panel_for s first = Some panel →
               ∃ s', transition selectNext s = (s', Normal tt) ∧
                     selected_tabs s' = [first] ∧ shown_panels s' = [panel] ∧
                     activeElement s' = Some first) ∧
            (panel_for s first = None →
               transition selectNext s
               = (fst (reset s), Throw (missing_panel_error s)) ∧
               selected_tabs (fst (reset s)) = [])).
Proof.
  intros Hwf -> -> Hn.
  assert (∀ tab, tab ∈ query_role "tab" s →
            (∀ panel, panel_for s tab = Some panel →
               ∃ s', _selectTab (Some tab) s = (s', Normal tt) ∧
                     selected_tabs s' = [tab] ∧ shown_panels s' = [panel] ∧
                     activeElement s' = Some tab) ∧
            (panel_for s tab = None →
               _selectTab (Some tab) s
               = (fst (reset s), Throw (missing_panel_error s)) ∧
               selected_tabs (fst (reset s)) = [])) as Hselect.
  { intros tab Htab. split.
    - intros panel Hpanel. exists (select_state tab panel s).
      pose proof Hpanel as [Hin _]%panel_for_Some.
      split_and!; auto using _selectTab_found, selected_tabs_select,
        shown_panels_select.
    - intros Hnone. rewrite reset_run.
      split; [by apply _selectTab_missing|apply selected_tabs_reset]. }
  split; intros Hsel.
  - destruct (lookup_lt_is_Some_2 (query_role "tab" s)
                (length (query_role "tab" s) - 1)) as [last Hlast]; [lia|].
    exists last. split; [done|].
    assert (_prevTab s = (s, Normal (Some last))) as Hprev.
    { rewrite _prevTab_run. cbv zeta. rewrite Hsel. unfold js_rem.
      rewrite decide_False by lia. rewrite Z.rem_small by lia.
      unfold index. rewrite decide_True by lia. rewrite <- Hlast.
      do 3 f_equal. lia. }
    split; [done|]. cbn [transition]. rewrite bind_run, Hprev.
    apply Hselect. by eapply list_elem_of_lookup_2.
  - destruct (lookup_lt_is_Some_2 (query_role "tab" s) 0)
      as [first Hfirst]; [lia|].
    exists first. split; [done|].
    assert (_nextTab s = (s, Normal (Some first))) as Hnext.
    { rewrite _nextTab_run. cbv zeta. rewrite Hsel. unfold js_rem.
      rewrite decide_False by lia.
      replace (Z.of_nat (length (query_role "tab" s)) - 1 + 1)
        with (Z.of_nat (length (query_role "tab" s))) by lia.
      rewrite Z.rem_same by lia. unfold index.
      rewrite decide_True by lia. by rewrite <- Hfirst. }
    split; [done|]. cbn [transition]. rewrite bind_run, Hnext.
    apply Hselect. by eapply list_elem_of_lookup_2.
Qed.

Lemma C3_wrap_around_witness :
  (∃ s', transition selectPrevious three_tabs_attached = (s', Normal tt) ∧
         selected_tabs s' = [5%nat] ∧ shown_panels s' = [6%nat] ∧
         activeElement s' = Some 5%nat) ∧
  (∃ s', transition selectNext three_tabs_at_end = (s', Normal tt) ∧
         selected_tabs s' = [1%nat] ∧ shown_panels s' = [2%nat] ∧
         activeElement s' = Some 1%nat) ∧
  (transition selectPrevious dangling_tab
   = (fst (reset dangling_tab), Throw (missing_panel_error dangling_tab)) ∧
   selected_tabs (fst (reset dangling_tab)) = []).
Proof.
  split; [|split].
  - destruct (proj1 (C3_wrap_around three_tabs_attached [1; 3; 5]%nat 3
                       ltac:(apply (bool_decide_unpack _); vm_compute;
                             exact I)
                       ltac:(vm_compute; reflexivity) eq_refl
                       ltac:(lia))
                ltac:(vm_compute; reflexivity))
      as (last & Hlast & _ & Hfound & _).
    injection Hlast as <-. apply Hfound. vm_compute. reflexivity.
  - destruct (proj2 (C3_wrap_around three_tabs_at_end [1; 3; 5]%nat 3
                       ltac:(apply (bool_decide_unpack _); vm_compute;
                             exact I)
                       ltac:(vm_compute; reflexivity) eq_refl
                       ltac:(lia))
                ltac:(vm_compute; reflexivity))
      as (first & Hfirst & _ & Hfound & _).
    injection Hfirst as <-. apply Hfound. vm_compute. reflexivity.
  - destruct (proj1 (C3_wrap_around dangling_tab [1; 3]%nat 2
                       ltac:(apply (bool_decide_unpack _); vm_compute;
                             exact I)
                       ltac:(vm_compute; reflexivity) eq_refl
                       ltac:(lia))
                ltac:(vm_compute; reflexivity))
      as (last & Hlast & _ & _ & Hmissing).
    injection Hlast as <-. apply Hmissing. vm_compute. reflexivity.
Defined.

(** C3 as stated fails where the tab wrapped to names no panel: in
    [dangling_tab] the selected tab is the first of two, and selectPrevious
    throws and leaves no tab selected, the last one included. *)
Lemma C3_wraps_to_missing_panel :
  query_role "tab" dangling_tab = [1; 3]%nat ∧
  findIndex (aria_selected dangling_tab) (query_role "tab" dangling_tab) = 0 ∧
  snd (transition selectPrevious dangling_tab)
  = Throw (ReferenceError "newPanelId") ∧
  selected_tabs (fst (transition selectPrevious dangling_tab)) = [] ∧
  attr (fst (transition selectPrevious dangling_tab)) 3%nat "aria-selected"
  = Some "false".
Proof. vm_compute. by split_and!. Qed.

(** C4, on the code. The warning for a tab without an id reads the
    identifier [panelId], which is not in scope in [connectedCallback]: on
    [missing_id], whose first tab has no id, attaching throws a
    ReferenceError out of the labelling loop before anything is logged.
    The second tab's panel is left without [aria-labelledby], no tab is
    selected, no panel is hidden and the focus is not moved. *)
Theorem C4_missing_id_aborts :
  snd (connectedCallback missing_id) = Throw (ReferenceError "panelId") ∧
  console (fst (connectedCallback missing_id)) = [] ∧
  attr (fst (connectedCallback missing_id)) 4%nat "aria-labelledby" = None ∧
  selected_tabs (fst (connectedCallback missing_id)) = [] ∧
  attr (fst (connectedCallback missing_id)) 2%nat "aria-hidden" = None ∧
  attr (fst (connectedCallback missing_id)) 4%nat "aria-hidden" = None ∧
  activeElement (fst (connectedCallback missing_id)) = None.
Proof. vm_compute. by split_and!. Qed.

(** C5, on the code. [_onClick] tests that the target's role is a
    non-empty string, not that it is the string tab: a click on the first
    panel of the connected [three_tabs] runs [_selectTab] on the panel,
    which resets the container and then throws, so that the tab that was
    selected and the panel that was shown no longer are. *)
Theorem C5_click_on_panel :
  attr three_tabs_attached 2%nat "role" = Some "tabpanel" ∧
  selected_tabs three_tabs_attached = [1%nat] ∧
  shown_panels three_tabs_attached = [2%nat] ∧
  _onClick (click 2) three_tabs_attached
  = (fst (reset three_tabs_attached), Throw (ReferenceError "newPanelId")) ∧
  selected_tabs (fst (_onClick (click 2) three_tabs_attached)) = [] ∧
  shown_panels (fst (_onClick (click 2) three_tabs_attached)) = [].
Proof. vm_compute. by split_and!. Qed.

(** C6, on the code. [_onKeyDown] calls [preventDefault] before it looks at
    the target or at the key: on the connected [three_tabs], the letter A
    pressed on a tab and the left arrow pressed on a panel change nothing
    in the document, and both events are canceled. *)
Theorem C6_every_key_canceled :
  canceled three_tabs_attached = false ∧
  key_transition 65 = None ∧
  _onKeyDown (keydown 1 65) three_tabs_attached
  = (with_canceled true three_tabs_attached, Normal tt) ∧
  attr three_tabs_attached 2%nat "role" = Some "tabpanel" ∧
  _onKeyDown (keydown 2 KEYCODE.LEFT) three_tabs_attached
  = (with_canceled true three_tabs_attached, Normal tt).
Proof. vm_compute. by split_and!. Qed.

(** C7, as the code has it. Attaching a container without tabs registers
    the two listeners and sets the role of the element to tablist, and
    stops there: it completes, the element is otherwise as it was, the tree
    and the focus are as they were, no descendant has an attribute or a
    [tabIndex] changed, so that no tab is selected and every panel has the
    [aria-hidden] it had. *)
Theorem C7_empty_container (s : State) :
  well_formed s →
  query_role "tab" s = [] →
  ∃ s', connectedCallback s = (s', Normal tt) ∧
        ("keydown", OnKeyDown) ∈ listeners s' ∧
        ("click", OnClick) ∈ listeners s' ∧
        elements s' !! ref (this s)
        = set_attr "role" "tablist" <$> elements s !! ref (this s) ∧
        (is_Some (elements s !! ref (this s)) →
         attr s' (ref (this s)) "role" = Some "tablist") ∧
        this s' = this s ∧
        activeElement s' = activeElement s ∧
        (∀ el, el ∈ descendants (this s) →
               elements s' !! el = elements s !! el) ∧
        selected_tabs s' = [] ∧
        (∀ panel, panel ∈ query_role "tabpanel" s →
                  attr s' panel "aria-hidden" = attr s panel "aria-hidden").
Proof.
  intros Hwf Htabs. exists (attached_host s).
  pose proof Hwf as [Hhost _]%NoDup_cons.
  assert (∀ el, el ∈ descendants (this s) →
                elements (attached_host s) !! el = elements s !! el) as Hel.
  { intros el Hel. unfold attached_host. simpl.
    rewrite lookup_alter_ne, !elements_add_listener; [done|].
    intros ?; by subst. }
  split_and!.
  - rewrite connectedCallback_run. cbv zeta.
    rewrite (query_role_attached_host _ _ Hwf), Htabs.
    by rewrite decide_True.
  - unfold attached_host. simpl.
    apply add_listener_mono, add_listener_elem_of.
  - unfold attached_host. simpl. apply add_listener_elem_of.
  - unfold attached_host. simpl.
    by rewrite lookup_alter_eq, !elements_add_listener.
  - intros [e He]. unfold attached_host, attr. simpl.
    rewrite lookup_alter_eq, !elements_add_listener, He. simpl.
    by rewrite lookup_insert_eq.
  - unfold attached_host. simpl. by rewrite !this_add_listener.
  - unfold attached_host, add_listener. simpl. by repeat case_decide.
  - done.
  - unfold selected_tabs.
    by rewrite (query_role_attached_host _ _ Hwf), Htabs.
  - intros panel [Hpanel _]%query_role_elem_of. unfold attr.
    by rewrite Hel.
Qed.

Lemma C7_empty_container_witness :
  ∃ s', connectedCallback no_tabs = (s', Normal tt) ∧
        ("keydown", OnKeyDown) ∈ listeners s' ∧
        ("click", OnClick) ∈ listeners s' ∧
        attr s' 0%nat "role" = Some "tablist" ∧
        this s' = this no_tabs ∧
        activeElement s' = activeElement no_tabs ∧
        (∀ el, el ∈ descendants (this no_tabs) →
               elements s' !! el = elements no_tabs !! el) ∧
        selected_tabs s' = [] ∧
        (∀ panel, panel ∈ query_role "tabpanel" no_tabs →
                  attr s' panel "aria-hidden"
                  = attr no_tabs panel "aria-hidden").
Proof.
  destruct (C7_empty_container no_tabs) as (s' & Hrun & Hkey & Hclick & _
    & Hrole & Hrest).
  - apply (bool_decide_unpack _). vm_compute. exact I.
  - vm_compute. reflexivity.
  - exists s'. split; [exact Hrun|]. split; [exact Hkey|].
    split; [exact Hclick|]. split; [|exact Hrest].
    apply Hrole. vm_compute. by eexists.
Defined.

(** C7 as stated fails: a container without tabs has no listeners before
    it is attached and both of them after, and it is not inert: the click
    listener, run for a click on the lone panel, hides the panel. *)
Lemma C7_listeners_attached :
  query_role "tab" no_tabs = [] ∧
  listeners no_tabs = [] ∧
  listeners (fst (connectedCallback no_tabs))
  = [("keydown", OnKeyDown); ("click", OnClick)] ∧
  ¬ listeners (fst (connectedCallback no_tabs)) = listeners no_tabs ∧
  attr (fst (connectedCallback no_tabs)) 2%nat "aria-hidden" = None ∧
  attr (fst (_onClick (click 2) (fst (connectedCallback no_tabs))))
       2%nat "aria-hidden" = Some "true".
Proof. vm_compute. by split_and!. Qed.



(** The two cases of the initial selection, run. *)
Example initial_selection_marked :
  first_marked_or_first two_marked = Some 3%nat ∧
  snd (connectedCallback two_marked) = Normal tt ∧
  selected_tabs (fst (connectedCallback two_marked)) = [3%nat].
Proof. vm_compute. by split_and!. Qed.

Example initial_selection_unmarked :
  first_marked_or_first three_tabs = Some 1%nat ∧
  snd (connectedCallback three_tabs) = Normal tt ∧
  selected_tabs (fst (connectedCallback three_tabs)) = [1%nat].
Proof. vm_compute. by split_and!. Qed.

(** C9, as the code has it. When at most one panel carries the id a tab's
    [aria-controls] names, the panel [_panelForTab] finds for the tab is
    the same in any two documents that hold the same elements with the
    panels in a different order; and so is, in well-formed documents, the
    list of panels shown after the tab is selected. *)
Theorem C9_panel_order_irrelevant (s s' : State) (tab : NodeRef) :
  elements s' = elements s →
  query_role "tabpanel" s' ≡ₚ query_role "tabpanel" s →
  (∀ p q, p ∈ query_role "tabpanel" s → q ∈ query_role "tabpanel" s →
          attr s tab "aria-controls" = Some (elem_id s p) →
          attr s tab "aria-controls" = Some (elem_id s q) → p = q) →
  snd (_panelForTab (Some tab) s') = snd (_panelForTab (Some tab) s) ∧
  (well_formed s → well_formed s' →
   shown_panels (fst (_selectTab (Some tab) s'))
   = shown_panels (fst (_selectTab (Some tab) s))).
Proof.
  intros Hel Hperm Huniq.
  assert (∀ el n, attr s' el n = attr s el n) as Hattr.
  { intros. unfold attr. by rewrite Hel. }
  assert (panel_for s' tab = panel_for s tab) as Hsame.
  { unfold panel_for. rewrite Hattr.
    rewrite (list_find_ext_find s s' tab) by done.
    apply find_Permutation_unique; [done|].
    intros p q Hp Hq Hidp Hidq. by apply Huniq. }
  rewrite !_panelForTab_run. simpl. split; [by rewrite Hsame|].
  intros Hwf Hwf'. destruct (panel_for s tab) as [panel|] eqn:Hfor.
  - rewrite (_selectTab_found _ _ _ Hsame), (_selectTab_found _ _ _ Hfor).
    simpl. apply panel_for_Some in Hfor as [Hpanel _].
    rewrite !shown_panels_select; by rewrite ?Hperm.
  - rewrite (_selectTab_missing _ _ Hsame), (_selectTab_missing _ _ Hfor).
    simpl. by rewrite !shown_panels_reset.
Qed.

Lemma C9_panel_order_irrelevant_witness :
  snd (_panelForTab (Some 3%nat) three_tabs_shuffled)
  = snd (_panelForTab (Some 3%nat) three_tabs_attached) ∧
  snd (_panelForTab (Some 3%nat) three_tabs_attached) = Normal (Some 4%nat).
Proof.
  split; [|vm_compute; reflexivity].
  refine (proj1 (C9_panel_order_irrelevant three_tabs_attached
                   three_tabs_shuffled 3%nat _ _ _)).
  - reflexivity.
  - apply (bool_decide_unpack _). vm_compute. exact I.
  - intros p q Hp Hq. vm_compute in Hp, Hq.
    repeat (apply elem_of_cons in Hp as [->|Hp]);
      try (by apply elem_of_nil in Hp);
      repeat (apply elem_of_cons in Hq as [->|Hq]);
      try (by apply elem_of_nil in Hq);
      vm_compute; congruence.
Defined.

(** C9 as stated fails: [twin_panels] and [twin_panels_swapped] hold the
    same elements, the panels of the one are the panels of the other in
    another order, and the tab is paired with a different panel in each. *)
Lemma C9_duplicate_ids :
  elements twin_panels_swapped = elements twin_panels ∧
  query_role "tab" twin_panels_swapped = query_role "tab" twin_panels ∧
  query_role "tabpanel" twin_panels_swapped
    ≡ₚ query_role "tabpanel" twin_panels ∧
  snd (_panelForTab (Some 1%nat) twin_panels) = Normal (Some 2%nat) ∧
  snd (_panelForTab (Some 1%nat) twin_panels_swapped) = Normal (Some 3%nat) ∧
  snd (_panelForTab (Some 1%nat) twin_panels_swapped)
  ≠ snd (_panelForTab (Some 1%nat) twin_panels).
Proof.
  split_and!; try (vm_compute; reflexivity).
  - apply (bool_decide_unpack _). vm_compute. exact I.
  - vm_compute. discriminate.
Qed.

(** C10. Selecting a tab whose [aria-controls] is the id of a panel
    completes, and selecting it once more completes and leaves the state
    the first selection left: every attribute and every [tabIndex] of every
    element, and the focus with them. *)
Theorem C10_select_twice (s : State) (tab : NodeRef) :
  (∃ panel, panel ∈ query_role "tabpanel" s ∧
            attr s tab "aria-controls" = Some (elem_id s panel)) →
  ∃ s', _selectTab (Some tab) s = (s', Normal tt) ∧
        _selectTab (Some tab) s' = (s', Normal tt).
Proof.
  intros (panel0 & Hpanel0 & Hctl).
  destruct (panel_for_is_Some _ _ _ Hpanel0 Hctl) as [panel Hpanel].
  exists (select_state tab panel s).
  split; [by apply _selectTab_found|].
  rewrite (_selectTab_found _ tab panel) by by rewrite panel_for_select.
  by rewrite select_state_idemp.
Qed.

Lemma C10_select_twice_witness :
  ∃ s', _selectTab (Some 3%nat) three_tabs_attached = (s', Normal tt) ∧
        _selectTab (Some 3%nat) s' = (s', Normal tt).
Proof.
  apply C10_select_twice. exists 4%nat.
  split; [vm_compute; set_solver|vm_compute; reflexivity].
Defined.

(** * Further properties of the element *)

(** ** [reset] and [_selectTab] *)

Section Selecting.
Implicit Types (s : State) (tab panel el : NodeRef) (e : Element).

Lemma reset_at_idemp s el e :
  reset_at (reset_state s) el (reset_at s el e) = reset_at s el e.
Proof.
  unfold reset_at. rewrite !query_role_reset.
  unfold hidden, deselected, set_attr, set_tabIndex.
  repeat case_decide; apply Element_eq; simpl; try done;
    apply map_eq; intros k;
    (destruct (decide (k = "aria-selected")) as [->|];
      [by simplify_map_eq|]);
    (destruct (decide (k = "tabindex")) as [->|];
      [by simplify_map_eq|]);
    (destruct (decide (k = "aria-hidden")) as [->|];
      by simplify_map_eq).
Qed.

Lemma reset_state_idemp s : reset_state (reset_state s) = reset_state s.
Proof.
  apply State_eq; try (by rewrite (reset_state_store (reset_state s))).
  apply map_eq. intros el. rewrite elements_reset, (elements_reset s).
  destruct (elements s !! el) as [e|]; simpl; [|done].
  by rewrite reset_at_idemp.
Qed.

(** The state a selection ends in, whatever it is asked to select. *)
Lemma _selectTab_state newTab s :
  fst (_selectTab newTab s) = reset_state s ∨
  ∃ tab panel, newTab = Some tab ∧ panel_for s tab = Some panel ∧
               _selectTab newTab s = (select_state tab panel s, Normal tt).
Proof.
  destruct newTab as [tab|].
  - destruct (panel_for s tab) as [panel|] eqn:Hpanel.
    + right. exists tab, panel. eauto using _selectTab_found.
    + left. by rewrite (_selectTab_missing _ _ Hpanel).
  - left. by destruct (_selectTab_undefined s) as [msg ->].
Qed.

Lemma select_state_untouched tab panel s el :
  el ∉ query_role "tab" s → el ∉ query_role "tabpanel" s → el ≠ tab →
  el ≠ panel →
  elements (select_state tab panel s) !! el = elements s !! el.
Proof.
  intros Htabs Hpanels Htab Hpanel. rewrite elements_select.
  destruct (elements s !! el) as [e|] eqn:He; simpl; [|done]. f_equal.
  unfold select_at, reset_at.
  rewrite (decide_False (P := el = tab)) by done.
  rewrite (decide_False (P := el ∈ query_role "tab" s)) by done.
  rewrite (decide_False (P := el ∈ query_role "tabpanel" s)) by done.
  by rewrite (decide_False (P := el = panel)) by done.
Qed.

Lemma reset_state_untouched s el :
  el ∉ query_role "tab" s → el ∉ query_role "tabpanel" s →
  elements (reset_state s) !! el = elements s !! el.
Proof.
  intros Htabs Hpanels. rewrite elements_reset. unfold reset_at.
  rewrite (decide_False (P := el ∈ query_role "tab" s)) by done.
  rewrite (decide_False (P := el ∈ query_role "tabpanel" s)) by done.
  by destruct (elements s !! el).
Qed.

(** What a selection leaves in one element, attribute by attribute. *)
Lemma select_at_aria_selected tab panel s el e :
  attributes (select_at tab panel s el e) !! "aria-selected" =
  if decide (el = tab) then Some "true"
  else if decide (el ∈ query_role "tab" s) then Some "false"
  else attributes e !! "aria-selected".
Proof.
  unfold select_at, reset_at, selected, shown, hidden, deselected.
  repeat case_decide; simpl; by simplify_map_eq.
Qed.

Lemma select_at_aria_hidden tab panel s el e :
  attributes (select_at tab panel s el e) !! "aria-hidden" =
  if decide (el = panel) then Some "false"
  else if decide (el ∈ query_role "tabpanel" s) then Some "true"
  else attributes e !! "aria-hidden".
Proof.
  unfold select_at, reset_at, selected, shown, hidden, deselected.
  repeat case_decide; simpl; by simplify_map_eq.
Qed.

Lemma select_at_tabIndex tab panel s el e :
  tabIndex (select_at tab panel s el e) =
  if decide (el = tab) then 0
  else if decide (el ∈ query_role "tab" s) then -1
  else tabIndex e.
Proof.
  unfold select_at, reset_at, selected, shown, hidden, deselected.
  by repeat case_decide.
Qed.

Lemma select_at_tabindex tab panel s el e :
  attributes (select_at tab panel s el e) !! "tabindex" =
  if decide (el = tab) then Some "0"
  else if decide (el ∈ query_role "tab" s) then Some "-1"
  else attributes e !! "tabindex".
Proof.
  unfold select_at, reset_at, selected, shown, hidden, deselected.
  repeat case_decide; simpl; by simplify_map_eq.
Qed.

(** A selection overwrites what an earlier selection of a tab wrote. *)
Lemma select_at_absorbs tab panel before panel0 s el e :
  before ∈ query_role "tab" s → panel0 ∈ query_role "tabpanel" s →
  select_at tab panel (select_state before panel0 s) el
    (select_at before panel0 s el e)
  = select_at tab panel s el e.
Proof.
  intros Hbefore Hpanel0. apply Element_eq.
  - apply map_eq. intros k.
    destruct (decide (k = "aria-selected")) as [->|Hsel].
    { rewrite !select_at_aria_selected, query_role_select.
      repeat case_decide; by subst. }
    destruct (decide (k = "aria-hidden")) as [->|Hhid].
    { rewrite !select_at_aria_hidden, query_role_select.
      repeat case_decide; by subst. }
    destruct (decide (k = "tabindex")) as [->|Hidx].
    { rewrite !select_at_tabindex, query_role_select.
      repeat case_decide; by subst. }
    by rewrite !attributes_select_at.
  - rewrite !select_at_tabIndex, query_role_select.
    repeat case_decide; by subst.
Qed.

(** What a selection writes, element by element: [aria-selected] and
    [tabindex] on the tabs and on the element selected, [aria-hidden] on
    the panels and on the panel shown. *)
Lemma attr_select_frame tab panel s el n :
  ¬ ((el ∈ query_role "tab" s ∨ el = tab)
     ∧ (n = "aria-selected" ∨ n = "tabindex")) →
  ¬ ((el ∈ query_role "tabpanel" s ∨ el = panel) ∧ n = "aria-hidden") →
  attr (select_state tab panel s) el n = attr s el n.
Proof.
  intros Htab Hpanel. unfold attr. rewrite elements_select.
  destruct (elements s !! el) as [e|]; simpl; [|done].
  destruct (decide (n = "aria-selected")) as [->|Hsel].
  { rewrite select_at_aria_selected. repeat case_decide; tauto. }
  destruct (decide (n = "aria-hidden")) as [->|Hhid].
  { rewrite select_at_aria_hidden. repeat case_decide; tauto. }
  destruct (decide (n = "tabindex")) as [->|Hidx].
  { rewrite select_at_tabindex. repeat case_decide; tauto. }
  by apply attributes_select_at.
Qed.

(** A selection keeps the listeners, the globals, the console and the
    canceled flag. *)
Lemma select_state_rest tab panel s :
  listeners (select_state tab panel s) = listeners s ∧
  globals (select_state tab panel s) = globals s ∧
  console (select_state tab panel s) = console s ∧
  canceled (select_state tab panel s) = canceled s.
Proof.
  unfold select_state. simpl. by rewrite (reset_state_store s).
Qed.

Lemma select_state_absorbs tab panel before panel0 s :
  before ∈ query_role "tab" s → panel0 ∈ query_role "tabpanel" s →
  select_state tab panel (select_state before panel0 s)
  = select_state tab panel s.
Proof.
  intros Hbefore Hpanel0.
  destruct (select_state_rest tab panel (select_state before panel0 s))
    as (Hl1 & Hg1 & Hc1 & Hd1).
  destruct (select_state_rest before panel0 s) as (Hl0 & Hg0 & Hc0 & Hd0).
  destruct (select_state_rest tab panel s) as (Hl & Hg & Hc & Hd).
  apply State_eq; [|..|congruence|congruence|congruence|congruence].
  - by rewrite !this_select.
  - apply map_eq. intros el. rewrite elements_select.
    rewrite (elements_select before panel0 s), (elements_select tab panel s).
    destruct (elements s !! el) as [e|]; simpl; [|done].
    by rewrite select_at_absorbs.
  - done.
Qed.

End Selecting.

(** X1. [reset] completes; it leaves no tab selected, no panel shown and
    every tab out of the tab order, and a second [reset] changes nothing. *)
Theorem reset_clears_and_settles (s : State) :
  ∃ s', reset s = (s', Normal tt) ∧
        selected_tabs s' = [] ∧ shown_panels s' = [] ∧
        (∀ tab, tab ∈ query_role "tab" s' →
                tabIndex <$> elements s' !! tab = Some (-1)) ∧
        reset s' = (s', Normal tt).
Proof.
  exists (reset_state s). split_and!.
  - apply reset_run.
  - apply selected_tabs_reset.
  - apply shown_panels_reset.
  - intros tab. rewrite query_role_reset. apply reset_state_tab.
  - by rewrite reset_run, reset_state_idemp.
Qed.

(** X2. After a tab of the container is selected, it is the one tab in the
    tab order and it has the focus: its [tabIndex] is 0 and that of every
    other tab is -1. *)
Theorem selected_tab_alone_in_tab_order (s s' : State) (tab : NodeRef) :
  tab ∈ query_role "tab" s →
  _selectTab (Some tab) s = (s', Normal tt) →
  tabIndex <$> elements s' !! tab = Some 0 ∧
  (∀ t, t ∈ query_role "tab" s' → t ≠ tab →
        tabIndex <$> elements s' !! t = Some (-1)) ∧
  activeElement s' = Some tab.
Proof.
  intros Htab Hrun. destruct (panel_for s tab) as [panel|] eqn:Hpanel.
  2: { by rewrite (_selectTab_missing _ _ Hpanel) in Hrun. }
  rewrite (_selectTab_found _ _ _ Hpanel) in Hrun. injection Hrun as <-.
  split_and!; [| |done].
  - destruct (query_role_element _ _ _ Htab) as [e He].
    rewrite elements_select, He. simpl. unfold select_at.
    by rewrite (decide_True (P := tab = tab)).
  - intros t Ht Hne. rewrite query_role_select in Ht.
    destruct (query_role_element _ _ _ Ht) as [e He].
    rewrite elements_select, He. simpl. unfold select_at, reset_at.
    rewrite (decide_False (P := t = tab)) by done.
    rewrite (decide_True (P := t ∈ query_role "tab" s)) by done.
    by repeat case_decide.
Qed.

Lemma selected_tab_alone_in_tab_order_witness :
  tabIndex <$> elements (fst (_selectTab (Some 3%nat) three_tabs_attached))
               !! 3%nat = Some 0 ∧
  (∀ t, t ∈ query_role "tab"
              (fst (_selectTab (Some 3%nat) three_tabs_attached)) →
        t ≠ 3%nat →
        tabIndex <$> elements
                       (fst (_selectTab (Some 3%nat) three_tabs_attached))
                     !! t = Some (-1)) ∧
  activeElement (fst (_selectTab (Some 3%nat) three_tabs_attached))
  = Some 3%nat.
Proof.
  apply (selected_tab_alone_in_tab_order three_tabs_attached).
  - vm_compute. set_solver.
  - vm_compute. reflexivity.
Defined.

(** X3. Whatever [_selectTab] is given and however it ends, it writes
    nothing but [aria-selected], [aria-hidden], [tabIndex] with the
    [tabindex] attribute that reflects it, and the focus: the tree, the
    listeners and the console are as they were; [aria-selected] and
    [tabindex] are written on tabs and on the element to select only,
    [aria-hidden] on panels only, and every other attribute of every
    element is as it was, so the tabs and the panels of the container are
    the same; an element that is neither a tab, nor a panel, nor the
    element to select is not written at all. *)
Theorem _selectTab_frame (newTab : option NodeRef) (s : State) :
  let s' := fst (_selectTab newTab s) in
  this s' = this s ∧ listeners s' = listeners s ∧
  globals s' = globals s ∧ console s' = console s ∧
  canceled s' = canceled s ∧
  (∀ el n, n ≠ "aria-selected" → n ≠ "aria-hidden" → n ≠ "tabindex" →
           attr s' el n = attr s el n) ∧
  (∀ el n, ¬ ((el ∈ query_role "tab" s ∨ Some el = newTab)
              ∧ (n = "aria-selected" ∨ n = "tabindex")) →
           ¬ (el ∈ query_role "tabpanel" s ∧ n = "aria-hidden") →
           attr s' el n = attr s el n) ∧
  (∀ r, query_role r s' = query_role r s) ∧
  (∀ el, el ∉ query_role "tab" s → el ∉ query_role "tabpanel" s →
         Some el ≠ newTab → elements s' !! el = elements s !! el).
Proof.
  cbv zeta.
  destruct (_selectTab_state newTab s)
    as [->|(tab & panel & -> & Hpanel & ->)].
  - split_and!; try (by rewrite reset_state_store);
      auto using attr_reset, query_role_reset, reset_state_untouched.
    intros el n Htab Hpan. apply attr_reset_frame; tauto.
  - cbn [fst]. apply panel_for_Some in Hpanel as [Hpanel _].
    destruct (select_state_rest tab panel s) as (? & ? & ? & ?).
    split_and!; auto using attr_select, query_role_select, this_select.
    + intros el n Htab Hpan. apply attr_select_frame.
      * intros [[?| ->] ?]; apply Htab; auto.
      * intros [[?| ->] ?]; apply Hpan; auto.
    + intros el Htabs Hpanels Hne. apply select_state_untouched; try done.
      * intros ->. by destruct Hne.
      * by intros ->.
Qed.

(** X4. The last selection wins: selecting a tab after another tab of the
    container was selected ends in the very state that selecting it
    directly ends in. *)
Theorem last_selection_wins (s : State) (before tab : NodeRef) :
  before ∈ query_role "tab" s →
  is_Some (panel_for s before) →
  is_Some (panel_for s tab) →
  ∃ s1 s2, _selectTab (Some before) s = (s1, Normal tt) ∧
           _selectTab (Some tab) s1 = (s2, Normal tt) ∧
           _selectTab (Some tab) s = (s2, Normal tt).
Proof.
  intros Hbefore [panel0 Hpanel0] [panel Hpanel].
  exists (select_state before panel0 s), (select_state tab panel s).
  split_and!; [by apply _selectTab_found| |by apply _selectTab_found].
  rewrite (_selectTab_found _ tab panel) by by rewrite panel_for_select.
  apply panel_for_Some in Hpanel0 as [Hpanel0 _].
  by rewrite select_state_absorbs.
Qed.

Lemma last_selection_wins_witness :
  ∃ s1 s2, _selectTab (Some 5%nat) three_tabs_attached = (s1, Normal tt) ∧
           _selectTab (Some 3%nat) s1 = (s2, Normal tt) ∧
           _selectTab (Some 3%nat) three_tabs_attached = (s2, Normal tt).
Proof.
  apply last_selection_wins.
  - vm_compute. set_solver.
  - vm_compute. by eexists.
  - vm_compute. by eexists.
Defined.

(** ** Moving along the tabs *)

Section Moving.
Implicit Types (s : State) (tab panel el : NodeRef) (event : Event).

Lemma findIndex_unique {A} (P : A → Prop) `{!∀ x, Decision (P x)}
    (l : list A) (x : A) (i : nat) :
  NoDup l → filter P l = [x] → l !! i = Some x →
  findIndex P l = Z.of_nat i.
Proof.
  intros Hnd Hfilter Hi.
  assert (P x) as HPx.
  { assert (x ∈ filter P l) as Hx by (rewrite Hfilter; by left).
    by apply list_elem_of_filter in Hx as [? _]. }
  unfold findIndex. rewrite (proj2 (list_find_Some P l i x)); [done|].
  split_and!; [done..|]. intros j y Hj Hlt HPy.
  assert (y ∈ filter P l) as Hy.
  { apply list_elem_of_filter. eauto using list_elem_of_lookup_2. }
  rewrite Hfilter in Hy. apply list_elem_of_singleton in Hy as ->.
  pose proof (NoDup_lookup _ _ _ _ Hnd Hj Hi). lia.
Qed.

Lemma findIndex_none {A} (P : A → Prop) `{!∀ x, Decision (P x)}
    (l : list A) :
  filter P l = [] → findIndex P l = -1.
Proof.
  intros Hfilter. unfold findIndex.
  rewrite (proj2 (list_find_None P l)); [done|].
  apply Forall_forall. intros x Hx HPx.
  assert (x ∈ filter P l) as Hin by (by apply list_elem_of_filter).
  rewrite Hfilter in Hin. by apply elem_of_nil in Hin.
Qed.

(** [preventDefault] writes the canceled flag and nothing else. *)
Lemma prevent_with_canceled event s :
  ∃ b, prevent event s = with_canceled b s.
Proof.
  unfold prevent. destruct (cancelable event); [by exists true|].
  exists (canceled s). by destruct s.
Qed.

Lemma select_state_controls_resolve tab panel s :
  controls_resolve s → controls_resolve (select_state tab panel s).
Proof.
  intros Hres t. rewrite !query_role_select. intros Ht.
  destruct (Hres t Ht) as (p & Hp & Hctl). exists p.
  unfold elem_id. by rewrite !attr_select.
Qed.

Lemma select_state_well_formed tab panel s :
  well_formed s → well_formed (select_state tab panel s).
Proof. unfold well_formed. by rewrite this_select. Qed.

(** Selecting a tab of a paired container, with all that it keeps. *)
Lemma _selectTab_keeps s tab :
  well_formed s → controls_resolve s → tab ∈ query_role "tab" s →
  ∃ s', _selectTab (Some tab) s = (s', Normal tt) ∧
        selected_tabs s' = [tab] ∧ exactly_one_selected s' ∧
        well_formed s' ∧ controls_resolve s' ∧
        ∀ r, query_role r s' = query_role r s.
Proof.
  intros Hwf Hres Htab.
  destruct (controls_resolve_rearranged s s tab) as [panel Hpanel];
    auto using rearranged_refl.
  exists (select_state tab panel s).
  split_and!; auto using _selectTab_found, select_state_invariant,
    selected_tabs_select, select_state_well_formed,
    select_state_controls_resolve, query_role_select.
Qed.

(** The arrows, from the one selected tab. *)
Lemma step_from_selected s tab (i : nat) :
  well_formed s → controls_resolve s →
  selected_tabs s = [tab] → query_role "tab" s !! i = Some tab →
  let n := Z.of_nat (length (query_role "tab" s)) in
  (∃ next, query_role "tab" s !! Z.to_nat ((Z.of_nat i + 1) `mod` n)
           = Some next ∧
           _nextTab s = (s, Normal (Some next))) ∧
  (∃ prev, query_role "tab" s !! Z.to_nat ((Z.of_nat i - 1) `mod` n)
           = Some prev ∧
           _prevTab s = (s, Normal (Some prev))).
Proof.
  intros Hwf Hres Hsel Hi n.
  pose proof (lookup_lt_Some _ _ _ Hi) as Hlt.
  assert (findIndex (aria_selected s) (query_role "tab" s) = Z.of_nat i)
    as Hfind by eauto using findIndex_unique, query_role_NoDup.
  assert (0 < n) as Hn by (unfold n; lia).
  split.
  - destruct (lookup_lt_is_Some_2 (query_role "tab" s)
                (Z.to_nat ((Z.of_nat i + 1) `mod` n))) as [next Hnext].
    { pose proof (Z.mod_pos_bound (Z.of_nat i + 1) n Hn). lia. }
    exists next. split; [done|].
    rewrite _nextTab_run. cbv zeta. rewrite Hfind. fold n. unfold js_rem.
    rewrite decide_False by lia.
    rewrite Z.rem_mod_nonneg by lia. unfold index.
    rewrite decide_True by (apply Z.mod_pos_bound; lia).
    by rewrite Hnext.
  - destruct (lookup_lt_is_Some_2 (query_role "tab" s)
                (Z.to_nat ((Z.of_nat i - 1) `mod` n))) as [prev Hprev].
    { pose proof (Z.mod_pos_bound (Z.of_nat i - 1) n Hn). lia. }
    exists prev. split; [done|].
    rewrite _prevTab_run. cbv zeta. rewrite Hfind. fold n. unfold js_rem.
    rewrite decide_False by lia.
    rewrite Z.rem_mod_nonneg by lia.
    replace (Z.of_nat i - 1 + n) with (Z.of_nat i - 1 + 1 * n) by lia.
    rewrite Z.mod_add by lia. unfold index.
    rewrite decide_True by (apply Z.mod_pos_bound; lia).
    by rewrite Hprev.
Qed.

Lemma next_transition s tab (i : nat) :
  well_formed s → controls_resolve s →
  selected_tabs s = [tab] → query_role "tab" s !! i = Some tab →
  ∃ s' next,
    transition selectNext s = (s', Normal tt) ∧
    query_role "tab" s
      !! Z.to_nat ((Z.of_nat i + 1)
                   `mod` Z.of_nat (length (query_role "tab" s)))
    = Some next ∧
    selected_tabs s' = [next] ∧ exactly_one_selected s' ∧
    well_formed s' ∧ controls_resolve s' ∧
    ∀ r, query_role r s' = query_role r s.
Proof.
  intros Hwf Hres Hsel Hi.
  destruct (step_from_selected s tab i Hwf Hres Hsel Hi)
    as [(next & Hnext & Hrun) _].
  destruct (_selectTab_keeps s next Hwf Hres) as (s' & Hs' & Hrest);
    [by eapply list_elem_of_lookup_2|].
  exists s', next. cbn [transition]. by rewrite bind_run, Hrun.
Qed.

Lemma prev_transition s tab (i : nat) :
  well_formed s → controls_resolve s →
  selected_tabs s = [tab] → query_role "tab" s !! i = Some tab →
  ∃ s' prev,
    transition selectPrevious s = (s', Normal tt) ∧
    query_role "tab" s
      !! Z.to_nat ((Z.of_nat i - 1)
                   `mod` Z.of_nat (length (query_role "tab" s)))
    = Some prev ∧
    selected_tabs s' = [prev] ∧ exactly_one_selected s' ∧
    well_formed s' ∧ controls_resolve s' ∧
    ∀ r, query_role r s' = query_role r s.
Proof.
  intros Hwf Hres Hsel Hi.
  destruct (step_from_selected s tab i Hwf Hres Hsel Hi)
    as [_ (prev & Hprev & Hrun)].
  destruct (_selectTab_keeps s prev Hwf Hres) as (s' & Hs' & Hrest);
    [by eapply list_elem_of_lookup_2|].
  exists s', prev. cbn [transition]. by rewrite bind_run, Hrun.
Qed.

(** A key pressed on a tab without Alt runs the transition of the key, in
    the state that [preventDefault] leaves. *)
Lemma _onKeyDown_on_tab event s t :
  target event ∈ query_role "tab" s → altKey event = false →
  key_transition (keyCode event) = Some t →
  ∃ b, _onKeyDown event s = transition t (with_canceled b s).
Proof.
  intros [_ Hrole]%query_role_elem_of Halt Hkey.
  destruct (prevent_with_canceled event s) as [b Hb]. exists b.
  rewrite _onKeyDown_run, decide_True, Hkey by done. by rewrite Hb.
Qed.

(** Pairing can be checked tab by tab. *)
Lemma controls_resolve_Forall s :
  Forall (λ tab, is_Some (panel_for s tab)) (query_role "tab" s) →
  controls_resolve s.
Proof.
  rewrite Forall_forall. intros Hall tab Htab.
  destruct (Hall tab Htab) as [panel Hpanel%panel_for_Some]. eauto.
Qed.

End Moving.

Ltac by_evaluation := apply (bool_decide_unpack _); vm_compute; exact I.
Ltac paired_by_evaluation := apply controls_resolve_Forall; by_evaluation.

(** X5. In a paired container with one selected tab, at index [i] of [n]
    tabs, the right and down arrows pressed on any tab select the tab at
    index [(i + 1) mod n], and the left and up arrows the one at
    [(i - 1) mod n]: the step is taken from the selected tab, not from the
    tab the key was pressed on. *)
Theorem arrow_keys_step (s : State) (event : Event) (tab : NodeRef)
    (i : nat) :
  well_formed s → controls_resolve s →
  selected_tabs s = [tab] → query_role "tab" s !! i = Some tab →
  target event ∈ query_role "tab" s → altKey event = false →
  let tabs := query_role "tab" s in
  let n := Z.of_nat (length tabs) in
  (keyCode event = KEYCODE.RIGHT ∨ keyCode event = KEYCODE.DOWN →
   ∃ s' next, _onKeyDown event s = (s', Normal tt) ∧
              tabs !! Z.to_nat ((Z.of_nat i + 1) `mod` n) = Some next ∧
              selected_tabs s' = [next]) ∧
  (keyCode event = KEYCODE.LEFT ∨ keyCode event = KEYCODE.UP →
   ∃ s' prev, _onKeyDown event s = (s', Normal tt) ∧
              tabs !! Z.to_nat ((Z.of_nat i - 1) `mod` n) = Some prev ∧
              selected_tabs s' = [prev]).
Proof.
  intros Hwf Hres Hsel Hi Htarget Halt tabs n. split; intros Hkey.
  - destruct (_onKeyDown_on_tab event s selectNext) as [b ->]; [done..| |].
    { unfold key_transition, KEYCODE.LEFT, KEYCODE.UP, KEYCODE.RIGHT,
        KEYCODE.DOWN in *.
      rewrite decide_False by lia. by rewrite decide_True. }
    destruct (next_transition (with_canceled b s) tab i Hwf Hres Hsel Hi)
      as (s' & next & Hrun & Hnext & Hsel' & _).
    by exists s', next.
  - destruct (_onKeyDown_on_tab event s selectPrevious) as [b ->];
      [done..| |].
    { unfold key_transition. by rewrite decide_True. }
    destruct (prev_transition (with_canceled b s) tab i Hwf Hres Hsel Hi)
      as (s' & prev & Hrun & Hprev & Hsel' & _).
    by exists s', prev.
Qed.

Lemma arrow_keys_step_witness :
  ∃ s' next,
    _onKeyDown (keydown 5 KEYCODE.DOWN) three_tabs_attached
    = (s', Normal tt) ∧
    [1; 3; 5]%nat !! 1%nat = Some next ∧ selected_tabs s' = [next].
Proof.
  refine (proj1 (arrow_keys_step three_tabs_attached
                   (keydown 5 KEYCODE.DOWN) 1%nat 0%nat _ _ _ _ _ _)
            (or_intror eq_refl)).
  - by_evaluation.
  - paired_by_evaluation.
  - vm_compute. reflexivity.
  - vm_compute. reflexivity.
  - by_evaluation.
  - reflexivity.
Defined.

(** X6. In a paired container with one selected tab, an arrow to the right
    followed by an arrow to the left, and an arrow to the left followed by
    an arrow to the right, both pressed on tabs, end with the tab selected
    that was selected before. *)
Theorem arrows_there_and_back (s : State) (right left : Event)
    (tab : NodeRef) :
  well_formed s → controls_resolve s → selected_tabs s = [tab] →
  target right ∈ query_role "tab" s → altKey right = false →
  keyCode right = KEYCODE.RIGHT ∨ keyCode right = KEYCODE.DOWN →
  target left ∈ query_role "tab" s → altKey left = false →
  keyCode left = KEYCODE.LEFT ∨ keyCode left = KEYCODE.UP →
  (∃ s1 s2, _onKeyDown right s = (s1, Normal tt) ∧
            _onKeyDown left s1 = (s2, Normal tt) ∧
            selected_tabs s2 = [tab]) ∧
  (∃ s1 s2, _onKeyDown left s = (s1, Normal tt) ∧
            _onKeyDown right s1 = (s2, Normal tt) ∧
            selected_tabs s2 = [tab]).
Proof.
  intros Hwf Hres Hsel Htr Har Hkr Htl Hal Hkl.
  assert (key_transition (keyCode right) = Some selectNext) as Hnext.
  { unfold key_transition, KEYCODE.LEFT, KEYCODE.UP, KEYCODE.RIGHT,
      KEYCODE.DOWN in *.
    rewrite decide_False by lia. by rewrite decide_True. }
  assert (key_transition (keyCode left) = Some selectPrevious) as Hprev.
  { unfold key_transition. by rewrite decide_True. }
  assert (tab ∈ query_role "tab" s) as Htab.
  { assert (tab ∈ selected_tabs s) as Hin by (rewrite Hsel; by left).
    by apply list_elem_of_filter in Hin as [_ ?]. }
  apply list_elem_of_lookup in Htab as [i Hi].
  pose proof (lookup_lt_Some _ _ _ Hi) as Hlt.
  set (n := Z.of_nat (length (query_role "tab" s))).
  assert (0 < n) as Hn by (unfold n; lia).
  split.
  - destruct (_onKeyDown_on_tab right s selectNext) as [b ->]; [done..|].
    destruct (next_transition (with_canceled b s) tab i Hwf Hres Hsel Hi)
      as (s1 & next & Hrun1 & Hnext1 & Hsel1 & _ & Hwf1 & Hres1 & Htabs1).
    fold n in Hnext1. exists s1.
    destruct (_onKeyDown_on_tab left s1 selectPrevious) as [b1 Hrun2];
      [by rewrite (Htabs1 "tab")|done..|].
    rewrite Hrun2.
    destruct (prev_transition (with_canceled b1 s1) next
                (Z.to_nat ((Z.of_nat i + 1) `mod` n)) Hwf1 Hres1 Hsel1)
      as (s2 & back & Hrun3 & Hback & Hsel2 & _).
    { change (query_role "tab" (with_canceled b1 s1))
        with (query_role "tab" s1). by rewrite (Htabs1 "tab"). }
    exists s2. split_and!; [done..|].
    change (query_role "tab" (with_canceled b1 s1))
      with (query_role "tab" s1) in Hback.
    rewrite (Htabs1 "tab") in Hback.
    change (query_role "tab" (with_canceled b s))
      with (query_role "tab" s) in Hback. fold n in Hback.
    pose proof (Z.mod_pos_bound (Z.of_nat i + 1) n Hn).
    rewrite Z2Nat.id, Zminus_mod_idemp_l in Hback by lia.
    replace (Z.of_nat i + 1 - 1) with (Z.of_nat i) in Hback by lia.
    rewrite Z.mod_small, Nat2Z.id in Hback by lia. congruence.
  - destruct (_onKeyDown_on_tab left s selectPrevious) as [b ->]; [done..|].
    destruct (prev_transition (with_canceled b s) tab i Hwf Hres Hsel Hi)
      as (s1 & prev & Hrun1 & Hprev1 & Hsel1 & _ & Hwf1 & Hres1 & Htabs1).
    fold n in Hprev1. exists s1.
    destruct (_onKeyDown_on_tab right s1 selectNext) as [b1 Hrun2];
      [by rewrite (Htabs1 "tab")|done..|].
    rewrite Hrun2.
    destruct (next_transition (with_canceled b1 s1) prev
                (Z.to_nat ((Z.of_nat i - 1) `mod` n)) Hwf1 Hres1 Hsel1)
      as (s2 & back & Hrun3 & Hback & Hsel2 & _).
    { change (query_role "tab" (with_canceled b1 s1))
        with (query_role "tab" s1). by rewrite (Htabs1 "tab"). }
    exists s2. split_and!; [done..|].
    change (query_role "tab" (with_canceled b1 s1))
      with (query_role "tab" s1) in Hback.
    rewrite (Htabs1 "tab") in Hback.
    change (query_role "tab" (with_canceled b s))
      with (query_role "tab" s) in Hback. fold n in Hback.
    pose proof (Z.mod_pos_bound (Z.of_nat i - 1) n Hn).
    rewrite Z2Nat.id, Zplus_mod_idemp_l in Hback by lia.
    replace (Z.of_nat i - 1 + 1) with (Z.of_nat i) in Hback by lia.
    rewrite Z.mod_small, Nat2Z.id in Hback by lia. congruence.
Qed.

Lemma arrows_there_and_back_witness :
  (∃ s1 s2, _onKeyDown (keydown 1 KEYCODE.RIGHT) three_tabs_at_end
            = (s1, Normal tt) ∧
            _onKeyDown (keydown 1 KEYCODE.LEFT) s1 = (s2, Normal tt) ∧
            selected_tabs s2 = [5%nat]) ∧
  (∃ s1 s2, _onKeyDown (keydown 1 KEYCODE.LEFT) three_tabs_at_end
            = (s1, Normal tt) ∧
            _onKeyDown (keydown 1 KEYCODE.RIGHT) s1 = (s2, Normal tt) ∧
            selected_tabs s2 = [5%nat]).
Proof.
  apply arrows_there_and_back.
  - by_evaluation.
  - paired_by_evaluation.
  - vm_compute. reflexivity.
  - by_evaluation.
  - reflexivity.
  - by left.
  - by_evaluation.
  - reflexivity.
  - by left.
Defined.

(** X7. When no tab is marked selected (as after a selection that threw),
    [_nextTab] is the first tab, and [_prevTab] is the last tab but one, or
    the only tab when there is just one: the index -1 that [findIndex]
    returns is used as a position. *)
Theorem arrows_without_selection (s : State) (n : nat) :
  n = length (query_role "tab" s) →
  (1 ≤ n)%nat →
  selected_tabs s = [] →
  _nextTab s = (s, Normal (query_role "tab" s !! 0%nat)) ∧
  _prevTab s = (s, Normal (query_role "tab" s !! (n - 2)%nat)) ∧
  is_Some (query_role "tab" s !! (n - 2)%nat).
Proof.
  intros -> Hn Hsel. apply findIndex_none in Hsel.
  rewrite _nextTab_run, _prevTab_run. cbv zeta. rewrite Hsel.
  unfold js_rem. rewrite !decide_False by lia. split_and!.
  - rewrite Z.rem_small by lia. unfold index. by rewrite decide_True.
  - destruct (decide (length (query_role "tab" s) = 1%nat)) as [Hone|Hmore].
    + rewrite Hone.
      change (Z.rem (-1 - 1 + Z.of_nat 1) (Z.of_nat 1)) with 0.
      unfold index. by rewrite decide_True.
    + rewrite Z.rem_small by lia. unfold index.
      rewrite decide_True by lia. do 3 f_equal. lia.
  - apply lookup_lt_is_Some. lia.
Qed.

Lemma arrows_without_selection_witness :
  _nextTab (fst (reset three_tabs_attached))
  = (fst (reset three_tabs_attached), Normal (Some 1%nat)) ∧
  _prevTab (fst (reset three_tabs_attached))
  = (fst (reset three_tabs_attached), Normal (Some 3%nat)).
Proof.
  destruct (arrows_without_selection (fst (reset three_tabs_attached)) 3)
    as (Hnext & Hprev & _).
  - vm_compute. reflexivity.
  - lia.
  - vm_compute. reflexivity.
  - split; [exact Hnext|exact Hprev].
Defined.

(** X8. With no tab in the container, the four keyboard transitions index
    an empty array: [_selectTab] gets [undefined], resets the container and
    throws a TypeError. *)
Theorem keyboard_without_tabs (s : State) (t : Transition) :
  query_role "tab" s = [] →
  t = selectPrevious ∨ t = selectNext ∨ t = selectFirst ∨ t = selectLast →
  _prevTab s = (s, Normal None) ∧ _nextTab s = (s, Normal None) ∧
  ∃ msg, transition t s = (fst (reset s), Throw (TypeError msg)).
Proof.
  intros Htabs Ht.
  assert (_prevTab s = (s, Normal None)) as Hprev
    by (by rewrite _prevTab_run, Htabs).
  assert (_nextTab s = (s, Normal None)) as Hnext
    by (by rewrite _nextTab_run, Htabs).
  split_and!; [done..|].
  destruct (_selectTab_undefined s) as [msg Hthrow]. exists msg.
  rewrite reset_run. cbn [fst].
  assert (∀ i, index (@nil NodeRef) i = None) as Hnil.
  { intros [i|]; [|done]. unfold index. by case_decide. }
  destruct Ht as [Ht|[Ht|[Ht|Ht]]]; subst t; cbn [transition];
    unfold _allTabs;
    by rewrite ?bind_gets, ?bind_run, ?Hprev, ?Hnext, ?Htabs, ?Hnil.
Qed.

Lemma keyboard_without_tabs_witness :
  _prevTab no_tabs = (no_tabs, Normal None) ∧
  _nextTab no_tabs = (no_tabs, Normal None) ∧
  ∃ msg, transition selectLast no_tabs
         = (fst (reset no_tabs), Throw (TypeError msg)).
Proof.
  apply keyboard_without_tabs.
  - vm_compute. reflexivity.
  - by repeat right.
Defined.

(** X9. In a paired container, Home pressed on a tab selects the first tab
    and End the last one, whatever was selected before. *)
Theorem home_and_end_keys (s : State) (event : Event) :
  well_formed s → controls_resolve s →
  target event ∈ query_role "tab" s → altKey event = false →
  (keyCode event = KEYCODE.HOME →
   ∃ s' first, _onKeyDown event s = (s', Normal tt) ∧
               head (query_role "tab" s) = Some first ∧
               selected_tabs s' = [first] ∧ exactly_one_selected s') ∧
  (keyCode event = KEYCODE.END →
   ∃ s' final, _onKeyDown event s = (s', Normal tt) ∧
               last (query_role "tab" s) = Some final ∧
               selected_tabs s' = [final] ∧ exactly_one_selected s').
Proof.
  intros Hwf Hres Htarget Halt.
  assert (0 < length (query_role "tab" s))%nat as Hlen.
  { destruct (query_role "tab" s); [by apply elem_of_nil in Htarget|].
    simpl. lia. }
  split; intros Hkey.
  - destruct (_onKeyDown_on_tab event s selectFirst) as [b ->]; [done..| |].
    { by rewrite Hkey. }
    cbn [transition]. unfold _allTabs. rewrite bind_gets.
    change (query_role "tab" (with_canceled b s)) with (query_role "tab" s).
    rewrite index_0_head.
    destruct (head (query_role "tab" s)) as [first|] eqn:Hfirst.
    2: { apply head_None in Hfirst. rewrite Hfirst in Hlen. simpl in Hlen.
         lia. }
    destruct (_selectTab_keeps (with_canceled b s) first Hwf Hres)
      as (s' & Hrun & Hsel & Hinv & _).
    { by apply head_Some_elem_of. }
    by exists s', first.
  - destruct (_onKeyDown_on_tab event s selectLast) as [b ->]; [done..| |].
    { by rewrite Hkey. }
    cbn [transition]. unfold _allTabs. rewrite bind_gets.
    change (query_role "tab" (with_canceled b s)) with (query_role "tab" s).
    unfold index. rewrite decide_True by lia.
    replace (Z.to_nat (Z.of_nat (length (query_role "tab" s)) - 1))
      with (Nat.pred (length (query_role "tab" s))) by lia.
    rewrite <- last_lookup.
    destruct (last (query_role "tab" s)) as [final|] eqn:Hfinal.
    2: { apply last_None in Hfinal. rewrite Hfinal in Hlen. simpl in Hlen.
         lia. }
    destruct (_selectTab_keeps (with_canceled b s) final Hwf Hres)
      as (s' & Hrun & Hsel & Hinv & _).
    { rewrite last_lookup in Hfinal. by eapply list_elem_of_lookup_2. }
    by exists s', final.
Qed.

Lemma home_and_end_keys_witness :
  (∃ s' first, _onKeyDown (keydown 5 KEYCODE.HOME) three_tabs_at_end
               = (s', Normal tt) ∧
               head (query_role "tab" three_tabs_at_end) = Some first ∧
               selected_tabs s' = [first] ∧ exactly_one_selected s') ∧
  (∃ s' final, _onKeyDown (keydown 1 KEYCODE.END) three_tabs_attached
               = (s', Normal tt) ∧
               last (query_role "tab" three_tabs_attached) = Some final ∧
               selected_tabs s' = [final] ∧ exactly_one_selected s').
Proof.
  split.
  - refine (proj1 (home_and_end_keys three_tabs_at_end
                     (keydown 5 KEYCODE.HOME) _ _ _ _) eq_refl);
      [by_evaluation|paired_by_evaluation|by_evaluation|reflexivity].
  - refine (proj2 (home_and_end_keys three_tabs_attached
                     (keydown 1 KEYCODE.END) _ _ _ _) eq_refl);
      [by_evaluation|paired_by_evaluation|by_evaluation|reflexivity].
Defined.

(** ** Where [appendChild] puts the nodes *)

Section Grouping.
Implicit Types (n : Node) (r h : NodeRef) (A B : list Node).

Lemma detach_kids_app_found r A B ks sub :
  detach_kids r A = (ks, Some sub) →
  detach_kids r (A ++ B) = (ks ++ B, Some sub).
Proof.
  revert ks. induction A as [|k A IH]; intros ks; simpl; [done|].
  destruct (decide (ref k = r)); [by intros [= <- <-]|].
  destruct (detach r k) as [k' [sub'|]]; [by intros [= <- <-]|].
  destruct (detach_kids r A) as [A' o] eqn:HA. intros [= <- ->].
  by rewrite (IH A' eq_refl).
Qed.

Lemma detach_kids_app_missing r A B ks :
  detach_kids r A = (ks, None) →
  detach_kids r (A ++ B) =
  let '(B', sub) := detach_kids r B in (A ++ B', sub).
Proof.
  revert ks. induction A as [|k A IH]; intros ks; simpl.
  { intros _. by destruct (detach_kids r B). }
  destruct (decide (ref k = r)); [done|].
  destruct (detach r k) as [k' [sub'|]]; [done|].
  destruct (detach_kids r A) as [A' o] eqn:HA. intros [= <- ->].
  rewrite (IH A' eq_refl). by destruct (detach_kids r B).
Qed.

(** What is taken out is the node asked for. *)
Lemma detach_taken r n : ∀ n' sub, detach r n = (n', Some sub) → ref sub = r.
Proof.
  induction n as [h kids IH] using Node_forall_ind.
  intros n' sub. rewrite detach_unfold.
  destruct (detach_kids r kids) as [kids' o] eqn:Hk.
  intros [= <- ->]. revert kids' Hk.
  induction IH as [|k rest Hhead _ IHrest]; intros kids' Hk;
    simpl in Hk; [done|].
  destruct (decide (ref k = r)) as [Href|_]; [by injection Hk as <- <-|].
  destruct (detach r k) as [k' [sub'|]] eqn:Hd.
  - injection Hk as <- <-. by eapply Hhead.
  - destruct (detach_kids r rest) as [rest' o] eqn:Hr.
    injection Hk as <- ->. by eapply IHrest.
Qed.

(** A descendant is found. *)
Lemma detach_descendant r n :
  r ∈ descendants n → ∃ n' sub, detach r n = (n', Some sub).
Proof.
  induction n as [h kids IH] using Node_forall_ind.
  rewrite detach_unfold.
  assert (r ∈ descendants (Nd h kids) →
          ∃ kids' sub, detach_kids r kids = (kids', Some sub)) as Hkids.
  { induction IH as [|k rest Hhead _ IHrest]; [by intros ?%elem_of_nil|].
    rewrite descendants_cons. unfold subtree. simpl.
    destruct (decide (ref k = r)) as [|Hne]; [by eauto|].
    intros [Hin|Hin]%elem_of_cons; [congruence|].
    destruct (detach r k) as [k' [sub|]] eqn:Hd; [by eauto|].
    apply elem_of_app in Hin as [Hin|Hin].
    - destruct (Hhead Hin) as (? & ? & ?). congruence.
    - destruct (IHrest Hin) as (rest' & sub & ->). eauto. }
  intros Hin. destruct (Hkids Hin) as (kids' & sub & ->). eauto.
Qed.

(** Taking a node out of a list of children keeps the references of the
    last children, when it is none of them. *)
Lemma detach_kids_keeps_roots r B :
  r ∉ ref <$> B → ∀ ks sub, detach_kids r B = (ks, sub) →
  ref <$> ks = ref <$> B.
Proof.
  induction B as [|k B IH]; intros Hr ks sub; simpl; [by intros [= <- _]|].
  apply not_elem_of_cons in Hr as [Hne Hr].
  destruct (decide (ref k = r)); [congruence|].
  destruct (detach r k) as [k' [sub'|]] eqn:Hd.
  - intros [= <- _]. simpl. by rewrite (detach_ref _ _ _ _ Hd).
  - destruct (detach_kids r B) as [B' o] eqn:HB. intros [= <- _].
    simpl. f_equal. exact (IH Hr B' o eq_refl).
Qed.

(** Moving a descendant that is not among the last children puts it after
    them. *)
Lemma append_child_after r h A B :
  r ∈ descendants (Nd h (A ++ B)) → r ∉ ref <$> B →
  ∃ A' B', append_child (Nd h (A ++ B)) r = Nd h (A' ++ B') ∧
           ref <$> B' = (ref <$> B) ++ [r].
Proof.
  intros Hin Hr. destruct (detach_descendant _ _ Hin) as (n' & sub & Hd).
  unfold append_child. rewrite Hd.
  pose proof (detach_taken _ _ _ _ Hd) as Hsub.
  rewrite detach_unfold in Hd.
  destruct (detach_kids r A) as [A' [subA|]] eqn:HA.
  - rewrite (detach_kids_app_found _ _ _ _ _ HA) in Hd.
    injection Hd as <- _. exists A', (B ++ [sub]). split.
    + by rewrite (assoc_L (++)).
    + rewrite fmap_app. simpl. by rewrite Hsub.
  - rewrite (detach_kids_app_missing _ _ _ _ HA) in Hd.
    destruct (detach_kids r B) as [B' o] eqn:HB.
    injection Hd as <- ->. exists A, (B' ++ [sub]). split.
    + by rewrite (assoc_L (++)).
    + rewrite fmap_app, (detach_kids_keeps_roots _ _ Hr _ _ HB).
      simpl. by rewrite Hsub.
Qed.

(** Moving a list of distinct descendants one after the other leaves them
    as the last children, in the order of the list. *)
Lemma append_children_last l : ∀ h A B,
  NoDup ((ref <$> B) ++ l) →
  (∀ r, r ∈ l → r ∈ descendants (Nd h (A ++ B))) →
  ∃ A' B', foldl append_child (Nd h (A ++ B)) l = Nd h (A' ++ B') ∧
           ref <$> B' = (ref <$> B) ++ l.
Proof.
  induction l as [|r l IH]; intros h A B Hnd Hin.
  { exists A, B. by rewrite (right_id_L [] (++)). }
  destruct (append_child_after r h A B) as (A1 & B1 & Heq & Hrefs).
  { apply Hin. by left. }
  { apply NoDup_app in Hnd as (_ & Hdisj & _). intros Hr.
    apply (Hdisj r Hr). by left. }
  simpl. rewrite Heq.
  destruct (IH h A1 B1) as (A' & B' & Hfold & Hrefs').
  - by rewrite Hrefs, <- (assoc_L (++)).
  - intros x Hx. rewrite <- Heq, append_child_Permutation.
    apply Hin. by right.
  - exists A', B'. split; [done|].
    by rewrite Hrefs', Hrefs, <- (assoc_L (++)).
Qed.

(** The children are among the descendants, in their order. *)
Lemma children_sublist_descendants h A B :
  ref <$> B `sublist_of` descendants (Nd h (A ++ B)).
Proof.
  rewrite descendants_app. apply sublist_inserts_l.
  induction B as [|k B IH]; [constructor|].
  rewrite descendants_cons. unfold subtree. simpl.
  apply sublist_skip. by apply sublist_inserts_l.
Qed.

Lemma sublist_filter_mono {X} (P : X → Prop) `{!∀ x, Decision (P x)}
    (l1 l2 : list X) :
  l1 `sublist_of` l2 → filter P l1 `sublist_of` filter P l2.
Proof.
  induction 1 as [|x l1 l2 _ IH|x l1 l2 _ IH]; [constructor|..];
    rewrite ?filter_cons; destruct (decide (P x)); try done;
    by constructor.
Qed.

Lemma sublist_full {X} (l1 l2 : list X) :
  l1 `sublist_of` l2 → (length l2 ≤ length l1)%nat → l1 = l2.
Proof.
  induction 1 as [|x l1 l2 _ IH|x l1 l2 Hsub IH]; simpl; intros Hlen.
  - done.
  - f_equal. apply IH. lia.
  - apply sublist_length in Hsub. lia.
Qed.

End Grouping.

(** ** The stages of [connectedCallback] *)

Section Stages.
Implicit Types (s : State) (tab panel el : NodeRef).

Lemma relabelled_refl s : relabelled s s.
Proof. by split_and!. Qed.

Lemma relabelled_trans s1 s2 s3 :
  relabelled s1 s2 → relabelled s2 s3 → relabelled s1 s3.
Proof.
  intros (? & ? & ? & ? & ? & H12) (? & ? & ? & ? & ? & H23).
  split_and!; try congruence. intros el.
  destruct (H12 el) as [Ht12 Ha12]. destruct (H23 el) as [Ht23 Ha23].
  split; [congruence|]. intros n Hn. by rewrite Ha23, Ha12.
Qed.

Lemma label_relabelled tab s s' c : label tab s = (s', c) → relabelled s s'.
Proof.
  unfold label. rewrite bind_gets.
  destruct (truthy (Some (elem_id s tab))).
  - rewrite bind_run, _panelForTab_run.
    destruct (panel_for s tab) as [panel|]; simpl.
    + intros [= <- _]. split_and!; [done..|]. intros el. unfold attr.
      simpl. rewrite lookup_alter.
      case_decide; [subst|done].
      destruct (elements s !! el); simpl; [|done]. split; [done|].
      intros n Hn. by rewrite lookup_insert_ne.
    + intros [= <- _]. apply relabelled_refl.
  - unfold free_identifier, console_warn. rewrite bind_run.
    destruct (globals s !! "panelId"); intros [= <- _]; by split_and!.
Qed.

Lemma labelling_relabelled tabs s s' c :
  forEach tabs label s = (s', c) → relabelled s s'.
Proof.
  apply (forEach_invariant (relabelled s)); [|apply relabelled_refl].
  intros tab t t' c' _ Ht Hrun.
  eauto using relabelled_trans, label_relabelled.
Qed.

Lemma moved_this l s : this (moved l s) = foldl append_child (this s) l.
Proof.
  unfold moved. revert s. induction l as [|r l IH]; intros s; [done|].
  simpl. by rewrite IH.
Qed.

Lemma moved_rest l s :
  elements (moved l s) = elements s ∧ listeners (moved l s) = listeners s ∧
  globals (moved l s) = globals s ∧ console (moved l s) = console s ∧
  canceled (moved l s) = canceled s ∧
  activeElement (moved l s) = activeElement s.
Proof.
  unfold moved. revert s. induction l as [|r l IH]; intros s; [done|].
  simpl. by destruct (IH (with_this (append_child (this s) r) s))
    as (-> & -> & -> & -> & -> & ->).
Qed.

(** [connectedCallback] with tabs: its labelling loop starts in
    [regrouped s]; it either throws in the loop, or ends the loop and
    selects. *)
Lemma connectedCallback_stages s s' c :
  query_role "tab" (attached_host s) ≠ [] →
  connectedCallback s = (s', c) →
  ∃ s2, relabelled (regrouped s) s2 ∧
        ((∃ e, forEach (query_role "tab" (attached_host s)) label
                 (regrouped s) = (s2, Throw e) ∧ s' = s2 ∧ c = Throw e) ∨
         (forEach (query_role "tab" (attached_host s)) label (regrouped s)
          = (s2, Normal tt) ∧
          _selectTab (initial_tab (query_role "tab" (attached_host s)) s2) s2
          = (s', c))).
Proof.
  intros Htabs. rewrite connectedCallback_run. cbv zeta.
  rewrite decide_False by (by intros ?%length_zero_iff_nil).
  fold (regrouped s). rewrite bind_run.
  destruct (forEach _ label (regrouped s)) as [s2 [[]|e]] eqn:Hloop;
    pose proof (labelling_relabelled _ _ _ _ Hloop) as Hs2.
  - rewrite bind_gets. intros Hsel. exists s2. eauto.
  - intros [= <- <-]. exists s2. split; [done|]. left. eauto.
Qed.

Lemma _selectTab_writes newTab s s' c :
  _selectTab newTab s = (s', c) →
  this s' = this s ∧ listeners s' = listeners s ∧ globals s' = globals s ∧
  ∀ el n, n ≠ "aria-selected" → n ≠ "aria-hidden" → n ≠ "tabindex" →
          attr s' el n = attr s el n.
Proof.
  intros Hrun.
  destruct (_selectTab_state newTab s)
    as [Hreset|(tab & panel & -> & Hpanel & Hfound)].
  - rewrite Hrun in Hreset. simpl in Hreset. subst s'.
    split_and!; try (by rewrite reset_state_store).
    intros. by apply attr_reset.
  - rewrite Hrun in Hfound. injection Hfound as -> _.
    destruct (select_state_rest tab panel s) as (? & ? & _).
    split_and!; auto using this_select. intros. by apply attr_select.
Qed.

(** What [connectedCallback] leaves behind when there are tabs, however it
    ends. *)
Lemma connectedCallback_frame s s' c :
  query_role "tab" (attached_host s) ≠ [] →
  connectedCallback s = (s', c) →
  this s' = this (regrouped s) ∧
  listeners s' = listeners (attached_host s) ∧
  globals s' = globals s ∧
  ∀ el n, n ≠ "aria-labelledby" → n ≠ "aria-selected" → n ≠ "aria-hidden" →
          n ≠ "tabindex" → attr s' el n = attr (attached_host s) el n.
Proof.
  intros Htabs Hrun.
  destruct (connectedCallback_stages _ _ _ Htabs Hrun) as (s2 & Hs2 & Hend).
  destruct Hs2 as (Hthis & Hlisten & Hglobals & _ & _ & Hels).
  assert (elements (regrouped s) = elements (attached_host s) ∧
          listeners (regrouped s) = listeners (attached_host s) ∧
          globals (regrouped s) = globals s) as (Hel1 & Hl1 & Hg1).
  { unfold regrouped.
    destruct (moved_rest (query_role "tabpanel" (attached_host s))
                (moved (query_role "tab" (attached_host s))
                       (attached_host s))) as (-> & -> & -> & _).
    destruct (moved_rest (query_role "tab" (attached_host s))
                (attached_host s)) as (-> & -> & -> & _).
    split_and!; [done..|].
    unfold attached_host, add_listener. simpl. by repeat case_decide. }
  assert (∀ el n, n ≠ "aria-labelledby" →
                  attr s2 el n = attr (attached_host s) el n) as Hattr2.
  { intros el n Hn. rewrite (proj2 (Hels el) n Hn). unfold attr.
    by rewrite Hel1. }
  destruct Hend as [(e & _ & -> & _)|(_ & Hsel)].
  - split_and!; [congruence..|]. intros. by apply Hattr2.
  - apply _selectTab_writes in Hsel as (Hthis' & Hlisten' & Hglobals' & Ha).
    split_and!; [congruence..|]. intros. rewrite Ha by done.
    by apply Hattr2.
Qed.

Lemma filter_all {X} (P : X → Prop) `{!∀ x, Decision (P x)} (l : list X) :
  (∀ x, x ∈ l → P x) → filter P l = l.
Proof.
  induction l as [|x l IH]; intros Hall; [done|].
  rewrite filter_cons, decide_True by (apply Hall; by left).
  f_equal. apply IH. intros; apply Hall. by right.
Qed.

Lemma filter_none {X} (P : X → Prop) `{!∀ x, Decision (P x)} (l : list X) :
  (∀ x, x ∈ l → ¬ P x) → filter P l = [].
Proof.
  induction l as [|x l IH]; intros Hnone; [done|].
  rewrite filter_cons, decide_False by (apply Hnone; by left).
  apply IH. intros; apply Hnone. by right.
Qed.

(** The two groups that [connectedCallback] forms. *)
Lemma regrouped_children s :
  well_formed s →
  ∃ others tab_nodes panel_nodes,
    childNodes (this (regrouped s)) = others ++ tab_nodes ++ panel_nodes ∧
    ref (this (regrouped s)) = ref (this s) ∧
    ref <$> tab_nodes = query_role "tab" s ∧
    ref <$> panel_nodes = query_role "tabpanel" s.
Proof.
  intros Hwf. unfold regrouped.
  rewrite !(query_role_attached_host _ _ Hwf).
  rewrite !moved_this, <- foldl_app.
  assert (this (attached_host s) = this s) as ->.
  { unfold attached_host. simpl. by rewrite !this_add_listener. }
  destruct (this s) as [h kids] eqn:Hthis.
  destruct (append_children_last
              (query_role "tab" s ++ query_role "tabpanel" s) h kids [])
    as (A' & B' & Hfold & Hrefs).
  - simpl. apply NoDup_app. split_and!; auto using query_role_NoDup.
    intros el [_ Htab]%query_role_elem_of [_ Hpanel]%query_role_elem_of.
    congruence.
  - rewrite (right_id_L [] (++)), <- Hthis. intros r.
    by intros [[? _]%query_role_elem_of|[? _]%query_role_elem_of]%elem_of_app.
  - rewrite (right_id_L [] (++)) in Hfold. rewrite Hfold. simpl in Hrefs.
    apply fmap_app_inv in Hrefs as (T & P & HT & HP & ->).
    by exists A', T, P.
Qed.

Lemma regrouped_elements s :
  elements (regrouped s) = elements (attached_host s).
Proof.
  unfold regrouped.
  destruct (moved_rest (query_role "tabpanel" (attached_host s))
              (moved (query_role "tab" (attached_host s))
                     (attached_host s))) as (-> & _).
  by destruct (moved_rest (query_role "tab" (attached_host s))
                 (attached_host s)) as (-> & _).
Qed.

Lemma rearranged_regrouped s : well_formed s → rearranged s (regrouped s).
Proof.
  intros Hwf. unfold regrouped.
  eapply rearranged_trans; [by apply rearranged_attached_host|].
  eapply rearranged_trans; apply rearranged_moved.
Qed.

(** Regrouping keeps the tabs in their order, and the panels in theirs. *)
Lemma regrouped_query_role r s :
  well_formed s → r = "tab" ∨ r = "tabpanel" →
  query_role r (regrouped s) = query_role r s.
Proof.
  intros Hwf Hr. pose proof (rearranged_regrouped s Hwf) as Hre.
  destruct (regrouped_children s Hwf) as (A & T & P & Hkids & _ & HT & HP).
  symmetry. apply sublist_full.
  2: { by rewrite (rearranged_query_role r _ _ Hre). }
  assert (ref <$> (T ++ P)
          `sublist_of` descendants (this (regrouped s))) as Hsub.
  { destruct (this (regrouped s)) as [h kids]. simpl in Hkids. subst kids.
    apply children_sublist_descendants. }
  rewrite fmap_app, HT, HP in Hsub.
  apply (sublist_filter_mono
           (λ el, attr (regrouped s) el "role" = Some r)) in Hsub.
  fold (query_role r (regrouped s)) in Hsub.
  destruct Hre as (_ & _ & Hattr).
  rewrite filter_app in Hsub.
  destruct Hr as [-> | ->].
  - rewrite filter_all, filter_none, (right_id_L [] (++)) in Hsub; [done|..].
    + intros el [Hel Hrole]%query_role_elem_of. rewrite Hattr by done.
      congruence.
    + intros el [Hel Hrole]%query_role_elem_of. by rewrite Hattr.
  - rewrite filter_none, filter_all in Hsub; [done|..].
    + intros el [Hel Hrole]%query_role_elem_of. by rewrite Hattr.
    + intros el [Hel Hrole]%query_role_elem_of. rewrite Hattr by done.
      congruence.
Qed.

Lemma attached_host_tabs s :
  well_formed s → query_role "tab" s ≠ [] →
  query_role "tab" (attached_host s) ≠ [].
Proof. intros Hwf. by rewrite (query_role_attached_host _ _ Hwf). Qed.

(** After [connectedCallback], the tabs and the panels are those of the
    markup, in its order. *)
Lemma connectedCallback_query_role r s s' c :
  well_formed s → query_role "tab" s ≠ [] → r = "tab" ∨ r = "tabpanel" →
  connectedCallback s = (s', c) → query_role r s' = query_role r s.
Proof.
  intros Hwf Htabs Hr Hrun.
  destruct (connectedCallback_frame s s' c) as (Hthis & _ & _ & Hattr);
    auto using attached_host_tabs.
  rewrite <- (regrouped_query_role r s Hwf Hr).
  apply query_role_ext; [done|]. intros el.
  rewrite Hattr by done. unfold attr. by rewrite regrouped_elements.
Qed.

End Stages.

(** X10. When [connectedCallback] has run on a container with tabs, however
    it ended, the last children of the element are the tabs, in their
    document order, followed by the panels, in theirs, each moved with what
    it contains; [_allTabs] and [_allPanels] return what they returned
    before. *)
Theorem attach_groups_tabs_then_panels (s s' : State)
    (c : Completion unit) :
  well_formed s →
  query_role "tab" s ≠ [] →
  connectedCallback s = (s', c) →
  (∃ others tab_nodes panel_nodes,
     childNodes (this s') = others ++ tab_nodes ++ panel_nodes ∧
     ref <$> tab_nodes = query_role "tab" s ∧
     ref <$> panel_nodes = query_role "tabpanel" s) ∧
  ref (this s') = ref (this s) ∧
  descendants (this s') ≡ₚ descendants (this s) ∧
  query_role "tab" s' = query_role "tab" s ∧
  query_role "tabpanel" s' = query_role "tabpanel" s.
Proof.
  intros Hwf Htabs Hrun.
  destruct (connectedCallback_frame s s' c) as (Hthis & _);
    auto using attached_host_tabs.
  destruct (regrouped_children s Hwf) as (A & T & P & Hkids & Href & HT & HP).
  destruct (rearranged_regrouped s Hwf) as (_ & Hperm & _).
  rewrite Hthis. split_and!; [by exists A, T, P|done|done|..].
  - apply (connectedCallback_query_role "tab" s s' c); auto.
  - apply (connectedCallback_query_role "tabpanel" s s' c); auto.
Qed.

Lemma attach_groups_tabs_then_panels_witness :
  (∃ others tab_nodes panel_nodes,
     childNodes (this (fst (connectedCallback nested_markup)))
     = others ++ tab_nodes ++ panel_nodes ∧
     ref <$> tab_nodes = query_role "tab" nested_markup ∧
     ref <$> panel_nodes = query_role "tabpanel" nested_markup) ∧
  ref (this (fst (connectedCallback nested_markup)))
  = ref (this nested_markup) ∧
  descendants (this (fst (connectedCallback nested_markup)))
    ≡ₚ descendants (this nested_markup) ∧
  query_role "tab" (fst (connectedCallback nested_markup))
  = query_role "tab" nested_markup ∧
  query_role "tabpanel" (fst (connectedCallback nested_markup))
  = query_role "tabpanel" nested_markup.
Proof.
  apply (attach_groups_tabs_then_panels nested_markup _
           (snd (connectedCallback nested_markup))).
  - by_evaluation.
  - vm_compute. discriminate.
  - by destruct (connectedCallback nested_markup).
Defined.

(** ** Labelling *)

Section Labelling.
Implicit Types (s : State) (tab panel el : NodeRef).

Lemma relabelled_panel_for s s' tab :
  relabelled s s' → panel_for s' tab = panel_for s tab.
Proof.
  intros (Hthis & _ & _ & _ & _ & Hels). apply panel_for_ext; [done|].
  intros el n _ _ Hn. by apply (proj2 (Hels el)).
Qed.

Lemma relabelled_elem_id s s' el :
  relabelled s s' → elem_id s' el = elem_id s el.
Proof.
  intros (_ & _ & _ & _ & _ & Hels). unfold elem_id.
  by rewrite (proj2 (Hels el)).
Qed.

Lemma relabelled_labels s s' panel (l : list NodeRef) :
  relabelled s s' → filter (labels s' panel) l = filter (labels s panel) l.
Proof.
  intros Hs'. apply list_filter_iff. intros tab. unfold labels.
  by rewrite (relabelled_panel_for _ _ _ Hs'), (relabelled_elem_id _ _ _ Hs').
Qed.

(** A completed round of the loop: the one write it makes, if any. *)
Lemma label_completed tab s s' :
  label tab s = (s', Normal tt) →
  ∀ panel, attr s' panel "aria-labelledby" =
           if decide (labels s panel tab) then Some (elem_id s tab)
           else attr s panel "aria-labelledby".
Proof.
  intros Hrun panel. revert Hrun. unfold label. rewrite bind_gets. simpl.
  destruct (decide (elem_id s tab = "")) as [Hid|Hid].
  - rewrite bool_decide_false by auto.
    unfold free_identifier, console_warn. rewrite bind_run.
    destruct (globals s !! "panelId"); [|done]. intros [= <-].
    rewrite decide_False; [done|]. by intros [? _].
  - rewrite bool_decide_true by done.
    rewrite bind_run, _panelForTab_run.
    destruct (panel_for s tab) as [p|] eqn:Hp; simpl; [|done].
    intros [= <-]. unfold attr. simpl. rewrite lookup_alter.
    destruct (decide (p = panel)) as [->|Hne].
    + rewrite (decide_True (P := labels s panel tab)) by done.
      apply panel_for_Some in Hp as [Hp _].
      destruct (query_role_element _ _ _ Hp) as [e ->]. simpl.
      by rewrite lookup_insert_eq.
    + rewrite (decide_False (P := labels s panel tab)); [done|].
      intros [_ Hfor]. congruence.
Qed.

(** The loop leaves on a panel the id of the last tab that labels it. *)
Lemma labelling_last l : ∀ s s',
  forEach l label s = (s', Normal tt) →
  ∀ panel, attr s' panel "aria-labelledby" =
           match last (filter (labels s panel) l) with
           | Some tab => Some (elem_id s tab)
           | None => attr s panel "aria-labelledby"
           end.
Proof.
  induction l as [|tab l IH]; intros s s'; simpl.
  { by intros [= <-]. }
  rewrite bind_run. destruct (label tab s) as [t [[]|e]] eqn:Hhead; [|done].
  intros Hrest panel. pose proof (label_relabelled _ _ _ _ Hhead) as Ht.
  rewrite (IH _ _ Hrest panel), (relabelled_labels _ _ _ _ Ht).
  rewrite filter_cons, (label_completed _ _ _ Hhead panel).
  destruct (last (filter (labels s panel) l)) as [final|] eqn:Hlast.
  - rewrite (relabelled_elem_id _ _ _ Ht).
    destruct (decide (labels s panel tab)); [|by rewrite Hlast].
    destruct (filter (labels s panel) l) as [|x k] eqn:Hk; [done|].
    by rewrite last_cons_cons, Hlast.
  - destruct (decide (labels s panel tab)); [|by rewrite Hlast].
    apply last_None in Hlast. by rewrite Hlast.
Qed.

Lemma attr_attached_host s el n :
  n ≠ "role" → attr (attached_host s) el n = attr s el n.
Proof.
  intros Hn. unfold attached_host, attr. simpl.
  rewrite lookup_alter, !elements_add_listener.
  case_decide; [subst|done].
  destruct (elements s !! _); simpl; [|done]. by rewrite lookup_insert_ne.
Qed.

End Labelling.

(** X11. When [connectedCallback] completes, the [aria-labelledby] of an
    element is the id of the last tab, among the tabs that have an id, whose
    [aria-controls] resolves to it; an element that no such tab controls
    keeps the [aria-labelledby] it had. *)
Theorem attach_labels_panels (s s' : State) (panel : NodeRef) :
  well_formed s →
  connectedCallback s = (s', Normal tt) →
  attr s' panel "aria-labelledby" =
  match last (filter (labels s' panel) (query_role "tab" s')) with
  | Some tab => Some (elem_id s' tab)
  | None => attr s panel "aria-labelledby"
  end.
Proof.
  intros Hwf Hrun.
  destruct (decide (query_role "tab" s = [])) as [Hnone|Htabs].
  { revert Hrun. rewrite connectedCallback_run. cbv zeta.
    rewrite (query_role_attached_host _ _ Hwf), Hnone.
    rewrite decide_True by done. intros [= <-].
    rewrite (query_role_attached_host _ _ Hwf), Hnone. simpl.
    by apply attr_attached_host. }
  pose proof (attached_host_tabs _ Hwf Htabs) as Htabs0.
  rewrite (connectedCallback_query_role "tab" s s' _ Hwf Htabs
             (or_introl eq_refl) Hrun).
  destruct (connectedCallback_frame _ _ _ Htabs0 Hrun)
    as (Hthis & _ & _ & Hframe).
  destruct (connectedCallback_stages _ _ _ Htabs0 Hrun)
    as (s2 & Hs2 & [(e & _ & _ & [=])|(Hloop & Hsel)]).
  rewrite (query_role_attached_host _ _ Hwf) in Hloop.
  assert (∀ tab, panel_for s' tab = panel_for (regrouped s) tab) as Hfor.
  { intros tab. apply panel_for_ext; [done|]. intros el n ????.
    rewrite Hframe by done. unfold attr. by rewrite regrouped_elements. }
  assert (∀ el, elem_id s' el = elem_id (regrouped s) el) as Hid.
  { intros el. unfold elem_id. rewrite Hframe by done. unfold attr.
    by rewrite regrouped_elements. }
  rewrite (list_filter_iff (labels s' panel) (labels (regrouped s) panel)).
  2: { intros tab. unfold labels. by rewrite Hfor, Hid. }
  apply _selectTab_writes in Hsel as (_ & _ & _ & Hsel).
  rewrite Hsel, (labelling_last _ _ _ Hloop panel) by done.
  destruct (last _) as [tab|]; [by rewrite Hid|].
  unfold attr at 1. rewrite regrouped_elements.
  by apply attr_attached_host.
Qed.

Lemma attach_labels_panels_witness :
  attr (fst (connectedCallback three_tabs)) 4%nat "aria-labelledby"
  = Some "t2".
Proof.
  rewrite (attach_labels_panels three_tabs _ 4%nat).
  - vm_compute. reflexivity.
  - by_evaluation.
  - vm_compute. reflexivity.
Defined.

(** ** When attaching completes *)

Section Completing.
Implicit Types (s : State) (tab panel el : NodeRef).

Lemma label_Normal_iff tab s :
  (∃ s', label tab s = (s', Normal tt)) ↔ labelable s tab.
Proof.
  unfold label, labelable. rewrite bind_gets. simpl.
  destruct (decide (elem_id s tab = "")) as [Hid|Hid].
  - rewrite bool_decide_false by auto.
    unfold free_identifier, console_warn. rewrite bind_run.
    destruct (globals s !! "panelId");
      first [ split; intros _; by eexists
            | split; by intros [? [=]] ].
  - rewrite bool_decide_true by done.
    rewrite bind_run, _panelForTab_run.
    destruct (panel_for s tab) as [p|]; simpl;
      first [ split; intros _; by eexists
            | split; by intros [? [=]] ].
Qed.

Lemma relabelled_labelable s s' tab :
  relabelled s s' → labelable s' tab ↔ labelable s tab.
Proof.
  intros Hs'. unfold labelable.
  rewrite (relabelled_elem_id _ _ _ Hs'), (relabelled_panel_for _ _ _ Hs').
  by destruct Hs' as (_ & _ & -> & _).
Qed.

Lemma labelling_Normal_iff l : ∀ s,
  (∃ s', forEach l label s = (s', Normal tt)) ↔ Forall (labelable s) l.
Proof.
  induction l as [|tab l IH]; intros s; simpl.
  { split; [constructor|by eexists]. }
  rewrite bind_run, Forall_cons, <- label_Normal_iff.
  destruct (label tab s) as [t [[]|e]] eqn:Hhead.
  - pose proof (label_relabelled _ _ _ _ Hhead) as Ht.
    rewrite IH. split.
    + intros Hrest. split; [by eexists|].
      eapply Forall_impl; [exact Hrest|].
      intros x. apply (relabelled_labelable _ _ _ Ht).
    + intros [_ Hrest]. eapply Forall_impl; [exact Hrest|].
      intros x. apply (relabelled_labelable _ _ _ Ht).
  - split; [by intros [? [=]]|]. by intros [[? [=]] _].
Qed.

Lemma panel_for_is_Some_iff s tab :
  is_Some (panel_for s tab) ↔
  ∃ panel, panel ∈ query_role "tabpanel" s ∧
           attr s tab "aria-controls" = Some (elem_id s panel).
Proof.
  split.
  - intros [panel Hpanel%panel_for_Some]. eauto.
  - intros (panel & ? & ?). by eapply panel_for_is_Some.
Qed.

(** Rearranging the descendants keeps a tab paired or unpaired. *)
Lemma rearranged_paired s s' tab :
  rearranged s s' → tab ∈ descendants (this s) →
  is_Some (panel_for s' tab) ↔ is_Some (panel_for s tab).
Proof.
  intros Hs' Htab. pose proof (rearranged_query_role "tabpanel" _ _ Hs').
  destruct Hs' as (_ & Hperm & Hattr).
  rewrite !panel_for_is_Some_iff. split; intros (panel & Hpanel & Hctl).
  - assert (panel ∈ query_role "tabpanel" s) as Hin by (by rewrite <- H).
    exists panel. split; [done|].
    pose proof Hin as [Hdesc _]%query_role_elem_of.
    unfold elem_id in *. by rewrite !Hattr in Hctl.
  - exists panel. split; [by rewrite H|].
    pose proof Hpanel as [Hdesc _]%query_role_elem_of.
    unfold elem_id. by rewrite !Hattr.
Qed.

Lemma regrouped_globals s : globals (regrouped s) = globals s.
Proof.
  unfold regrouped.
  destruct (moved_rest (query_role "tabpanel" (attached_host s))
              (moved (query_role "tab" (attached_host s))
                     (attached_host s))) as (_ & _ & -> & _).
  destruct (moved_rest (query_role "tab" (attached_host s))
              (attached_host s)) as (_ & _ & -> & _).
  unfold attached_host, add_listener. simpl. by repeat case_decide.
Qed.

Lemma regrouped_labelable s tab :
  well_formed s → tab ∈ query_role "tab" s →
  labelable (regrouped s) tab ↔ labelable s tab.
Proof.
  intros Hwf [Htab _]%query_role_elem_of.
  pose proof (rearranged_regrouped s Hwf) as Hre.
  pose proof (rearranged_paired _ _ _ Hre Htab) as Hpair.
  destruct Hre as (_ & _ & Hattr). unfold labelable, elem_id.
  rewrite Hattr, regrouped_globals by done. by case_decide.
Qed.

(** The tab that [connectedCallback] selects, read off the markup. *)
Lemma initial_tab_relabelled s s2 :
  well_formed s → relabelled (regrouped s) s2 →
  initial_tab (query_role "tab" (attached_host s)) s2
  = first_marked_or_first s.
Proof.
  intros Hwf (_ & _ & _ & _ & _ & Hels).
  rewrite (query_role_attached_host _ _ Hwf), <- initial_tab_first_marked.
  unfold initial_tab.
  rewrite (find_ext_elem_of (aria_selected s2) (aria_selected s)); [done|].
  intros tab _. unfold aria_selected.
  rewrite (proj2 (Hels tab)) by done. unfold attr at 1.
  rewrite regrouped_elements. fold (attr (attached_host s) tab "aria-selected").
  by rewrite attr_attached_host.
Qed.

(** [connectedCallback] completes exactly when every round of its loop
    can complete and the tab it selects has a panel. *)
Lemma connectedCallback_Normal_iff s :
  well_formed s → query_role "tab" s ≠ [] →
  snd (connectedCallback s) = Normal tt ↔
  Forall (labelable s) (query_role "tab" s) ∧
  ∃ tab, first_marked_or_first s = Some tab ∧ is_Some (panel_for s tab).
Proof.
  intros Hwf Htabs. pose proof (attached_host_tabs _ Hwf Htabs) as Htabs0.
  pose proof (rearranged_regrouped s Hwf) as Hre.
  assert (Forall (labelable (regrouped s)) (query_role "tab" s)
          ↔ Forall (labelable s) (query_role "tab" s)) as Hall.
  { rewrite !Forall_forall. split; intros Hl tab Htab;
      by apply (regrouped_labelable s tab Hwf Htab), Hl. }
  assert (∀ s2 tab, relabelled (regrouped s) s2 →
            first_marked_or_first s = Some tab →
            is_Some (panel_for s2 tab) ↔ is_Some (panel_for s tab)) as Hpair.
  { intros s2 tab Hs2 Hfirst.
    rewrite (relabelled_panel_for _ _ _ Hs2).
    apply rearranged_paired; [done|].
    rewrite <- initial_tab_first_marked in Hfirst.
    by apply initial_tab_elem_of, query_role_elem_of in Hfirst as [? _]. }
  destruct (connectedCallback s) as [s' c] eqn:Hrun. simpl.
  destruct (connectedCallback_stages _ _ _ Htabs0 Hrun)
    as (s2 & Hs2 & [(e & Hloop & -> & ->)|(Hloop & Hsel)]);
    rewrite (query_role_attached_host _ _ Hwf) in Hloop.
  - split; [done|]. intros [Hl%Hall _].
    apply labelling_Normal_iff in Hl as [s3 Hl]. congruence.
  - rewrite (initial_tab_relabelled _ _ Hwf Hs2) in Hsel.
    destruct (initial_tab_is_Some (query_role "tab" s) s Htabs) as [tab Htab].
    rewrite initial_tab_first_marked in Htab. rewrite Htab in Hsel.
    split.
    + intros ->. split.
      * apply Hall, labelling_Normal_iff. eauto.
      * exists tab. split; [done|]. apply (Hpair s2 tab Hs2 Htab).
        destruct (panel_for s2 tab) as [panel|] eqn:Hpanel; [by eexists|].
        by rewrite (_selectTab_missing _ _ Hpanel) in Hsel.
    + intros [_ (tab' & Htab' & Hfor)]. rewrite Htab in Htab'.
      injection Htab' as <-.
      apply (Hpair s2 tab Hs2 Htab) in Hfor as [panel Hpanel].
      rewrite (_selectTab_found _ _ _ Hpanel) in Hsel. congruence.
Qed.

End Completing.

(** X12. On a container with tabs, [connectedCallback] completes exactly
    when every tab that has an id has a panel, no tab is without an id
    unless the page binds [panelId] globally, and the tab to select (the
    first one marked selected, or the first one) has a panel. In every
    other case it throws. *)
Theorem attach_completes_iff (s : State) :
  well_formed s →
  query_role "tab" s ≠ [] →
  snd (connectedCallback s) = Normal tt ↔
  (∀ tab, tab ∈ query_role "tab" s → elem_id s tab ≠ "" →
          is_Some (panel_for s tab)) ∧
  (∀ tab, tab ∈ query_role "tab" s → elem_id s tab = "" →
          is_Some (globals s !! "panelId")) ∧
  (∃ tab, first_marked_or_first s = Some tab ∧ is_Some (panel_for s tab)).
Proof.
  intros Hwf Htabs. rewrite (connectedCallback_Normal_iff s Hwf Htabs).
  rewrite Forall_forall. unfold labelable. split.
  - intros [Hall Hfirst]. split_and!; [..|done].
    + intros tab Htab Hid. specialize (Hall tab Htab).
      by rewrite decide_False in Hall.
    + intros tab Htab Hid. specialize (Hall tab Htab).
      by rewrite decide_True in Hall.
  - intros (Hids & Hnone & Hfirst). split; [|done].
    intros tab Htab. case_decide; [by apply (Hnone tab)|by apply Hids].
Qed.

Lemma attach_completes_iff_witness :
  snd (connectedCallback missing_id) = Normal tt ↔
  (∀ tab, tab ∈ query_role "tab" missing_id → elem_id missing_id tab ≠ "" →
          is_Some (panel_for missing_id tab)) ∧
  (∀ tab, tab ∈ query_role "tab" missing_id → elem_id missing_id tab = "" →
          is_Some (globals missing_id !! "panelId")) ∧
  (∃ tab, first_marked_or_first missing_id = Some tab
          ∧ is_Some (panel_for missing_id tab)).
Proof.
  apply attach_completes_iff.
  - by_evaluation.
  - vm_compute. discriminate.
Defined.

(** ** The lifecycle *)

Section Lifecycle.
Implicit Types (s : State) (tab panel el : NodeRef).

Lemma connectedCallback_listeners s :
  listeners (fst (connectedCallback s)) = listeners (attached_host s).
Proof.
  destruct (decide (query_role "tab" (attached_host s) = [])) as [Hnone|Htabs].
  - rewrite connectedCallback_run. cbv zeta. rewrite Hnone.
    by rewrite decide_True.
  - destruct (connectedCallback s) as [s' c] eqn:Hrun.
    by destruct (connectedCallback_frame _ _ _ Htabs Hrun) as (_ & Hl & _).
Qed.

Lemma connectedCallback_role s el :
  attr (fst (connectedCallback s)) el "role"
  = attr (attached_host s) el "role".
Proof.
  destruct (decide (query_role "tab" (attached_host s) = [])) as [Hnone|Htabs].
  - rewrite connectedCallback_run. cbv zeta. rewrite Hnone.
    by rewrite decide_True.
  - destruct (connectedCallback s) as [s' c] eqn:Hrun.
    destruct (connectedCallback_frame _ _ _ Htabs Hrun) as (_ & _ & _ & Ha).
    by apply Ha.
Qed.

Lemma attached_host_listeners s :
  ("keydown", OnKeyDown) ∉ listeners s → ("click", OnClick) ∉ listeners s →
  listeners (attached_host s)
  = listeners s ++ [("keydown", OnKeyDown); ("click", OnClick)].
Proof.
  intros Hkey Hclick. unfold attached_host, add_listener. simpl.
  rewrite (decide_False (P := ("keydown", OnKeyDown) ∈ listeners s)) by done.
  simpl. rewrite decide_False.
  - simpl. by rewrite <- (assoc_L (++)).
  - intros [?|Hin]%elem_of_app; [done|].
    by apply list_elem_of_singleton in Hin.
Qed.

End Lifecycle.

(** X13. However [connectedCallback] ends, also when it throws, it leaves
    the two listeners registered and the role of the element set: a
    container whose set-up failed still handles keys and clicks. *)
Theorem attach_registers_in_any_case (s : State) :
  let s' := fst (connectedCallback s) in
  ("keydown", OnKeyDown) ∈ listeners s' ∧
  ("click", OnClick) ∈ listeners s' ∧
  (is_Some (elements s !! ref (this s)) →
   attr s' (ref (this s)) "role" = Some "tablist").
Proof.
  cbv zeta. rewrite connectedCallback_listeners, connectedCallback_role.
  split_and!.
  - unfold attached_host. simpl.
    apply add_listener_mono, add_listener_elem_of.
  - unfold attached_host. simpl. apply add_listener_elem_of.
  - intros [e He]. unfold attached_host, attr. simpl.
    rewrite lookup_alter_eq, !elements_add_listener, He. simpl.
    by rewrite lookup_insert_eq.
Qed.

Lemma attach_registers_in_any_case_witness :
  (∃ e, snd (connectedCallback missing_id) = Throw e) ∧
  ("keydown", OnKeyDown) ∈ listeners (fst (connectedCallback missing_id)) ∧
  ("click", OnClick) ∈ listeners (fst (connectedCallback missing_id)) ∧
  attr (fst (connectedCallback missing_id)) 0%nat "role" = Some "tablist".
Proof.
  destruct (attach_registers_in_any_case missing_id) as (Hkey & Hclick & Hr).
  split_and!; [by eexists|exact Hkey|exact Hclick|].
  apply Hr. by eexists.
Defined.

(** X14. [disconnectedCallback] completes and takes the two listeners off
    without touching the document: the tree, the elements with their ARIA
    state, and the focus stay. A connect followed by a disconnect leaves
    the listener list of an element that had neither listener as it
    was. *)
Theorem connect_then_disconnect (s : State) :
  ("keydown", OnKeyDown) ∉ listeners s →
  ("click", OnClick) ∉ listeners s →
  let s1 := fst (connectedCallback s) in
  ∃ s2, disconnectedCallback s1 = (s2, Normal tt) ∧
        listeners s2 = listeners s ∧
        this s2 = this s1 ∧ elements s2 = elements s1 ∧
        activeElement s2 = activeElement s1.
Proof.
  intros Hkey Hclick s1. eexists. split; [reflexivity|].
  split_and!; try done. simpl. unfold s1.
  rewrite connectedCallback_listeners, attached_host_listeners by done.
  rewrite !filter_app.
  assert (filter (λ x : string * Listener, x ≠ ("click", OnClick))
            (filter (λ x : string * Listener, x ≠ ("keydown", OnKeyDown))
               [("keydown", OnKeyDown); ("click", OnClick)]) = []) as ->
    by (vm_compute; reflexivity).
  rewrite (right_id_L [] (++)).
  rewrite (filter_all (λ x, x ≠ ("keydown", OnKeyDown)))
    by (intros x Hx Heq; by subst).
  rewrite filter_all; [done|]. intros x Hx Heq. by subst.
Qed.

Lemma connect_then_disconnect_witness :
  ∃ s2, disconnectedCallback (fst (connectedCallback three_tabs))
        = (s2, Normal tt) ∧
        listeners s2 = listeners three_tabs ∧
        this s2 = this (fst (connectedCallback three_tabs)) ∧
        elements s2 = elements (fst (connectedCallback three_tabs)) ∧
        activeElement s2 = activeElement (fst (connectedCallback three_tabs)).
Proof.
  apply connect_then_disconnect.
  - by_evaluation.
  - by_evaluation.
Defined.

(** ** The handlers on a container that is set up *)

Section Handling.
Implicit Types (s : State) (tab panel el : NodeRef) (event : Event).

Lemma exactly_one_selected_tabs s :
  exactly_one_selected s → query_role "tab" s ≠ [].
Proof.
  intros (tab & _ & Hsel & _) Hnone.
  assert (tab ∈ selected_tabs s) as Hin by (rewrite Hsel; by left).
  apply list_elem_of_filter in Hin as [_ Hin]. rewrite Hnone in Hin.
  by apply elem_of_nil in Hin.
Qed.

(** A transition on a paired container, with what it keeps. *)
Lemma transition_keeps s t :
  well_formed s → controls_resolve s → query_role "tab" s ≠ [] →
  t ≠ attach →
  (∀ tab, t = selectExplicit tab → tab ∈ query_role "tab" s) →
  ∃ s', transition t s = (s', Normal tt) ∧ exactly_one_selected s' ∧
        well_formed s' ∧ controls_resolve s' ∧
        ∀ r, query_role r s' = query_role r s.
Proof.
  intros Hwf Hres Htabs Hattach Hexplicit.
  assert (0 < Z.of_nat (length (query_role "tab" s))) as Hlen.
  { destruct (query_role "tab" s); [done|simpl; lia]. }
  assert (∀ newTab tab, newTab = Some tab → tab ∈ query_role "tab" s →
            ∃ s', _selectTab newTab s = (s', Normal tt) ∧
                  exactly_one_selected s' ∧ well_formed s' ∧
                  controls_resolve s' ∧
                  ∀ r, query_role r s' = query_role r s) as Hselect.
  { intros newTab tab -> Htab.
    destruct (_selectTab_keeps s tab Hwf Hres Htab)
      as (s' & ? & _ & ? & ? & ? & ?). by exists s'. }
  destruct t; cbn [transition]; [| | | | |done].
  - eapply Hselect; [done|]. by apply Hexplicit.
  - destruct (_prevTab_is_Some s Htabs) as (tab & Hprev & Htab).
    rewrite bind_run, Hprev. by eapply Hselect.
  - destruct (_nextTab_is_Some s Htabs) as (tab & Hnext & Htab).
    rewrite bind_run, Hnext. by eapply Hselect.
  - unfold _allTabs. rewrite bind_gets.
    destruct (index_in_range (query_role "tab" s) 0) as [tab Htab]; [lia|].
    eapply Hselect; [done|]. by eapply index_elem_of.
  - unfold _allTabs. rewrite bind_gets.
    destruct (index_in_range (query_role "tab" s)
                (Z.of_nat (length (query_role "tab" s)) - 1))
      as [tab Htab]; [lia|].
    eapply Hselect; [done|]. by eapply index_elem_of.
Qed.

Lemma key_transition_keyboard key t :
  key_transition key = Some t →
  t ≠ attach ∧ ∀ tab, t ≠ selectExplicit tab.
Proof.
  unfold key_transition. repeat case_decide; by intros [= <-].
Qed.

(** A key anywhere, and a click on a tab or on an element without a role,
    are handled without an exception and keep one tab selected. *)
Lemma handler_keeps s l event :
  well_formed s → controls_resolve s → exactly_one_selected s →
  (l = OnClick → target event ∈ query_role "tab" s
                 ∨ truthy (attr s (target event) "role") = false) →
  ∃ s', handler l event s = (s', Normal tt) ∧ exactly_one_selected s' ∧
        well_formed s' ∧ controls_resolve s' ∧
        (∀ r, query_role r s' = query_role r s) ∧
        (∀ el, attr s' el "role" = attr s el "role").
Proof.
  intros Hwf Hres Hone Hclick.
  pose proof (exactly_one_selected_tabs s Hone) as Htabs.
  assert (∀ t s0, (∀ tab, t = selectExplicit tab → tab ∈ query_role "tab" s)
            → t ≠ attach → (∃ b, s0 = with_canceled b s) →
            ∃ s', transition t s0 = (s', Normal tt) ∧
                  exactly_one_selected s' ∧ well_formed s' ∧
                  controls_resolve s' ∧
                  (∀ r, query_role r s' = query_role r s) ∧
                  (∀ el, attr s' el "role" = attr s el "role")) as Hrun.
  { intros t s0 Hexplicit Hattach [b ->].
    destruct (transition_keeps (with_canceled b s) t Hwf Hres Htabs Hattach
                Hexplicit) as (s' & Hrun & ? & ? & ? & Hq).
    exists s'. split_and!; try done.
    intros el. destruct t; cbn [transition] in Hrun; try done;
      unfold _allTabs in Hrun;
      rewrite ?bind_gets, ?bind_run, ?_prevTab_run, ?_nextTab_run in Hrun;
      cbv zeta in Hrun;
      apply _selectTab_writes in Hrun as (_ & _ & _ & Hattr);
      by rewrite Hattr. }
  destruct l; cbn [handler].
  - rewrite _onKeyDown_run.
    destruct (prevent_with_canceled event s) as [b Hb].
    case_decide as Hon; [|rewrite Hb; by exists (with_canceled b s)].
    destruct (key_transition (keyCode event)) as [t|] eqn:Hkey;
      [|rewrite Hb; by exists (with_canceled b s)].
    destruct (key_transition_keyboard _ _ Hkey) as [Hattach Hexplicit].
    apply Hrun; [|done|eauto]. intros tab ->. by destruct (Hexplicit tab).
  - rewrite _onClick_run.
    destruct (Hclick eq_refl) as [Htarget|Hrole].
    + pose proof Htarget as [_ Hr]%query_role_elem_of. rewrite Hr.
      change (truthy (Some "tab")) with true. cbv iota.
      apply Hrun; [by intros ? [= <-]|done|].
      exists (canceled s). by destruct s.
    + rewrite Hrole. by exists s.
Qed.

End Handling.

(** X15. Once a container is set up (every tab paired, one tab selected),
    no sequence of key events, whatever their key, target and modifier, and
    of clicks on tabs or on elements without a role makes a handler throw,
    and after the sequence exactly one tab is selected and exactly one
    panel is shown, the panel of that tab. *)
Theorem events_keep_one_selected (s : State)
    (inputs : list (Listener * Event)) :
  well_formed s → controls_resolve s → exactly_one_selected s →
  (∀ event, (OnClick, event) ∈ inputs →
            target event ∈ query_role "tab" s
            ∨ truthy (attr s (target event) "role") = false) →
  ∃ s', forEach inputs (λ i, handler i.1 i.2) s = (s', Normal tt) ∧
        exactly_one_selected s' ∧
        query_role "tab" s' = query_role "tab" s ∧
        query_role "tabpanel" s' = query_role "tabpanel" s.
Proof.
  intros Hwf Hres Hone Hclicks.
  destruct (forEach_completes
              (λ t, well_formed t ∧ controls_resolve t ∧
                    exactly_one_selected t ∧
                    (∀ r, query_role r t = query_role r s) ∧
                    (∀ el, attr t el "role" = attr s el "role"))
              (λ i, handler i.1 i.2) inputs s)
    as (s' & Hrun & _ & _ & Hone' & Hq & _); [|done|].
  - intros [l event] t Hin (Hwft & Hrest & Honet & Hqt & Hrolet). simpl.
    destruct (handler_keeps t l event Hwft Hrest Honet)
      as (t' & Hrun & ? & ? & ? & Hq' & Hrole').
    { intros ->. rewrite Hqt, Hrolet. by apply Hclicks. }
    exists t'. split_and!; try done.
    + intros r. by rewrite Hq'.
    + intros el. by rewrite Hrole'.
  - exists s'. by rewrite !Hq.
Qed.

Lemma events_keep_one_selected_witness :
  ∃ s', forEach [(OnKeyDown, keydown 1 KEYCODE.RIGHT); (OnClick, click 5);
                 (OnKeyDown, keydown 2 65); (OnKeyDown, keydown 5 KEYCODE.UP)]
          (λ i, handler i.1 i.2) three_tabs_attached = (s', Normal tt) ∧
        exactly_one_selected s' ∧
        query_role "tab" s' = query_role "tab" three_tabs_attached ∧
        query_role "tabpanel" s' = query_role "tabpanel" three_tabs_attached.
Proof.
  apply events_keep_one_selected.
  - by_evaluation.
  - paired_by_evaluation.
  - exists 1%nat, 2%nat. vm_compute. by split_and!.
  - intros event Hin.
    repeat (apply elem_of_cons in Hin as [[=]|Hin]);
      [subst event|by apply elem_of_nil in Hin].
    left. by_evaluation.
Defined.

(** X16. A click on a tab of a paired container selects it: it becomes the
    one selected tab, its panel the one shown panel, and it gets the
    focus. *)
Theorem click_selects_the_tab (s : State) (event : Event) :
  well_formed s → controls_resolve s →
  target event ∈ query_role "tab" s →
  ∃ s' panel, _onClick event s = (s', Normal tt) ∧
              panel_for s (target event) = Some panel ∧
              selected_tabs s' = [target event] ∧
              shown_panels s' = [panel] ∧
              activeElement s' = Some (target event).
Proof.
  intros Hwf Hres Htarget.
  destruct (controls_resolve_rearranged s s (target event))
    as [panel Hpanel]; auto using rearranged_refl.
  exists (select_state (target event) panel s), panel.
  pose proof Htarget as [_ Hrole]%query_role_elem_of.
  rewrite _onClick_run, Hrole. cbn [truthy transition].
  rewrite bool_decide_true by done.
  pose proof Hpanel as [Hin _]%panel_for_Some.
  split_and!; auto using _selectTab_found, selected_tabs_select,
    shown_panels_select.
Qed.

Lemma click_selects_the_tab_witness :
  ∃ s' panel, _onClick (click 3) three_tabs_attached = (s', Normal tt) ∧
              panel_for three_tabs_attached 3%nat = Some panel ∧
              selected_tabs s' = [3%nat] ∧ shown_panels s' = [panel] ∧
              activeElement s' = Some 3%nat.
Proof.
  apply (click_selects_the_tab three_tabs_attached (click 3)).
  - by_evaluation.
  - paired_by_evaluation.
  - by_evaluation.
Defined.

(** ** Attaching a second time *)

Section Reattaching.
Implicit Types (s : State) (tab panel el : NodeRef).

Lemma panel_for_same s s' tab :
  query_role "tabpanel" s' = query_role "tabpanel" s →
  (∀ el, attr s' el "id" = attr s el "id") →
  attr s' tab "aria-controls" = attr s tab "aria-controls" →
  panel_for s' tab = panel_for s tab.
Proof.
  intros Hpanels Hid Hctl. unfold panel_for, find. rewrite Hpanels. f_equal.
  apply list_find_ext. intros panel. unfold elem_id. by rewrite Hid, Hctl.
Qed.

Lemma panel_for_regrouped s tab :
  well_formed s → panel_for (regrouped s) tab = panel_for s tab.
Proof.
  intros Hwf. apply panel_for_same.
  - apply regrouped_query_role; auto.
  - intros el. unfold attr at 1. rewrite regrouped_elements.
    by apply attr_attached_host.
  - unfold attr at 1. rewrite regrouped_elements.
    by apply attr_attached_host.
Qed.

(** What a completed [connectedCallback] has selected. *)
Lemma connectedCallback_completed s s' :
  well_formed s → query_role "tab" s ≠ [] →
  connectedCallback s = (s', Normal tt) →
  ∃ tab panel,
    first_marked_or_first s = Some tab ∧ panel_for s tab = Some panel ∧
    selected_tabs s' = [tab] ∧ shown_panels s' = [panel] ∧
    activeElement s' = Some tab ∧ well_formed s'.
Proof.
  intros Hwf Htabs Hrun.
  pose proof (attached_host_tabs _ Hwf Htabs) as Htabs0.
  destruct (connectedCallback_stages _ _ _ Htabs0 Hrun)
    as (s2 & Hs2 & [(e & _ & _ & [=])|(_ & Hsel)]).
  rewrite (initial_tab_relabelled _ _ Hwf Hs2) in Hsel.
  destruct (initial_tab_is_Some (query_role "tab" s) s Htabs) as [tab Htab].
  pose proof Htab as Hin%initial_tab_elem_of.
  rewrite initial_tab_first_marked in Htab. rewrite Htab in Hsel.
  assert (well_formed s2 ∧ ∀ r, r = "tab" ∨ r = "tabpanel" →
                                query_role r s2 = query_role r s)
    as [Hwf2 Hq2].
  { pose proof (rearranged_regrouped s Hwf) as Hre.
    pose proof (rearranged_well_formed _ _ Hre Hwf) as Hwfr.
    destruct Hs2 as (Hthis & _ & _ & _ & _ & Hels). split.
    - unfold well_formed. by rewrite Hthis.
    - intros r Hr. rewrite <- (regrouped_query_role r s Hwf Hr).
      apply query_role_ext; [done|]. intros el.
      by apply (proj2 (Hels el)). }
  destruct (panel_for s2 tab) as [panel|] eqn:Hpanel;
    [|by rewrite (_selectTab_missing _ _ Hpanel) in Hsel].
  rewrite (_selectTab_found _ _ _ Hpanel) in Hsel. injection Hsel as <-.
  exists tab, panel.
  pose proof Hpanel as [Hpin _]%panel_for_Some.
  rewrite (relabelled_panel_for _ _ _ Hs2), (panel_for_regrouped _ _ Hwf)
    in Hpanel.
  split_and!; [done|done|..|done|].
  - apply selected_tabs_select; [done|]. rewrite Hq2; auto.
  - by apply shown_panels_select.
  - unfold well_formed. by rewrite this_select.
Qed.

Lemma attached_host_listeners_again s :
  ("keydown", OnKeyDown) ∈ listeners s → ("click", OnClick) ∈ listeners s →
  listeners (attached_host s) = listeners s.
Proof.
  intros Hkey Hclick. unfold attached_host, add_listener. simpl.
  rewrite (decide_True (P := ("keydown", OnKeyDown) ∈ listeners s)) by done.
  by rewrite decide_True.
Qed.

End Reattaching.

(** X17. Attaching a container that is already attached (the element is
    moved in the document) completes again and keeps what the first
    attachment left: the same tab selected and focused, the same panel
    shown, the same tabs and panels, and the two listeners registered once,
    not twice. *)
Theorem attach_again (s s1 : State) :
  well_formed s → query_role "tab" s ≠ [] →
  connectedCallback s = (s1, Normal tt) →
  ∃ s2, connectedCallback s1 = (s2, Normal tt) ∧
        selected_tabs s2 = selected_tabs s1 ∧
        shown_panels s2 = shown_panels s1 ∧
        activeElement s2 = activeElement s1 ∧
        listeners s2 = listeners s1 ∧
        query_role "tab" s2 = query_role "tab" s1 ∧
        query_role "tabpanel" s2 = query_role "tabpanel" s1.
Proof.
  intros Hwf Htabs Hrun.
  destruct (connectedCallback_completed _ _ Hwf Htabs Hrun)
    as (tab & panel & Hfirst & Hpanel & Hsel & Hshown & Hfocus & Hwf1).
  pose proof (attached_host_tabs _ Hwf Htabs) as Htabs0.
  destruct (connectedCallback_frame _ _ _ Htabs0 Hrun)
    as (_ & Hlisten & Hglobals & Hattr).
  assert (∀ el n, n ≠ "aria-labelledby" → n ≠ "aria-selected" →
                  n ≠ "aria-hidden" → n ≠ "tabindex" → n ≠ "role" →
                  attr s1 el n = attr s el n) as Hsame.
  { intros el n ? ? ? ? ?. rewrite Hattr by done.
    by apply attr_attached_host. }
  assert (∀ r, r = "tab" ∨ r = "tabpanel" →
               query_role r s1 = query_role r s) as Hq.
  { intros r Hr. by apply (connectedCallback_query_role r s s1 (Normal tt)). }
  assert (∀ t, panel_for s1 t = panel_for s t) as Hfor.
  { intros t. apply panel_for_same; [apply Hq; auto|..].
    - intros el. by apply Hsame.
    - by apply Hsame. }
  assert (query_role "tab" s1 ≠ []) as Htabs1 by (rewrite Hq; auto).
  assert (first_marked_or_first s1 = Some tab) as Hfirst1.
  { unfold first_marked_or_first. by rewrite Hsel. }
  assert (snd (connectedCallback s1) = Normal tt) as Hdone.
  { apply (connectedCallback_Normal_iff s1 Hwf1 Htabs1). split.
    - assert (snd (connectedCallback s) = Normal tt) as Hs by (by rewrite Hrun).
      apply (connectedCallback_Normal_iff s Hwf Htabs) in Hs as [Hall _].
      rewrite Hq by auto. eapply Forall_impl; [exact Hall|].
      intros t. unfold labelable, elem_id.
      by rewrite Hglobals, Hfor, Hsame.
    - exists tab. split; [done|]. rewrite Hfor, Hpanel. by eexists. }
  destruct (connectedCallback s1) as [s2 c2] eqn:Hrun1. simpl in Hdone.
  subst c2. exists s2.
  destruct (connectedCallback_completed _ _ Hwf1 Htabs1 Hrun1)
    as (tab' & panel' & Hfirst' & Hpanel' & Hsel' & Hshown' & Hfocus' & _).
  rewrite Hfirst1 in Hfirst'. injection Hfirst' as <-.
  rewrite Hfor, Hpanel in Hpanel'. injection Hpanel' as <-.
  split_and!; [done|congruence..| |
    by apply (connectedCallback_query_role "tab" s1 s2 (Normal tt)); auto |
    by apply (connectedCallback_query_role "tabpanel" s1 s2 (Normal tt));
      auto].
  pose proof (connectedCallback_listeners s1) as Hl. rewrite Hrun1 in Hl.
  simpl in Hl. rewrite Hl. apply attached_host_listeners_again; rewrite Hlisten.
  - unfold attached_host. simpl.
    apply add_listener_mono, add_listener_elem_of.
  - unfold attached_host. simpl. apply add_listener_elem_of.
Qed.

Lemma attach_again_witness :
  ∃ s2, connectedCallback three_tabs_attached = (s2, Normal tt) ∧
        selected_tabs s2 = selected_tabs three_tabs_attached ∧
        shown_panels s2 = shown_panels three_tabs_attached ∧
        activeElement s2 = activeElement three_tabs_attached ∧
        listeners s2 = listeners three_tabs_attached ∧
        query_role "tab" s2 = query_role "tab" three_tabs_attached ∧
        query_role "tabpanel" s2 = query_role "tabpanel" three_tabs_attached.
Proof.
  apply (attach_again three_tabs).
  - by_evaluation.
  - by vm_compute.
  - by vm_compute.
Defined.

(** ** Tabs that name no panel *)

(** X18. A tab without an [aria-controls] attribute has no panel, whatever
    the panels are (a panel without an id is not a match for it); selecting
    it throws once [reset] has run, and if the tab has an id, attaching
    its container does not complete. *)
Theorem tab_without_aria_controls (s : State) (tab : NodeRef) :
  attr s tab "aria-controls" = None →
  _panelForTab (Some tab) s = (s, Normal None) ∧
  _selectTab (Some tab) s = (reset_state s, Throw (missing_panel_error s)) ∧
  (well_formed s → tab ∈ query_role "tab" s → elem_id s tab ≠ "" →
   snd (connectedCallback s) ≠ Normal tt).
Proof.
  intros Hctl.
  assert (panel_for s tab = None) as Hnone.
  { apply panel_for_None. intros panel _. by rewrite Hctl. }
  split_and!.
  - by rewrite _panelForTab_run, Hnone.
  - by apply _selectTab_missing.
  - intros Hwf Htab Hid Hdone.
    assert (query_role "tab" s ≠ []) as Htabs.
    { intros Hnil. rewrite Hnil in Htab. by apply elem_of_nil in Htab. }
    apply (connectedCallback_Normal_iff s Hwf Htabs) in Hdone as [Hall _].
    rewrite Forall_forall in Hall. specialize (Hall tab Htab).
    unfold labelable in Hall. rewrite decide_False, Hnone in Hall by done.
    by destruct Hall.
Qed.

Lemma tab_without_aria_controls_witness :
  _panelForTab (Some 1%nat) bare_tabs = (bare_tabs, Normal None) ∧
  _selectTab (Some 1%nat) bare_tabs
  = (reset_state bare_tabs, Throw (missing_panel_error bare_tabs)) ∧
  snd (connectedCallback bare_tabs) ≠ Normal tt.
Proof.
  destruct (tab_without_aria_controls bare_tabs 1%nat eq_refl)
    as (Hpanel & Hselect & Hattach).
  split_and!; [exact Hpanel|exact Hselect|].
  apply Hattach; by_evaluation.
Defined.

(** X19. A tab whose [aria-controls] is the empty string is paired with
    the first panel in document order that has no id or an empty one, since
    [panel.id] of such a panel is the empty string; selecting the tab shows
    that panel. *)
Theorem empty_aria_controls (s : State) (tab panel : NodeRef) :
  attr s tab "aria-controls" = Some "" →
  head (filter (λ p, elem_id s p = "") (query_role "tabpanel" s))
  = Some panel →
  _panelForTab (Some tab) s = (s, Normal (Some panel)) ∧
  _selectTab (Some tab) s = (select_state tab panel s, Normal tt).
Proof.
  intros Hctl Hhead.
  assert (panel_for s tab = Some panel) as Hpanel.
  { unfold panel_for. rewrite Hctl.
    rewrite (find_ext_elem_of _ (λ p, elem_id s p = "")).
    - by rewrite find_head_filter.
    - intros p _. split; [by intros [= ->]|by intros ->]. }
  split.
  - by rewrite _panelForTab_run, Hpanel.
  - by apply _selectTab_found.
Qed.

Lemma empty_aria_controls_witness :
  _panelForTab (Some 2%nat) bare_tabs = (bare_tabs, Normal (Some 4%nat)) ∧
  _selectTab (Some 2%nat) bare_tabs
  = (select_state 2%nat 4%nat bare_tabs, Normal tt).
Proof. apply empty_aria_controls; reflexivity. Defined.
